(** * Contract registry, event channel, refinement loop and quality
      coordinator of the code-generation pipeline: a shallow embedding

    The development follows the Python sources under
    [code-generator/src]: [core/contract_registry.py], [core/event_bus.py],
    [core/quality_coordinator.py], [handlers/base_handler.py] and
    [handlers/node_handler.py].

    Conventions of the embedding.
    - Python [str] is [string]; text is restricted to 8-bit characters and
      [lower] folds the ASCII letters, which is all the keyword tests of
      the sources can observe on such text.
    - Python [dict] is an insertion-ordered association list ([Dict]): the
      order of [values()] and [items()] is observable in the sources.
    - Python [set] is [gset string]; the iteration order of a set is
      unspecified in Python and [elements] plays that role.
    - Python [float] scores are exact rationals ([Q]).
    - The clock, the log, the disk and the pacing delays are not part of
      the state; [uuid4] is a counter of fresh identifiers.
    - The regular-expression engine, the JSON decoder and the oracle are
      external to the repository: they are section variables or data. *)

From Stdlib Require Import QArith Ascii Lqa.
From stdpp Require Import gmap strings list relations sorting.

Set Warnings "-register-all,-clear-no-such-hyp".

(* ===================================================================== *)
(** * Part I: the model                                                   *)
(* ===================================================================== *)

(** ** Python string operations used by the sources *)
Module PyStr.

Definition nl : string := String (ascii_of_nat 10) EmptyString.
Definition dquote : ascii := ascii_of_nat 34.
Definition squote : ascii := ascii_of_nat 39.
Definition backslash : ascii := ascii_of_nat 92.

Definition chars (s : string) : list ascii := String.list_ascii_of_string s.
Definition of_chars (l : list ascii) : string := String.string_of_list_ascii l.

(** [len(s)] *)
Definition len (s : string) : Z := Z.of_nat (String.length s).

Definition is_upper (c : ascii) : bool :=
  let n := nat_of_ascii c in (65 <=? n)%nat && (n <=? 90)%nat.

Definition lower_char (c : ascii) : ascii :=
  if is_upper c then ascii_of_nat (nat_of_ascii c + 32) else c.

(** [s.lower()] *)
Fixpoint lower (s : string) : string :=
  match s with
  | EmptyString => EmptyString
  | String c s' => String (lower_char c) (lower s')
  end.

(** [s.startswith(p)] *)
Fixpoint startswith (p s : string) : bool :=
  match p, s with
  | EmptyString, _ => true
  | String a p', String b s' => if decide (a = b) then startswith p' s' else false
  | String _ _, EmptyString => false
  end.

(** [needle in s] *)
Fixpoint contains (needle s : string) : bool :=
  startswith needle s ||
  match s with
  | EmptyString => false
  | String _ s' => contains needle s'
  end.

Definition rev_string (s : string) : string := of_chars (rev (chars s)).

(** [s.endswith(p)] *)
Definition endswith (p s : string) : bool :=
  startswith (rev_string p) (rev_string s).

(** [s.count(c)] for a one-character [c] *)
Fixpoint count_char (c : ascii) (s : string) : nat :=
  match s with
  | EmptyString => 0
  | String a s' => (if decide (a = c) then 1 else 0) + count_char c s'
  end.

(** [s.find(c)] for a one-character [c]: the first index, or [-1] *)
Fixpoint find_from (c : ascii) (s : string) (i : Z) : Z :=
  match s with
  | EmptyString => (-1)%Z
  | String a s' => if decide (a = c) then i else find_from c s' (i + 1)%Z
  end.
Definition find (c : ascii) (s : string) : Z := find_from c s 0%Z.

(** [s.rfind(c)] for a one-character [c]: the last index, or [-1] *)
Fixpoint rfind_from (c : ascii) (s : string) (i : Z) (last : Z) : Z :=
  match s with
  | EmptyString => last
  | String a s' =>
      rfind_from c s' (i + 1)%Z (if decide (a = c) then i else last)
  end.
Definition rfind (c : ascii) (s : string) : Z := rfind_from c s 0%Z (-1)%Z.

(** A slice bound as Python normalises it: negative bounds count from
    the end, and the result is clamped to [0, len]. *)
Definition norm_index (n : Z) (i : Z) : Z :=
  let j := if (i <? 0)%Z then (n + i)%Z else i in
  Z.max 0 (Z.min n j).

(** [s[a:b]] *)
Definition slice (s : string) (a b : Z) : string :=
  let n := len s in
  let a' := norm_index n a in
  let b' := norm_index n b in
  String.substring (Z.to_nat a') (Z.to_nat (b' - a')) s.

(** [s[:b]] *)
Definition slice_to (s : string) (b : Z) : string := slice s 0 b.

(** The characters [str.strip()] removes from text of 8-bit characters:
    tab, line feed, vertical tab, form feed, carriage return, the four
    separators 28 to 31, space, next line (133) and no-break space (160). *)
Definition is_space (c : ascii) : bool :=
  let n := nat_of_ascii c in
  ((9 <=? n)%nat && (n <=? 13)%nat) || ((28 <=? n)%nat && (n <=? 32)%nat)
  || (n =? 133)%nat || (n =? 160)%nat.

Fixpoint lstrip_by (f : ascii -> bool) (l : list ascii) : list ascii :=
  match l with
  | [] => []
  | c :: l' => if f c then lstrip_by f l' else l
  end.

Definition strip_by (f : ascii -> bool) (s : string) : string :=
  of_chars (rev (lstrip_by f (rev (lstrip_by f (chars s))))).

(** [s.strip()] *)
Definition strip (s : string) : string := strip_by is_space s.

(** [s.strip(cs)] *)
Definition strip_chars (cs : list ascii) (s : string) : string :=
  strip_by (fun c => bool_decide (c ∈ cs)) s.

(** [s.split(sep)] for a one-character [sep] *)
Fixpoint split_go (sep : ascii) (s : string) (cur : list ascii) : list string :=
  match s with
  | EmptyString => [of_chars (rev cur)]
  | String c s' =>
      if decide (c = sep) then of_chars (rev cur) :: split_go sep s' []
      else split_go sep s' (c :: cur)
  end.
Definition split (sep : ascii) (s : string) : list string := split_go sep s [].

(** [sep.join(parts)] *)
Fixpoint join (sep : string) (parts : list string) : string :=
  match parts with
  | [] => EmptyString
  | [p] => p
  | p :: ps => p +:+ sep +:+ join sep ps
  end.

(** [repr(s)] on printable ASCII text: single quotes, unless the text
    holds a single quote and no double quote; the quote in use and the
    backslash are escaped. *)
Fixpoint escape (q : ascii) (s : string) : string :=
  match s with
  | EmptyString => EmptyString
  | String c s' =>
      if decide (c = backslash) then String backslash (String backslash (escape q s'))
      else if decide (c = q) then String backslash (String q (escape q s'))
      else String c (escape q s')
  end.

Definition repr (s : string) : string :=
  let q := if (0 <? count_char squote s)%nat && (count_char dquote s =? 0)%nat
           then dquote else squote in
  String q (escape q s) +:+ String q EmptyString.

(** [str(list_of_strings)], as an f-string renders a list *)
Definition repr_list (l : list string) : string :=
  "[" +:+ join ", " (map repr l) +:+ "]".

End PyStr.

(** ** Python dictionaries: association lists in insertion order *)
Module Dict.
Section WithTypes.
Context {K : Type} `{EqDecision K} {V : Type}.

Definition t := list (K * V).

(** [d.get(k)] *)
Fixpoint get (k : K) (d : list (K * V)) : option V :=
  match d with
  | [] => None
  | (k', v) :: d' => if decide (k = k') then Some v else get k d'
  end.

(** [d[k] = v]: an existing key keeps its position, a new key is
    appended. *)
Fixpoint set (k : K) (v : V) (d : list (K * V)) : list (K * V) :=
  match d with
  | [] => [(k, v)]
  | (k', v') :: d' =>
      if decide (k = k') then (k, v) :: d' else (k', v') :: set k v d'
  end.

(** [k in d] *)
Definition mem (k : K) (d : list (K * V)) : bool :=
  match get k d with Some _ => true | None => false end.

Definition keys (d : list (K * V)) : list K := d.*1.
Definition values (d : list (K * V)) : list V := d.*2.

(** [d.update(e)] and [dict(pairs)] *)
Definition update (d e : list (K * V)) : list (K * V) :=
  fold_left (fun acc kv => set kv.1 kv.2 acc) e d.

Definition of_pairs (l : list (K * V)) : list (K * V) := update [] l.
End WithTypes.
Arguments t : clear implicits.
End Dict.

(** ** [core/contract_registry.py] *)
Module ContractRegistry.

(** Schemas are opaque structured data for the registry. *)
Definition Schema := list (string * string).

Record APIEndpoint := {
  method : string;
  path : string;
  input_schema : Schema;
  output_schema : Schema;
  authentication_required : bool;
  rate_limit : Z;
  description : string;
  handler_type : string
}.

Record DataModel := {
  name : string;
  schema : Schema;
  relationships : option (list string);
  table_name : option string;
  indexes : option (list string);
  constraints : option (list string)
}.

Record FeatureContract := {
  feature_name : string;
  endpoints : list APIEndpoint;
  models : list DataModel;
  dependencies : option (list string);
  security_requirements : option (list string);
  created_by : option string;
  created_at : option string
}.

(** The in-memory registries of [APIContractRegistry]. *)
Record APIContractRegistry := {
  feature_contracts : Dict.t string FeatureContract;
  endpoint_registry : Dict.t string APIEndpoint;
  model_registry : Dict.t string DataModel;
  dependency_graph : Dict.t string (gset string)
}.

(** [APIContractRegistry.__init__] *)
Definition init : APIContractRegistry :=
  {| feature_contracts := []; endpoint_registry := [];
     model_registry := []; dependency_graph := [] |}.

(** The index key [f"{endpoint.method} {endpoint.path}"]. *)
Definition endpoint_key (ep : APIEndpoint) : string :=
  method ep +:+ " " +:+ path ep.

Definition with_created_at (now : string) (c : FeatureContract) : FeatureContract :=
  {| feature_name := feature_name c; endpoints := endpoints c;
     models := models c; dependencies := dependencies c;
     security_requirements := security_requirements c;
     created_by := created_by c; created_at := Some now |}.

(** [for endpoint in contract.endpoints: self.endpoint_registry[key] = endpoint] *)
Definition index_endpoints (eps : list APIEndpoint)
    (reg : Dict.t string APIEndpoint) : Dict.t string APIEndpoint :=
  fold_left (fun acc ep => Dict.set (endpoint_key ep) ep acc) eps reg.

(** [for model in contract.models: self.model_registry[model.name] = model] *)
Definition index_models (ms : list DataModel)
    (reg : Dict.t string DataModel) : Dict.t string DataModel :=
  fold_left (fun acc m => Dict.set (name m) m acc) ms reg.

(** [register_feature_contract]; [now] is the reading of the clock. The
    truth value of [contract.dependencies] is that of a non-empty list. *)
Definition register_feature_contract (now : string) (contract : FeatureContract)
    (r : APIContractRegistry) : APIContractRegistry :=
  let contract := with_created_at now contract in
  {| feature_contracts :=
       Dict.set (feature_name contract) contract (feature_contracts r);
     endpoint_registry := index_endpoints (endpoints contract) (endpoint_registry r);
     model_registry := index_models (models contract) (model_registry r);
     dependency_graph :=
       match dependencies contract with
       | Some (d :: ds) =>
           Dict.set (feature_name contract) (list_to_set (d :: ds))
             (dependency_graph r)
       | _ => dependency_graph r
       end |}.

(** A sequence of [register_feature_contract] calls, each with its clock
    reading. *)
Definition register_all (calls : list (string * FeatureContract))
    (r : APIContractRegistry) : APIContractRegistry :=
  fold_left (fun acc c => register_feature_contract c.1 c.2 acc) calls r.

Definition get_feature_contract (feature : string) (r : APIContractRegistry)
    : option FeatureContract :=
  Dict.get feature (feature_contracts r).


Definition get_all_models (r : APIContractRegistry) : list DataModel :=
  Dict.values (model_registry r).

(** [_has_circular_dependency]. The [visited] set is one shared mutable
    object in the source, so it is threaded through the calls: a call
    returns its answer together with the set as it leaves it.

    [visit_dependencies] is the loop [for dep in dependencies], with
    [recurse] the recursive call; it stops at the first call that
    answers [True], and that exit does not undo the additions. After the
    loop comes [visited.remove(feature)]. *)
Fixpoint visit_dependencies
    (recurse : string -> gset string -> gset string -> option (bool * gset string))
    (graph : Dict.t string (gset string)) (feature : string)
    (deps : list string) (visited : gset string)
    : option (bool * gset string) :=
  match deps with
  | [] => Some (false, visited ∖ {[feature]})
  | dep :: deps' =>
      match Dict.get dep graph with
      | Some dep_deps =>
          match recurse dep dep_deps visited with
          | None => None
          | Some (true, visited') => Some (true, visited')
          | Some (false, visited') =>
              visit_dependencies recurse graph feature deps' visited'
          end
      | None => visit_dependencies recurse graph feature deps' visited
      end
  end.

(** [fuel] bounds the depth of the recursion; [None] is "out of fuel". *)
Fixpoint has_circular_dependency_fuel (fuel : nat)
    (graph : Dict.t string (gset string))
    (feature : string) (dependencies : gset string) (visited : gset string)
    : option (bool * gset string) :=
  match fuel with
  | O => None
  | S fuel' =>
      if decide (feature ∈ visited) then Some (true, visited)
      else
        visit_dependencies (has_circular_dependency_fuel fuel' graph) graph
          feature (elements dependencies) ({[feature]} ∪ visited)
  end.

(** The call [self._has_circular_dependency(feature, deps)] with a fresh
    [visited] set. The recursion is never deeper than the number of
    graph keys plus two. *)
Definition _has_circular_dependency (graph : Dict.t string (gset string))
    (feature : string) (dependencies : gset string) : option bool :=
  fst <$> has_circular_dependency_fuel (S (S (length graph))) graph
            feature dependencies ∅.

(** The issue report of [validate_cross_stack_consistency]. *)
Record ConsistencyIssues := {
  missing_endpoints : list string;
  missing_models : list string;
  dependency_conflicts : list string;
  naming_conflicts : list string
}.

(** [for feature, deps in self.dependency_graph.items(): ...] *)
Fixpoint check_dependency_cycles (graph : Dict.t string (gset string))
    (items : list (string * gset string)) : option (list string) :=
  match items with
  | [] => Some []
  | (feature, deps) :: items' =>
      b ← _has_circular_dependency graph feature deps;
      rest ← check_dependency_cycles graph items';
      Some (if b : bool then ("Circular dependency in " +:+ feature) :: rest
            else rest)
  end.

Definition validate_cross_stack_consistency (r : APIContractRegistry)
    : option ConsistencyIssues :=
  let endpoint_paths := map path (Dict.values (endpoint_registry r)) in
  let naming :=
    if decide (length endpoint_paths
               ≠ size (list_to_set endpoint_paths : gset string))
    then ["Duplicate endpoint paths detected"] else [] in
  conflicts ← check_dependency_cycles (dependency_graph r) (dependency_graph r);
  Some {| missing_endpoints := []; missing_models := [];
          dependency_conflicts := conflicts; naming_conflicts := naming |}.




(** The issue [f"Circular dependency in {feature}"]. *)
Definition circular_issue (feature : string) : string :=
  "Circular dependency in " +:+ feature.


(** Inputs of the examples. *)
Definition mk_endpoint (m p : string) : APIEndpoint :=
  {| method := m; path := p; input_schema := []; output_schema := [];
     authentication_required := true; rate_limit := 100;
     description := EmptyString; handler_type := "backend" |}.

Definition mk_contract (f : string) (eps : list APIEndpoint)
    (deps : option (list string)) : FeatureContract :=
  {| feature_name := f; endpoints := eps; models := [];
     dependencies := deps; security_requirements := None;
     created_by := None; created_at := None |}.

(** The last endpoint of a list that has the index key [k]. *)
Definition last_with_key (k : string) (eps : list APIEndpoint)
    : option APIEndpoint :=
  last (filter (fun ep => endpoint_key ep = k) eps).


(** The truth value of [contract.dependencies]. *)
Definition has_dependencies (c : FeatureContract) : bool :=
  match dependencies c with
  | Some (_ :: _) => true
  | _ => false
  end.

(** The entries of [get_context_for_handler] that come from the
    registries. *)
Record HandlerContext := {
  feature : string;
  existing_contracts : Dict.t string FeatureContract;
  related_endpoints : list APIEndpoint;
  related_models : list DataModel
}.

Definition get_context_for_handler (handler : string) (f : string)
    (r : APIContractRegistry) : HandlerContext :=
  {| feature := f;
     existing_contracts := feature_contracts r;
     related_endpoints :=
       filter (fun ep => handler_type ep = handler) (Dict.values (endpoint_registry r));
     related_models := Dict.values (model_registry r) |}.

Definition two_same_key : list (string * FeatureContract) :=
  [("t0", mk_contract "users" [mk_endpoint "GET" "/api/users"] None);
   ("t1", mk_contract "admin" [mk_endpoint "GET" "/api/users"] None)].


Definition cycle_AB : list (string * FeatureContract) :=
  [("t0", mk_contract "B" [] (Some ["A"]));
   ("t1", mk_contract "A" [] (Some ["B"]))].


End ContractRegistry.

(** ** [core/event_bus.py] *)
Module EventBus.

(** A correlation id is either a string the caller supplies or a fresh
    [uuid4]; event ids are always fresh. *)
Inductive CorrelationId :=
| Given (s : string)
| Fresh (n : nat).

#[global] Instance CorrelationId_eq_dec : EqDecision CorrelationId.
Proof. solve_decision. Defined.

(** The callables held in the subscriber lists. A callback that
    [wait_for_event] creates resolves its future; any other callback is
    external code, named by an identifier, and whatever it raises is
    swallowed by [_safe_callback]. *)
Inductive Callback :=
| External (id : string)
| Waiter (future : nat).

#[global] Instance Callback_eq_dec : EqDecision Callback.
Proof. solve_decision. Defined.

Section WithData.
(** The payload of an event, [Dict[str, Any]] in the source. *)
Context {Data : Type}.

Record HandlerEvent := {
  event_id : nat;
  event_type : string;
  data : Data;
  source_handler : string;
  correlation_id : CorrelationId
}.

(** The state of an [asyncio.Future] returned by [wait_for_event]. *)
Inductive FutureState :=
| Pending
| Resolved (e : HandlerEvent)
| TimedOut (timeout : Z).

Definition future_done (f : FutureState) : bool :=
  match f with Pending => false | _ => true end.

(** [HandlerEventBus], with the futures it has handed out and the
    supply of fresh identifiers. *)
Record HandlerEventBus := {
  subscribers : Dict.t string (list Callback);
  event_history : list HandlerEvent;
  active_correlations : Dict.t CorrelationId (list nat);
  max_history_size : nat;
  futures : list FutureState;
  next_uuid : nat
}.

(** [HandlerEventBus.__init__] *)
Definition init : HandlerEventBus :=
  {| subscribers := []; event_history := []; active_correlations := [];
     max_history_size := 1000; futures := []; next_uuid := 0 |}.

(** [self.subscribers.get(event_type, [])] *)
Definition subscribers_of (event_type : string) (b : HandlerEventBus)
    : list Callback :=
  default [] (Dict.get event_type (subscribers b)).

Definition subscribe (event_type : string) (callback : Callback)
    (b : HandlerEventBus) : HandlerEventBus :=
  {| subscribers :=
       Dict.set event_type (subscribers_of event_type b ++ [callback])
         (subscribers b);
     event_history := event_history b;
     active_correlations := active_correlations b;
     max_history_size := max_history_size b;
     futures := futures b;
     next_uuid := next_uuid b |}.

(** [create_correlation_id] *)
Definition create_correlation_id (b : HandlerEventBus)
    : CorrelationId * HandlerEventBus :=
  (Fresh (next_uuid b),
   {| subscribers := subscribers b; event_history := event_history b;
      active_correlations := active_correlations b;
      max_history_size := max_history_size b;
      futures := futures b; next_uuid := S (next_uuid b) |}).

(** [history[-n:]]: the last [n] entries, and the whole list for
    [n = 0]. *)
Definition keep_last (n : nat) (l : list HandlerEvent) : list HandlerEvent :=
  match n with
  | O => l
  | _ => drop (length l - n) l
  end.

(** The truth value of the [correlation_id] argument. *)
Definition truthy (c : option CorrelationId) : option CorrelationId :=
  match c with
  | Some (Given EmptyString) => None
  | _ => c
  end.

(** The effect of [_safe_callback(callback, event)] on the futures. *)
Definition run_callback (event : HandlerEvent) (cb : Callback)
    (fs : list FutureState) : list FutureState :=
  match cb with
  | External _ => fs
  | Waiter f =>
      match fs !! f with
      | Some Pending => <[f := Resolved event]> fs
      | _ => fs
      end
  end.

(** The history after [self.event_history.append(event)] and the trim
    to [max_history_size]. *)
Definition record_event (b : HandlerEventBus) (event : HandlerEvent)
    : list HandlerEvent :=
  let history := event_history b ++ [event] in
  if decide (max_history_size b < length history)
  then keep_last (max_history_size b) history else history.

(** [publish]: the new state, the event and the callbacks it invoked,
    in order. *)
Definition publish (event_type : string) (payload : Data)
    (source : string) (correlation : option CorrelationId)
    (b : HandlerEventBus)
    : HandlerEventBus * HandlerEvent * list Callback :=
  let eid := next_uuid b in
  let '(cid, next) :=
    match truthy correlation with
    | Some c => (c, S eid)
    | None => (Fresh (S eid), S (S eid))
    end in
  let event :=
    {| event_id := eid; event_type := event_type; data := payload;
       source_handler := source; correlation_id := cid |} in
  let correlations :=
    Dict.set cid (default [] (Dict.get cid (active_correlations b)) ++ [eid])
      (active_correlations b) in
  let invoked := subscribers_of event_type b in
  ({| subscribers := subscribers b;
      event_history := record_event b event;
      active_correlations := correlations;
      max_history_size := max_history_size b;
      futures := fold_left (fun fs cb => run_callback event cb fs) invoked (futures b);
      next_uuid := next |},
   event, invoked).

(** [wait_for_event]: a new future and a callback subscribed for it.
    The timeout task is the [timeout_elapsed] step below. *)
Definition wait_for_event (event_type : string) (b : HandlerEventBus)
    : nat * HandlerEventBus :=
  let f := length (futures b) in
  let b' := subscribe event_type (Waiter f) b in
  (f,
   {| subscribers := subscribers b'; event_history := event_history b';
      active_correlations := active_correlations b';
      max_history_size := max_history_size b';
      futures := futures b' ++ [Pending]; next_uuid := next_uuid b' |}).

(** [_timeout_future] once its sleep is over. *)
Definition timeout_elapsed (f : nat) (timeout : Z) (b : HandlerEventBus)
    : HandlerEventBus :=
  {| subscribers := subscribers b; event_history := event_history b;
     active_correlations := active_correlations b;
     max_history_size := max_history_size b;
     futures :=
       match futures b !! f with
       | Some Pending => <[f := TimedOut timeout]> (futures b)
       | _ => futures b
       end;
     next_uuid := next_uuid b |}.

(** [get_correlation_events] *)
Definition get_correlation_events (c : CorrelationId) (b : HandlerEventBus)
    : list HandlerEvent :=
  filter (fun e => correlation_id e = c) (event_history b).

(** The calls a client of the channel can make, and the timer. *)
Inductive Op :=
| OpSubscribe (event_type : string) (callback : Callback)
| OpPublish (event_type : string) (payload : Data) (source : string)
            (correlation : option CorrelationId)
| OpWaitForEvent (event_type : string) (timeout : Z)
| OpTimeoutElapsed (future : nat) (timeout : Z).

Definition step (b : HandlerEventBus) (op : Op) : HandlerEventBus :=
  match op with
  | OpSubscribe et cb => subscribe et cb b
  | OpPublish et d src c => (publish et d src c b).1.1
  | OpWaitForEvent et _ => (wait_for_event et b).2
  | OpTimeoutElapsed f t => timeout_elapsed f t b
  end.

Definition run (ops : list Op) (b : HandlerEventBus) : HandlerEventBus :=
  fold_left step ops b.

(** [get_event_history]: each filter applies only when its argument
    is true as Python sees it, that is, neither [None] nor empty. *)
Definition get_event_history (event_types : option (list string))
    (correlation : option CorrelationId) (source : option string)
    (b : HandlerEventBus) : list HandlerEvent :=
  let filtered_events := event_history b in
  let filtered_events :=
    match event_types with
    | Some (t :: ts) =>
        filter (fun e => event_type e ∈ t :: ts) filtered_events
    | _ => filtered_events
    end in
  let filtered_events :=
    match truthy correlation with
    | Some c => filter (fun e => correlation_id e = c) filtered_events
    | None => filtered_events
    end in
  let filtered_events :=
    match source with
    | Some (String c s) =>
        filter (fun e => source_handler e = String c s) filtered_events
    | _ => filtered_events
    end in
  filtered_events.

(** The counting loop of [get_handler_statistics], for one of its two
    dictionaries: [key] is the field counted. *)
Definition count_by (key : HandlerEvent -> string) (l : list HandlerEvent)
    : Dict.t string nat :=
  fold_left
    (fun counts e =>
       Dict.set (key e) (S (default 0 (Dict.get (key e) counts))) counts)
    l [].

(** [get_handler_statistics]; the recent events are listed by type and
    source. *)
Record Statistics := {
  total_events : nat;
  active_correlations_count : nat;
  subscriber_count : nat;
  handler_event_counts : Dict.t string nat;
  event_type_counts : Dict.t string nat;
  recent_events : list (string * string)
}.

Definition get_handler_statistics (b : HandlerEventBus) : Statistics :=
  {| total_events := length (event_history b);
     active_correlations_count := length (active_correlations b);
     subscriber_count :=
       sum_list (map (fun subs : list Callback => length subs)
                   (Dict.values (subscribers b)));
     handler_event_counts := count_by source_handler (event_history b);
     event_type_counts := count_by event_type (event_history b);
     recent_events :=
       map (fun e => (event_type e, source_handler e))
         (drop (length (event_history b) - 5) (event_history b)) |}.

(** The number of subscriptions a sequence of operations makes. *)
Definition is_subscription (op : Op) : bool :=
  match op with
  | OpSubscribe _ _ | OpWaitForEvent _ _ => true
  | _ => false
  end.

Definition subscriptions (ops : list Op) : nat :=
  length (filter (fun op => is_subscription op = true) ops).

(** Every event of the history is listed under its correlation id. *)
Definition correlations_indexed (b : HandlerEventBus) : Prop :=
  ∀ e, e ∈ event_history b →
    ∃ ids, Dict.get (correlation_id e) (active_correlations b) = Some ids
           ∧ event_id e ∈ ids.

(** The number of events of a type in a history. *)
Definition count_type (et : string) (l : list HandlerEvent) : nat :=
  length (filter (fun e => event_type e = et) l).
End WithData.

Arguments HandlerEvent : clear implicits.
Arguments FutureState : clear implicits.
Arguments HandlerEventBus : clear implicits.
Arguments Op : clear implicits.
Arguments Statistics : clear implicits.
End EventBus.

(** ** Values shared by the handlers and the coordinator *)
Module Results.

(** [a < b] and [max(0, a)] on scores. *)
Definition Qltb (a b : Q) : bool := negb (Qle_bool b a).
Definition max0 (a : Q) : Q := if Qltb 0 a then a else 0%Q.

(** The mean [total / n] of [n] scores. *)
Definition Qdiv_nat (total : Q) (n : nat) : Q :=
  (total / inject_Z (Z.of_nat n))%Q.

Definition CodeFiles := Dict.t string string.

(** The [contracts] of a result, [Dict[str, Any]] in the source: each
    key holds a list of declarations, each declaration a dictionary.
    The fields the sources read back ([method], [path], [endpoint],
    [name]) are strings. *)
Definition Declaration := Dict.t string string.
Definition Contracts := Dict.t string (list Declaration).

(** [contracts.get(key, [])] *)
Definition declared (key : string) (c : Contracts) : list Declaration :=
  default [] (Dict.get key c).

Record HandlerResult := {
  success : bool;
  handler_type : string;
  features_implemented : list string;
  code_files : CodeFiles;
  contracts : Contracts;
  quality_score : Q;
  tokens_used : Z;
  error_message : option string;
  refinement_cycles : nat
}.

Definition with_refinement_cycles (n : nat) (r : HandlerResult) : HandlerResult :=
  {| success := success r; handler_type := handler_type r;
     features_implemented := features_implemented r;
     code_files := code_files r; contracts := contracts r;
     quality_score := quality_score r; tokens_used := tokens_used r;
     error_message := error_message r; refinement_cycles := n |}.

(** The payloads the sources publish. *)
Inductive EventData :=
| GenerationFailed (handler : string) (features : list string) (error : string)
| RefinementCycleCompleted (handler : string) (cycle : nat)
    (quality_score target : Q)
| GenerationCompleted (handler : string) (features : list string)
    (quality_score : Q) (contracts : Contracts) (files_generated : nat)
| QualityRefinementCycle (cycle : nat) (quality_score target : Q)
    (issues_resolved remaining_critical : nat).

Abbreviation Bus := (EventBus.HandlerEventBus EventData).
Abbreviation Event := (EventBus.HandlerEvent EventData).

End Results.

(** ** [handlers/base_handler.py] *)
Module BaseHandler.
Import Results.

Record ContextChunk := {
  chunk_id : string;
  chunk_type : string;
  content : string;
  priority : Z;
  tokens_estimate : Z;
  created_at : string
}.

(** [chunks.sort(key=lambda x: x.priority)]: a stable sort. *)
Fixpoint insert_by_priority (c : ContextChunk) (l : list ContextChunk)
    : list ContextChunk :=
  match l with
  | [] => [c]
  | d :: l' =>
      if (priority c <=? priority d)%Z then c :: l
      else d :: insert_by_priority c l'
  end.

Definition sort_by_priority (l : list ContextChunk) : list ContextChunk :=
  foldr insert_by_priority [] l.

Definition truncation_marker : string :=
  PyStr.nl +:+ "... [TRUNCATED FOR TOKEN LIMIT]".

(** The [elif chunk.priority == 1] branch: the chunk's content cut to
    [(max_tokens - current_tokens) * 4] characters, with the marker. *)
Definition truncate_chunk (room : Z) (c : ContextChunk) : ContextChunk :=
  let text := PyStr.slice_to (content c) (room * 4) +:+ truncation_marker in
  {| chunk_id := chunk_id c; chunk_type := chunk_type c;
     content := text; priority := priority c;
     tokens_estimate := (PyStr.len text / 4)%Z;
     created_at := created_at c |}.

(** The [for chunk in chunks] loop of [_optimize_chunks_for_tokens]; the
    truncating branch ends in [break]. *)
Fixpoint optimize_loop (max_tokens : Z) (chunks : list ContextChunk)
    (current_tokens : Z) : list ContextChunk :=
  match chunks with
  | [] => []
  | chunk :: rest =>
      if (current_tokens + tokens_estimate chunk <=? max_tokens)%Z
      then chunk :: optimize_loop max_tokens rest
                      (current_tokens + tokens_estimate chunk)
      else if (priority chunk =? 1)%Z
      then [truncate_chunk (max_tokens - current_tokens) chunk]
      else optimize_loop max_tokens rest current_tokens
  end.

Definition total_tokens (chunks : list ContextChunk) : Z :=
  foldr (fun c acc => (tokens_estimate c + acc)%Z) 0%Z chunks.

Definition _optimize_chunks_for_tokens (max_tokens_per_request : Z)
    (chunks : list ContextChunk) : list ContextChunk :=
  let chunks := sort_by_priority chunks in
  if (total_tokens chunks <=? max_tokens_per_request)%Z then chunks
  else optimize_loop max_tokens_per_request chunks 0.

(** The configuration of a handler; [__init__] sets the cycle limit to 5
    and the token limit to 150000. *)
Record Config := {
  handler_type : string;
  max_refinement_cycles : nat;
  max_tokens_per_request : Z
}.

Definition default_config (name : string) : Config :=
  {| handler_type := name; max_refinement_cycles := 5;
     max_tokens_per_request := 150000 |}.

Record HistoryEntry := {
  h_features : list string;
  h_quality_score : Q;
  h_patterns_used : list string;
  h_contracts : Contracts
}.

(** What a generation run reads and writes: the event channel, the
    handler's generation history, and the number of calls made to the
    oracle so far. *)
Record State := {
  events : Bus;
  generation_history : list HistoryEntry;
  oracle_calls : nat
}.

Definition with_events (b : Bus) (st : State) : State :=
  {| events := b; generation_history := generation_history st;
     oracle_calls := oracle_calls st |}.

Definition with_oracle_calls (n : nat) (st : State) : State :=
  {| events := events st; generation_history := generation_history st;
     oracle_calls := n |}.

(** Computations that read and write the state and may raise; the
    exception is its message. *)
Definition M (A : Type) : Type := State -> (string + A) * State.

Definition ret {A} (a : A) : M A := fun st => (inr a, st).
Definition raise {A} (e : string) : M A := fun st => (inl e, st).
Definition bind {A B} (m : M A) (k : A -> M B) : M B :=
  fun st =>
    match m st with
    | (inl e, st') => (inl e, st')
    | (inr a, st') => k a st'
    end.
(** [try: m except Exception as e: h(e)] *)
Definition try_except {A} (m : M A) (h : string -> M A) : M A :=
  fun st =>
    match m st with
    | (inl e, st') => h e st'
    | (inr a, st') => (inr a, st')
    end.

#[global] Instance M_ret : MRet M := @ret.
#[global] Instance M_bind : MBind M := fun A B k m => bind m k.

(** [await self.events.publish(...)] *)
Definition publish (event_type : string) (payload : EventData)
    (source : string) (correlation : EventBus.CorrelationId) : M unit :=
  fun st =>
    (inr tt,
     with_events
       (EventBus.publish event_type payload source (Some correlation)
          (events st)).1.1 st).

Definition create_correlation_id : M EventBus.CorrelationId :=
  fun st =>
    let '(c, b) := EventBus.create_correlation_id (events st) in
    (inr c, with_events b st).

(** The type of the event published when a generation fails, and the
    number of such events in the history of a state. *)
Definition failure_type : string := "handler_generation_failed".

Definition failures (st : State) : nat :=
  EventBus.count_type failure_type (EventBus.event_history (events st)).

Section Template.
Variable cfg : Config.
(** The abstract methods a technology handler implements. The
    improvement step stands for [_build_improvement_prompt] followed by
    [_apply_improvements]. *)
Variable _generate_with_chunked_context :
  list string -> EventBus.CorrelationId -> M HandlerResult.
Variable _apply_improvements : HandlerResult -> Q -> M HandlerResult.

(** The [while] loop of [_refine_until_quality_met]. [remaining] is
    [max_refinement_cycles - cycle], so [cycle < max_refinement_cycles]
    is [remaining ≠ 0]. *)
Fixpoint refine_loop (remaining cycle : nat) (current_result : HandlerResult)
    (quality_target : Q) (correlation : EventBus.CorrelationId)
    : M HandlerResult :=
  match remaining with
  | O => ret current_result
  | S remaining' =>
      if Qltb (quality_score current_result) quality_target then
        let cycle := S cycle in
        improved_result ← _apply_improvements current_result quality_target;
        let current_result := with_refinement_cycles cycle improved_result in
        _ ← publish "refinement_cycle_completed"
                (RefinementCycleCompleted (handler_type cfg) cycle
                   (quality_score current_result) quality_target)
                (handler_type cfg) correlation;
        refine_loop remaining' cycle current_result quality_target correlation
      else ret current_result
  end.

Definition _refine_until_quality_met (initial_result : HandlerResult)
    (quality_target : Q) (correlation : EventBus.CorrelationId)
    : M HandlerResult :=
  refine_loop (max_refinement_cycles cfg) 0 initial_result quality_target
    correlation.

(** [_extract_patterns_used] of the base class. *)
Definition _extract_patterns_used (result : HandlerResult) : list string := [].

Definition _finalize_generation (result : HandlerResult)
    (correlation : EventBus.CorrelationId) : M unit :=
  fun st =>
    let st :=
      {| events := events st;
         generation_history :=
           generation_history st ++
           [{| h_features := features_implemented result;
               h_quality_score := quality_score result;
               h_patterns_used := _extract_patterns_used result;
               h_contracts := contracts result |}];
         oracle_calls := oracle_calls st |} in
    publish (handler_type cfg +:+ "_generation_completed")
      (GenerationCompleted (handler_type cfg) (features_implemented result)
         (quality_score result) (contracts result)
         (length (code_files result)))
      (handler_type cfg) correlation st.

(** The result built in the [except] branch of [generate_code]. *)
Definition failure_result (e : string) : HandlerResult :=
  {| success := false; Results.handler_type := handler_type cfg;
     features_implemented := []; code_files := []; contracts := [];
     quality_score := 0; tokens_used := 0;
     error_message := Some e; refinement_cycles := 0 |}.

(** [generate_code]. Step 1 of the source prepares the context chunks
    of the prompt; the oracle is given by its replies, so the step
    has no effect here. *)
Definition generate_code (features : list string) (quality_target : Q)
    : M HandlerResult :=
  correlation ← create_correlation_id;
  try_except
    (initial_result ← _generate_with_chunked_context features correlation;
     refined_result ←
       (if Qltb (quality_score initial_result) quality_target
        then _refine_until_quality_met initial_result quality_target correlation
        else ret initial_result);
     _ ← _finalize_generation refined_result correlation;
     ret refined_result)
    (fun e =>
       _ ← publish failure_type
               (GenerationFailed (handler_type cfg) features e)
               (handler_type cfg) correlation;
       ret (failure_result e)).
End Template.

(** Inputs of the examples: three critical chunks of 100000 tokens. *)
Definition mk_chunk (id : string) (p t : Z) : ContextChunk :=
  {| chunk_id := id; chunk_type := id; content := "text";
     priority := p; tokens_estimate := t; created_at := "t0" |}.

Definition three_critical : list ContextChunk :=
  [mk_chunk "architecture" 1 100000; mk_chunk "contracts" 1 100000;
   mk_chunk "features" 1 100000].

Definition prepared_chunks : list ContextChunk :=
  [mk_chunk "architecture" 1 100000; mk_chunk "contracts" 1 100000;
   mk_chunk "history" 2 10; mk_chunk "features" 1 10].

End BaseHandler.

(** ** [handlers/node_handler.py] *)
Module NodeHandler.
Import Results BaseHandler.

(** A decoded JSON document; the members of an object are in document
    order, and [json.loads] turns them into a [dict]. *)
Inductive json :=
| JNull
| JBool (b : bool)
| JNumber (literal : string)
| JString (s : string)
| JArray (items : list json)
| JObject (members : list (string * json)).

(** A reply of the oracle to one [messages.create] call: the text of the
    response with its token usage, if it reports one, or an exception. *)
Inductive OracleReply :=
| Reply (text : string) (usage : option (Z * Z))
| Raises (message : string).

(** The oracle, as the reply it gives to its [n]-th call. *)
Definition Oracle := nat -> OracleReply.

Record FileScore := {
  score : Q;
  issues : list string;
  file_path : string
}.

Record Metrics := {
  total_files : nat;
  average_score : Q;
  files_above_8 : nat;
  critical_issues : nat
}.

Record QualityReport := {
  overall_score : Q;
  file_scores : Dict.t string FileScore;
  report_issues : list string;
  metrics : Metrics
}.

(** [self.quality_patterns] *)
Definition pattern_error_handling : string :=
  "try\s*{|catch\s*\(|\.catch\(|next\(|throw\s+new".
Definition pattern_validation : string := "joi\.|validator\.|validate\(|schema\.".
Definition pattern_security : string := "helmet|cors|sanitize|escape|bcrypt|jwt".
Definition pattern_logging : string := "logger\.|console\.|winston|log\(".
Definition pattern_async_await : string := "async\s+function|await\s+".
Definition pattern_middleware : string := "\.use\(|middleware|next\(\)".
Definition pattern_database : string :=
  "\.findOne|\.create|\.update|\.delete|\.save|query\(".
Definition pattern_status_codes : string := "\.status\(|res\.json|res\.send".

(** One check of [_validate_single_file_quality]: a failed check
    subtracts its penalty and appends its issue. *)
Definition check (failed : bool) (penalty : Q) (issue : string)
    (acc : Q * list string) : Q * list string :=
  if failed then ((acc.1 - penalty)%Q, acc.2 ++ [issue]) else acc.

(** The fallback skeleton. *)
Definition _generate_basic_app_file : string :=
"const express = require('express');
const cors = require('cors');
const helmet = require('helmet');

const app = express();

// Security middleware
app.use(helmet());
app.use(cors());

// Body parsing middleware
app.use(express.json({ limit: '10mb' }));
app.use(express.urlencoded({ extended: true }));

// Health check endpoint
app.get('/health', (req, res) => {
  res.json({ status: 'healthy', timestamp: new Date().toISOString() });
});

// Error handling middleware
app.use((err, req, res, next) => {
  console.error(err.stack);
  res.status(500).json({ error: 'Something went wrong!' });
});

module.exports = app;".

Definition _generate_basic_server_file : string :=
"const app = require('./app');
const PORT = process.env.PORT || 3000;

const server = app.listen(PORT, () => {
  console.log(`Server running on port ${PORT}`);
});

// Graceful shutdown
process.on('SIGTERM', () => {
  console.log('SIGTERM received, shutting down gracefully');
  server.close(() => {
    console.log('Process terminated');
  });
});".

(** A line [  "key": "value"] of the skeleton [package.json]. *)
Definition quoted (s : string) : string :=
  String PyStr.dquote s +:+ String PyStr.dquote EmptyString.
Definition member (indent key value : string) : string :=
  indent +:+ quoted key +:+ ": " +:+ quoted value.
Definition opens (indent key : string) : string :=
  indent +:+ quoted key +:+ ": {".

Definition _generate_basic_package_json : string :=
  PyStr.join PyStr.nl
    ["{";
     member "  " "name" "generated-backend" +:+ ",";
     member "  " "version" "1.0.0" +:+ ",";
     member "  " "description" "Generated Node.js backend application" +:+ ",";
     member "  " "main" "src/server.js" +:+ ",";
     opens "  " "scripts";
     member "    " "start" "node src/server.js" +:+ ",";
     member "    " "dev" "nodemon src/server.js" +:+ ",";
     member "    " "test" "jest";
     "  },";
     opens "  " "dependencies";
     member "    " "express" "^4.18.2" +:+ ",";
     member "    " "cors" "^2.8.5" +:+ ",";
     member "    " "helmet" "^7.0.0" +:+ ",";
     member "    " "joi" "^17.9.2" +:+ ",";
     member "    " "bcryptjs" "^2.4.3" +:+ ",";
     member "    " "jsonwebtoken" "^9.0.2" +:+ ",";
     member "    " "winston" "^3.10.0";
     "  },";
     opens "  " "devDependencies";
     member "    " "nodemon" "^3.0.1" +:+ ",";
     member "    " "jest" "^29.6.2";
     "  }";
     "}"].

Definition basic_structure : CodeFiles :=
  [("src/app.js", _generate_basic_app_file);
   ("src/server.js", _generate_basic_server_file);
   ("package.json", _generate_basic_package_json)].

(** [isinstance(parsed, dict) and all(isinstance(k, str) and
    isinstance(v, str) for k, v in parsed.items())], with the file map
    when it holds. *)
Definition as_string (j : json) : option string :=
  match j with JString s => Some s | _ => None end.

Definition as_file_map (parsed : json) : option CodeFiles :=
  match parsed with
  | JObject members =>
      mapM (fun kv : string * json => s ← as_string kv.2; Some (kv.1, s))
        (Dict.of_pairs members)
  | _ => None
  end.

(** The three backquotes of a code fence. *)
Definition fence : string := "```".

(** Dropping the first and the last line of a text. *)
Definition drop_first_line (s : string) : string :=
  PyStr.join PyStr.nl (drop 1 (PyStr.split (ascii_of_nat 10) s)).
Definition drop_last_line (s : string) : string :=
  let lines := PyStr.split (ascii_of_nat 10) s in
  PyStr.join PyStr.nl (take (length lines - 1) lines).

(** The text and the token usage of a response. *)
Definition Response : Type := string * option (Z * Z).

(** One [messages.create] call, the [calls]-th the oracle receives.
    Without a client the attribute access raises and no call is made. *)
Definition call_oracle (client : option Oracle) (calls : nat) : OracleReply * nat :=
  match client with
  | Some oracle => (oracle calls, S calls)
  | None => (Raises "'NoneType' object has no attribute 'messages'", calls)
  end.

(** The [for attempt in range(max_retries)] loop of
    [_claude_request_with_retry], on the number of calls the oracle has
    received; [remaining] is [max_retries - attempt]. An error that
    mentions overload or rate limiting is retried after a pause; any
    other error is raised on the last attempt only. *)
Fixpoint retry_loop (client : option Oracle) (max_retries remaining attempt : nat)
    (calls : nat) : (string + Response) * nat :=
  match remaining with
  | O => (inl "Max retries exceeded for Claude API", calls)
  | S remaining' =>
      let '(reply, calls) := call_oracle client calls in
      match reply with
      | Reply text usage => (inr (text, usage), calls)
      | Raises e =>
          if PyStr.contains "overloaded" e || PyStr.contains "rate_limit" e
          then retry_loop client max_retries remaining' (S attempt) calls
          else if (attempt =? max_retries - 1)%nat then (inl e, calls)
          else retry_loop client max_retries remaining' (S attempt) calls
      end
  end.

Definition request_with_retry (client : option Oracle) (calls : nat)
    : (string + Response) * nat :=
  retry_loop client 3 3 0 calls.

Section WithEngines.
(** [re.search(pattern, text)] finds a match. *)
Variable re_search : string -> string -> bool.
(** [json.loads(text)], [None] for a [JSONDecodeError]. *)
Variable json_loads : string -> option json.
(** [re.findall(file_pattern, response, re.DOTALL)] of
    [_extract_code_blocks_fallback]: the pairs of groups. *)
Variable findall_file_pattern : string -> list (string * string).
(** [_extract_node_contracts], a scan of the files with regular
    expressions. [_register_api_contracts] then writes them to the
    contract registry only. *)
Variable _extract_node_contracts : CodeFiles -> list string -> Contracts.
(** [self.claude_client] *)
Variable claude_client : option Oracle.

Definition _validate_single_file_quality (file_path content : string)
    : FileScore :=
  if PyStr.endswith ".sql" file_path || PyStr.endswith ".env.example" file_path
  then {| score := 10; issues := []; file_path := file_path |}
  else
    let path_lower := PyStr.lower file_path in
    let acc : Q * list string := (10%Q, []) in
    let acc :=
      check (negb (re_search pattern_error_handling content)) 2
        ("CRITICAL: No error handling in " +:+ file_path) acc in
    let acc :=
      check ((PyStr.contains "controller" path_lower
              || PyStr.contains "route" path_lower)
             && negb (re_search pattern_validation content)) (3 # 2)
        ("CRITICAL: No input validation in " +:+ file_path) acc in
    let acc :=
      check ((PyStr.contains "auth" path_lower
              || PyStr.contains "security" path_lower)
             && negb (re_search pattern_security content)) (3 # 2)
        ("CRITICAL: Missing security patterns in " +:+ file_path) acc in
    let acc :=
      check (negb (re_search pattern_async_await content)
             && negb (PyStr.contains "config" path_lower)) 1
        ("Missing async/await patterns in " +:+ file_path) acc in
    let acc :=
      check (negb (re_search pattern_logging content)) (1 # 2)
        ("Missing logging in " +:+ file_path) acc in
    let acc :=
      check (PyStr.contains "controller" path_lower
             && negb (re_search pattern_status_codes content)) 1
        ("Missing proper HTTP responses in " +:+ file_path) acc in
    let acc :=
      check ((PyStr.contains "app.js" file_path
              || PyStr.contains "server.js" file_path)
             && negb (re_search pattern_middleware content)) 1
        ("Missing middleware setup in " +:+ file_path) acc in
    let acc :=
      check (PyStr.len (PyStr.strip content) <? 100)%Z 3
        ("CRITICAL: File too short/incomplete " +:+ file_path) acc in
    let acc :=
      check (negb (PyStr.count_char "{" content =? PyStr.count_char "}" content)%nat) 2
        ("CRITICAL: Bracket mismatch in " +:+ file_path) acc in
    {| score := max0 acc.1; issues := acc.2; file_path := file_path |}.

(** The loop of [_validate_code_quality] over [code_files.items()]. *)
Definition validate_files (code_files : CodeFiles)
    : Q * Dict.t string FileScore * list string :=
  fold_left
    (fun '(total_score, file_scores, issues) '(file_path, content) =>
       let file_score := _validate_single_file_quality file_path content in
       ((total_score + score file_score)%Q,
        Dict.set file_path file_score file_scores,
        issues ++ NodeHandler.issues file_score))
    code_files (0%Q, [], []).

Definition _validate_code_quality (code_files : CodeFiles) : QualityReport :=
  let '(total_score, file_scores, issues) := validate_files code_files in
  let overall_score :=
    match code_files with
    | [] => 0%Q
    | _ => Qdiv_nat total_score (length code_files)
    end in
  {| overall_score := overall_score;
     file_scores := file_scores;
     report_issues := issues;
     metrics :=
       {| total_files := length code_files;
          average_score := overall_score;
          files_above_8 :=
            length (filter (fun fs => Qle_bool 8 (score fs) = true)
                      (Dict.values file_scores));
          critical_issues :=
            length (filter (fun i => PyStr.startswith "CRITICAL" i = true) issues) |} |}.

(** The body of the [for file_path, code_content in matches] loop. *)
Definition clean_block (m : string * string) : string * string :=
  let file_path :=
    PyStr.strip_chars [PyStr.dquote; PyStr.squote] (PyStr.strip m.1) in
  let code_content := PyStr.strip m.2 in
  let code_content :=
    if PyStr.startswith fence code_content
    then drop_first_line code_content else code_content in
  let code_content :=
    if PyStr.endswith fence code_content
    then drop_last_line code_content else code_content in
  (file_path, code_content).

Definition keep_block (code_files : CodeFiles) (m : string * string) : CodeFiles :=
  let '(file_path, code_content) := clean_block m in
  if negb (String.eqb file_path EmptyString)
     && negb (String.eqb code_content EmptyString)
     && (50 <? PyStr.len code_content)%Z
  then Dict.set file_path code_content code_files
  else code_files.

Definition _extract_code_blocks_fallback (response : string) : CodeFiles :=
  let code_files := fold_left keep_block (findall_file_pattern response) [] in
  match code_files with
  | [] => basic_structure
  | _ => code_files
  end.

Definition _parse_node_response (response : string) : CodeFiles :=
  let response_clean := PyStr.strip response in
  let start_idx := PyStr.find "{" response_clean in
  let end_idx := (PyStr.rfind "}" response_clean + 1)%Z in
  if negb (start_idx =? -1)%Z && (start_idx <? end_idx)%Z then
    match json_loads (PyStr.slice response_clean start_idx end_idx) with
    | Some parsed =>
        match as_file_map parsed with
        | Some files => files
        | None => _extract_code_blocks_fallback response
        end
    | None => _extract_code_blocks_fallback response
    end
  else _extract_code_blocks_fallback response.

Definition _claude_request_with_retry : M Response :=
  fun st =>
    let '(outcome, calls) := request_with_retry claude_client (oracle_calls st) in
    (outcome, with_oracle_calls calls st).

(** [response.usage.input_tokens + response.usage.output_tokens if
    hasattr(response, 'usage') else 0] *)
Definition usage_tokens (usage : option (Z * Z)) : Z :=
  match usage with
  | Some (input_tokens, output_tokens) => (input_tokens + output_tokens)%Z
  | None => 0%Z
  end.

Definition node_handler_type : string := "node_backend".

Definition _generate_with_chunked_context (features : list string)
    (correlation : EventBus.CorrelationId) : M HandlerResult :=
  match claude_client with
  | None => raise "Claude client not initialized"
  | Some _ =>
      response ← _claude_request_with_retry;
      let parsed_code := _parse_node_response response.1 in
      let quality_report := _validate_code_quality parsed_code in
      let contracts := _extract_node_contracts parsed_code features in
      mret {| success := true;
              Results.handler_type := node_handler_type;
              features_implemented := features;
              code_files := parsed_code;
              contracts := contracts;
              quality_score := overall_score quality_report;
              tokens_used := usage_tokens response.2;
              error_message := None;
              refinement_cycles := 0 |}
  end.

Definition _apply_improvements (current_result : HandlerResult)
    (quality_target : Q) : M HandlerResult :=
  try_except
    (response ← _claude_request_with_retry;
     let improved_code := _parse_node_response response.1 in
     let final_code := Dict.update (code_files current_result) improved_code in
     let quality_report := _validate_code_quality final_code in
     let contracts :=
       _extract_node_contracts final_code (features_implemented current_result) in
     mret {| success := true;
             Results.handler_type := node_handler_type;
             features_implemented := features_implemented current_result;
             code_files := final_code;
             contracts := contracts;
             quality_score := overall_score quality_report;
             tokens_used :=
               (tokens_used current_result + usage_tokens response.2)%Z;
             error_message := None;
             refinement_cycles := refinement_cycles current_result |})
    (fun _ => ret current_result).

(** [NodeHandler.generate_code], inherited from the base class. *)
Definition generate_code (cfg : Config) (features : list string)
    (quality_target : Q) : M HandlerResult :=
  BaseHandler.generate_code cfg _generate_with_chunked_context
    _apply_improvements features quality_target.
End WithEngines.

(** [NodeHandler.__init__] *)
Definition node_config : Config := default_config "node_backend".

Definition initial_state : State :=
  {| events := EventBus.init; generation_history := []; oracle_calls := 0 |}.

(** Engines and oracles of the examples: a matcher that finds nothing, a
    decoder that knows the empty object only, a block scan that finds
    nothing, a contract scan that extracts nothing. *)
Definition no_match : string -> string -> bool := fun _ _ => false.
Definition loads_empty_object : string -> option json :=
  fun s => if String.eqb s "{}" then Some (JObject []) else None.
Definition no_blocks : string -> list (string * string) := fun _ => [].
Definition no_contracts : CodeFiles -> list string -> Contracts := fun _ _ => [].

(** An oracle that always raises, one that always answers with the same
    prose, one that answers once and raises from then on, and one that
    always answers with the empty JSON object. *)
Definition always_raises : Oracle := fun _ => Raises "boom".
Definition always_empty_object : Oracle := fun _ => Reply "{}" None.

(** An oracle that fails twice, the second time with an error that is
    not transient, and answers from the third call on. *)
Definition fails_twice : Oracle :=
  fun n =>
    match n with
    | 0 => Raises "overloaded_error"
    | 1 => Raises "invalid request"
    | _ => Reply "{}" None
    end.

End NodeHandler.

(** ** [core/quality_coordinator.py] *)
Module QualityCoordinator.
Import Results.

Record CrossStackIssue := {
  issue_type : string;
  severity : string;
  description : string;
  affected_handlers : list string;
  suggested_fix : string
}.

(** What a validator returns: [{"score": ..., "issues": ...}]. *)
Record ValidatorResult := {
  score : Q;
  issues : list CrossStackIssue
}.

Definition HandlerResults := Dict.t string HandlerResult.

(** A validator either returns its result or raises; the exception is
    its message. *)
Definition Validator := HandlerResults -> string + ValidatorResult.

Record Metrics := {
  handlers_validated : nat;
  cross_stack_rules_checked : nat;
  total_issues_found : nat;
  critical_issues_count : nat;
  warnings_count : nat;
  recommendations_count : nat;
  handler_average_score : Q;
  cross_stack_weighted_score : Q
}.

Record QualityReport := {
  overall_score : Q;
  handler_scores : Dict.t string Q;
  cross_stack_score : Q;
  critical_issues : list string;
  warnings : list string;
  recommendations : list string;
  metrics : Metrics;
  refinement_cycles : nat
}.

(** [api['method']], [api['path']]: a missing key raises [KeyError],
    whose message is the key in quotes. *)
Definition item (key : string) (d : Declaration) : string + string :=
  match Dict.get key d with
  | Some v => inr v
  | None => inl (PyStr.repr key)
  end.

(** [set(f"{api['method']} {api['path']}" for api in backend_apis)] *)
Fixpoint backend_endpoint_set (apis : list Declaration) : string + gset string :=
  match apis with
  | [] => inr ∅
  | api :: apis' =>
      match item "method" api with
      | inl e => inl e
      | inr m =>
          match item "path" api with
          | inl e => inl e
          | inr p =>
              match backend_endpoint_set apis' with
              | inl e => inl e
              | inr s => inr ({[m +:+ " " +:+ p]} ∪ s)
              end
          end
      end
  end.

(** The set of the values [d.get(key)] of the declarations, the empty
    string standing for a missing key. *)
Definition get_set (key : string) (decls : list Declaration) : gset string :=
  list_to_set (map (fun d => default EmptyString (Dict.get key d)) decls).

Definition _validate_api_consistency : Validator := fun handler_results =>
  match Dict.get "backend" handler_results, Dict.get "frontend" handler_results with
  | Some backend_result, Some frontend_result =>
      let backend_apis := declared "api_endpoints" (contracts backend_result) in
      let frontend_apis := declared "api_calls" (contracts frontend_result) in
      match backend_endpoint_set backend_apis with
      | inl e => inl e
      | inr backend_endpoints =>
          let frontend_calls := get_set "endpoint" frontend_apis in
          let missing_backend := frontend_calls ∖ backend_endpoints in
          let unused_backend := backend_endpoints ∖ frontend_calls in
          let acc : Q * list CrossStackIssue := (10%Q, []) in
          let acc :=
            if decide (missing_backend = ∅) then acc
            else ((acc.1 - 3)%Q,
                  acc.2 ++
                  [{| issue_type := "contract_mismatch";
                      severity := "critical";
                      description :=
                        "Frontend calls missing backend endpoints: "
                        +:+ PyStr.repr_list (elements missing_backend);
                      affected_handlers := ["frontend"; "backend"];
                      suggested_fix :=
                        "Add missing backend endpoints or remove unused frontend calls" |}]) in
          let acc :=
            if decide (unused_backend = ∅) then acc
            else ((acc.1 - 1)%Q,
                  acc.2 ++
                  [{| issue_type := "contract_mismatch";
                      severity := "warning";
                      description :=
                        "Backend endpoints not used by frontend: "
                        +:+ PyStr.repr_list (elements unused_backend);
                      affected_handlers := ["frontend"; "backend"];
                      suggested_fix :=
                        "Remove unused endpoints or add frontend integration" |}]) in
          inr {| score := max0 acc.1; issues := acc.2 |}
      end
  | _, _ => inr {| score := 10; issues := [] |}
  end.

Definition _validate_data_model_consistency : Validator := fun handler_results =>
  match Dict.get "backend" handler_results, Dict.get "database" handler_results with
  | Some backend_result, Some database_result =>
      let backend_models :=
        get_set "name" (declared "models_created" (contracts backend_result)) in
      let database_models :=
        get_set "name" (declared "tables_created" (contracts database_result)) in
      let missing_database := backend_models ∖ database_models in
      let missing_backend := database_models ∖ backend_models in
      let acc : Q * list CrossStackIssue := (10%Q, []) in
      let acc :=
        if decide (missing_database = ∅) then acc
        else ((acc.1 - 2)%Q,
              acc.2 ++
              [{| issue_type := "contract_mismatch";
                  severity := "critical";
                  description :=
                    "Backend models missing database tables: "
                    +:+ PyStr.repr_list (elements missing_database);
                  affected_handlers := ["backend"; "database"];
                  suggested_fix :=
                    "Create missing database tables or remove unused backend models" |}]) in
      let acc :=
        if decide (missing_backend = ∅) then acc
        else ((acc.1 - 1)%Q,
              acc.2 ++
              [{| issue_type := "contract_mismatch";
                  severity := "warning";
                  description :=
                    "Database tables not used by backend: "
                    +:+ PyStr.repr_list (elements missing_backend);
                  affected_handlers := ["backend"; "database"];
                  suggested_fix :=
                    "Add backend models or remove unused database tables" |}]) in
      inr {| score := max0 acc.1; issues := acc.2 |}
  | _, _ => inr {| score := 10; issues := [] |}
  end.

(** [any(term in content.lower() for term in terms)] over the files. *)
Definition any_file_mentions (terms : list string) (files : CodeFiles) : bool :=
  existsb (fun content =>
             existsb (fun term => PyStr.contains term (PyStr.lower content)) terms)
    (Dict.values files).

Definition _validate_authentication_consistency : Validator := fun handler_results =>
  let auth_patterns :=
    fold_left
      (fun acc '(handler_name, result) =>
         Dict.set handler_name
           (any_file_mentions ["jwt"; "token"; "auth"; "login"] (code_files result),
            any_file_mentions ["jwt"; "jsonwebtoken"] (code_files result))
           acc)
      handler_results ([] : Dict.t string (bool * bool)) in
  let auth_handlers := map fst (filter (fun hp => hp.2.1 = true) auth_patterns) in
  if decide (0 < length auth_handlers < length handler_results)%nat then
    let missing_auth :=
      filter (fun h => h ∉ auth_handlers) (Dict.keys handler_results) in
    inr {| score := max0 (10 - 2);
           issues :=
             [{| issue_type := "security_gap";
                 severity := "critical";
                 description :=
                   "Inconsistent authentication implementation. Missing in: "
                   +:+ PyStr.repr_list missing_auth;
                 affected_handlers := missing_auth;
                 suggested_fix :=
                   "Implement consistent authentication across all handlers" |}] |}
  else inr {| score := max0 10; issues := [] |}.

(** What [validate_contracts_only] returns. *)
Record ContractValidation := {
  contract_score : Q;
  contract_issues : list CrossStackIssue;
  validation_type : string
}.

(** [validate_contracts_only]: the three contract validators are called
    outside any [try], so what one of them raises reaches the caller. *)
Definition validate_contracts_only (handler_results : HandlerResults)
    : string + ContractValidation :=
  match _validate_api_consistency handler_results with
  | inl e => inl e
  | inr contract_issues =>
      match _validate_data_model_consistency handler_results with
      | inl e => inl e
      | inr model_issues =>
          match _validate_authentication_consistency handler_results with
          | inl e => inl e
          | inr auth_issues =>
              inr {| contract_score :=
                       ((score contract_issues + score model_issues
                         + score auth_issues) / 3)%Q;
                     contract_issues :=
                       issues contract_issues ++ issues model_issues
                       ++ issues auth_issues;
                     validation_type := "contracts_only" |}
          end
      end
  end.

Definition security_patterns : list string :=
  ["sanitize|escape|validate|joi\.|validator\.";
   "xss|sql.*injection|csrf";
   "helmet|cors|rate.*limit"].

(** Some file mentions [term]: [term in content.lower()] for one of the
    contents. *)
Definition mentions (term : string) (files : CodeFiles) : bool :=
  existsb (fun content => PyStr.contains term (PyStr.lower content))
    (Dict.values files).

Section WithEngine.
(** [re.search(pattern, text, re.IGNORECASE)] finds a match. *)
Variable re_search_ignorecase : string -> string -> bool.

Definition _validate_input_sanitization : Validator := fun handler_results =>
  let acc :=
    fold_left
      (fun (acc : Q * list CrossStackIssue) '(handler_name, result) =>
         let has_sanitization :=
           existsb (fun content =>
                      existsb (fun pattern => re_search_ignorecase pattern content)
                        security_patterns)
             (Dict.values (code_files result)) in
         if negb has_sanitization
            && bool_decide (handler_name ∈ ["backend"; "frontend"])
         then ((acc.1 - 3)%Q,
               acc.2 ++
               [{| issue_type := "security_gap";
                   severity := "critical";
                   description :=
                     "No input sanitization patterns found in " +:+ handler_name;
                   affected_handlers := [handler_name];
                   suggested_fix := "Add input validation and sanitization" |}])
         else acc)
      handler_results (10%Q, []) in
  inr {| score := max0 acc.1; issues := acc.2 |}.

Definition _validate_authentication_security : Validator := fun handler_results =>
  match Dict.get "backend" handler_results with
  | Some backend_result =>
      let files := code_files backend_result in
      let has_bcrypt := mentions "bcrypt" files in
      let has_jwt := mentions "jwt" files || mentions "jsonwebtoken" files in
      let has_rate_limit :=
        existsb (fun content =>
                   PyStr.contains "rate" (PyStr.lower content)
                   && PyStr.contains "limit" (PyStr.lower content))
          (Dict.values files) in
      let acc : Q * list CrossStackIssue := (10%Q, []) in
      let acc :=
        if has_bcrypt then acc
        else ((acc.1 - 2)%Q,
              acc.2 ++
              [{| issue_type := "security_gap"; severity := "critical";
                  description := "No password hashing (bcrypt) found in backend";
                  affected_handlers := ["backend"];
                  suggested_fix := "Implement bcrypt for password hashing" |}]) in
      let acc :=
        if has_jwt then acc
        else ((acc.1 - 2)%Q,
              acc.2 ++
              [{| issue_type := "security_gap"; severity := "critical";
                  description := "No JWT implementation found in backend";
                  affected_handlers := ["backend"];
                  suggested_fix := "Implement JWT for authentication" |}]) in
      let acc :=
        if has_rate_limit then acc
        else ((acc.1 - 1)%Q,
              acc.2 ++
              [{| issue_type := "security_gap"; severity := "warning";
                  description := "No rate limiting found in backend";
                  affected_handlers := ["backend"];
                  suggested_fix := "Add rate limiting middleware" |}]) in
      inr {| score := max0 acc.1; issues := acc.2 |}
  | None => inr {| score := max0 10; issues := [] |}
  end.

(** The placeholder validators. *)
Definition placeholder : Validator :=
  fun _ => inr {| score := 8; issues := [] |}.

Record Rule := {
  rule_name : string;
  weight : Q;
  validators : list (string * Validator)
}.

(** [self.validation_rules], each validator with its [__name__]. *)
Definition validation_rules : list Rule :=
  [ {| rule_name := "contract_consistency"; weight := 3 # 10;
       validators :=
         [("_validate_api_consistency", _validate_api_consistency);
          ("_validate_data_model_consistency", _validate_data_model_consistency);
          ("_validate_authentication_consistency",
           _validate_authentication_consistency)] |};
    {| rule_name := "security_compliance"; weight := 25 # 100;
       validators :=
         [("_validate_input_sanitization", _validate_input_sanitization);
          ("_validate_authentication_security", _validate_authentication_security);
          ("_validate_authorization_patterns", placeholder);
          ("_validate_data_encryption", placeholder)] |};
    {| rule_name := "performance_standards"; weight := 2 # 10;
       validators :=
         [("_validate_database_efficiency", placeholder);
          ("_validate_api_response_patterns", placeholder);
          ("_validate_caching_strategies", placeholder)] |};
    {| rule_name := "code_quality"; weight := 15 # 100;
       validators :=
         [("_validate_error_handling", placeholder);
          ("_validate_logging_patterns", placeholder);
          ("_validate_code_structure", placeholder)] |};
    {| rule_name := "maintainability"; weight := 1 # 10;
       validators :=
         [("_validate_documentation", placeholder);
          ("_validate_naming_conventions", placeholder);
          ("_validate_testing_readiness", placeholder)] |} ].

(** The [try]/[except] around one validator: its score is added and
    its issues are appended, or a warning records the failure. *)
Definition run_validator (handler_results : HandlerResults)
    (acc : Q * list CrossStackIssue) (v : string * Validator)
    : Q * list CrossStackIssue :=
  match v.2 handler_results with
  | inr validator_result =>
      ((acc.1 + score validator_result)%Q, acc.2 ++ issues validator_result)
  | inl e =>
      (acc.1,
       acc.2 ++
       [{| issue_type := "validation_error"; severity := "warning";
           description := "Validator " +:+ v.1 +:+ " failed: " +:+ e;
           affected_handlers := Dict.keys handler_results;
           suggested_fix := "Review validator implementation" |}])
  end.

(** The part of a report the loop over the rules accumulates. *)
Record Progress := {
  total_cross_stack_score : Q;
  p_critical : list string;
  p_warnings : list string;
  p_recommendations : list string;
  cross_stack_issues : list CrossStackIssue
}.

Definition categorize (rule : string) (p : Progress) (issue : CrossStackIssue)
    : Progress :=
  let line := rule +:+ ": " +:+ description issue in
  if String.eqb (severity issue) "critical" then
    {| total_cross_stack_score := total_cross_stack_score p;
       p_critical := p_critical p ++ [line]; p_warnings := p_warnings p;
       p_recommendations := p_recommendations p;
       cross_stack_issues := cross_stack_issues p |}
  else if String.eqb (severity issue) "warning" then
    {| total_cross_stack_score := total_cross_stack_score p;
       p_critical := p_critical p; p_warnings := p_warnings p ++ [line];
       p_recommendations := p_recommendations p;
       cross_stack_issues := cross_stack_issues p |}
  else
    {| total_cross_stack_score := total_cross_stack_score p;
       p_critical := p_critical p; p_warnings := p_warnings p;
       p_recommendations := p_recommendations p ++ [line];
       cross_stack_issues := cross_stack_issues p |}.

(** The body of [for rule_name, rule_config in self.validation_rules.items()]. *)
Definition run_rule (handler_results : HandlerResults) (p : Progress)
    (rule : Rule) : Progress :=
  let '(rule_score, rule_issues) :=
    fold_left (run_validator handler_results) (validators rule) (0%Q, []) in
  let avg_rule_score := Qdiv_nat rule_score (length (validators rule)) in
  let weighted_score := (avg_rule_score * weight rule)%Q in
  let p :=
    {| total_cross_stack_score := (total_cross_stack_score p + weighted_score)%Q;
       p_critical := p_critical p; p_warnings := p_warnings p;
       p_recommendations := p_recommendations p;
       cross_stack_issues := cross_stack_issues p |} in
  let p := fold_left (categorize (rule_name rule)) rule_issues p in
  {| total_cross_stack_score := total_cross_stack_score p;
     p_critical := p_critical p; p_warnings := p_warnings p;
     p_recommendations := p_recommendations p;
     cross_stack_issues := cross_stack_issues p ++ rule_issues |}.

Definition _assess_cross_stack_quality (handler_results : HandlerResults)
    : QualityReport :=
  let handler_scores :=
    fold_left (fun acc '(handler_name, result) =>
                 Dict.set handler_name (quality_score result) acc)
      handler_results ([] : Dict.t string Q) in
  let total_handler_score :=
    fold_left (fun acc '(_, result) => (acc + quality_score result)%Q)
      handler_results 0%Q in
  let average_handler_score :=
    match handler_results with
    | [] => 0%Q
    | _ => Qdiv_nat total_handler_score (length handler_results)
    end in
  let p :=
    fold_left (run_rule handler_results) validation_rules
      {| total_cross_stack_score := 0; p_critical := []; p_warnings := [];
         p_recommendations := []; cross_stack_issues := [] |} in
  let cross_stack_score := (total_cross_stack_score p * 10)%Q in
  let overall_score :=
    (average_handler_score * (6 # 10) + cross_stack_score * (4 # 10))%Q in
  {| overall_score := overall_score;
     handler_scores := handler_scores;
     cross_stack_score := cross_stack_score;
     critical_issues := p_critical p;
     warnings := p_warnings p;
     recommendations := p_recommendations p;
     metrics :=
       {| handlers_validated := length handler_results;
          cross_stack_rules_checked := length validation_rules;
          total_issues_found := length (cross_stack_issues p);
          critical_issues_count := length (p_critical p);
          warnings_count := length (p_warnings p);
          recommendations_count := length (p_recommendations p);
          handler_average_score := average_handler_score;
          cross_stack_weighted_score := cross_stack_score |};
     refinement_cycles := 0 |}.

(** [self.max_refinement_cycles] of the coordinator. *)
Definition max_refinement_cycles : nat := 5.

(** [quality_report.critical_issues[:3]] *)
Definition _prioritize_issues (quality_report : QualityReport) : list string :=
  take 3 (critical_issues quality_report).

(** [_apply_coordinated_improvements] returns the results it is
    given. *)
Definition _apply_coordinated_improvements (handler_results : HandlerResults)
    (priority_issues : list string) (cycle : nat) : HandlerResults :=
  handler_results.

Definition with_refinement_cycles (n : nat) (r : QualityReport) : QualityReport :=
  {| overall_score := overall_score r; handler_scores := handler_scores r;
     cross_stack_score := cross_stack_score r;
     critical_issues := critical_issues r; warnings := warnings r;
     recommendations := recommendations r; metrics := metrics r;
     refinement_cycles := n |}.

(** [report.recommendations.append(line)] *)
Definition with_recommendation (line : string) (r : QualityReport)
    : QualityReport :=
  {| overall_score := overall_score r; handler_scores := handler_scores r;
     cross_stack_score := cross_stack_score r;
     critical_issues := critical_issues r; warnings := warnings r;
     recommendations := recommendations r ++ [line]; metrics := metrics r;
     refinement_cycles := refinement_cycles r |}.

(** The event a refinement cycle publishes, and the channel after
    it. *)
Definition publish_cycle (cycle : nat) (report : QualityReport)
    (target_quality : Q) (issues_resolved : nat) (bus : Bus) : Bus :=
  (EventBus.publish "quality_refinement_cycle"
     (QualityRefinementCycle cycle (overall_score report) target_quality
        issues_resolved (length (critical_issues report)))
     "quality_coordinator" None bus).1.1.

(** The [for cycle in range(1, self.max_refinement_cycles + 1)] loop
    of [validate_and_refine]; [cycle] cycles are done and [remaining]
    are left. *)
Fixpoint refine_cycles (remaining cycle : nat) (current_results : HandlerResults)
    (current_report : QualityReport) (target_quality : Q) (bus : Bus)
    : QualityReport * Bus :=
  match remaining with
  | O => (current_report, bus)
  | S remaining' =>
      let cycle := S cycle in
      let priority_issues := _prioritize_issues current_report in
      let improved_results :=
        _apply_coordinated_improvements current_results priority_issues cycle in
      let current_report :=
        with_refinement_cycles cycle
          (_assess_cross_stack_quality improved_results) in
      let current_results := improved_results in
      let bus :=
        publish_cycle cycle current_report target_quality
          (length priority_issues) bus in
      if Qle_bool target_quality (overall_score current_report)
      then (current_report, bus)
      else refine_cycles remaining' cycle current_results current_report
             target_quality bus
  end.

(** How an f-string prints a score. *)
Variable format_score : Q -> string.

Definition human_review (report : QualityReport) : string :=
  "Consider human review - automated refinement reached "
  +:+ format_score (overall_score report) +:+ "/10".

Definition validate_and_refine (handler_results : HandlerResults)
    (target_quality : Q) (bus : Bus) : QualityReport * Bus :=
  let initial_report := _assess_cross_stack_quality handler_results in
  if Qle_bool target_quality (overall_score initial_report)
  then (initial_report, bus)
  else
    let '(current_report, bus) :=
      refine_cycles max_refinement_cycles 0 handler_results initial_report
        target_quality bus in
    let current_report :=
      if Qltb (overall_score current_report) target_quality
      then with_recommendation (human_review current_report) current_report
      else current_report in
    (current_report, bus).

(** The score a checker adds to its category: its own, or nothing when
    it raises. *)
Definition checker_score (handler_results : HandlerResults)
    (v : string * Validator) : Q :=
  match v.2 handler_results with
  | inr r => score r
  | inl _ => 0%Q
  end.

(** The mean score of a category, and the weighted sum of the five
    category means. *)
Definition category_mean (handler_results : HandlerResults) (rule : Rule) : Q :=
  Qdiv_nat
    (foldr (fun v acc => (checker_score handler_results v + acc)%Q) 0%Q
       (validators rule))
    (length (validators rule)).

Definition weighted_category_sum (handler_results : HandlerResults) : Q :=
  foldr (fun rule acc => (weight rule * category_mean handler_results rule + acc)%Q)
    0%Q validation_rules.

(** The mean of the handlers' own scores. *)
Definition mean_handler_score (handler_results : HandlerResults) : Q :=
  match handler_results with
  | [] => 0%Q
  | _ =>
      Qdiv_nat
        (foldr (fun hr acc => (quality_score hr.2 + acc)%Q) 0%Q handler_results)
        (length handler_results)
  end.
End WithEngine.

(** Inputs of the examples. *)
Definition result_with (c : Contracts) : HandlerResult :=
  {| success := true; handler_type := "handler"; features_implemented := [];
     code_files := []; contracts := c; quality_score := 9; tokens_used := 0;
     error_message := None; Results.refinement_cycles := 0 |}.

Definition users_backend : HandlerResult :=
  result_with [("api_endpoints", [[("method", "GET"); ("path", "/api/users")]])].

Definition other_frontend : HandlerResult :=
  result_with [("api_calls", [[("endpoint", "/api/other")]])].

Definition users_vs_other : HandlerResults :=
  [("backend", users_backend); ("frontend", other_frontend)].

End QualityCoordinator.

(* ===================================================================== *)
(** * Part II: properties                                                 *)
(* ===================================================================== *)

(** ** Dictionaries *)
Section DictFacts.
Context {K : Type} `{EqDecision K} {V : Type}.
Implicit Types (d e : list (K * V)) (k : K) (v : V).

Lemma dict_get_None d k : Dict.get k d = None ↔ k ∉ Dict.keys d.
Proof.
  induction d as [|[k' v'] d IH]; simpl.
  - split; [intros _; apply not_elem_of_nil | done].
  - rewrite not_elem_of_cons. destruct (decide (k = k')) as [->|Hne].
    + split; [done | intros [? _]; done].
    + rewrite IH. tauto.
Qed.

Lemma dict_set_fresh d k v : k ∉ Dict.keys d → Dict.set k v d = d ++ [(k, v)].
Proof.
  induction d as [|[k' v'] d IH]; simpl; [done|].
  rewrite not_elem_of_cons. intros [Hne Hnin].
  destruct (decide (k = k')); [done|]. by rewrite IH.
Qed.

Lemma dict_set_same d k v : Dict.get k d = Some v → Dict.set k v d = d.
Proof.
  induction d as [|[k' v'] d IH]; simpl; [done|].
  destruct (decide (k = k')) as [->|Hne].
  - by intros [= ->].
  - intros Hg. by rewrite IH.
Qed.

Lemma dict_keys_set d k v :
  Dict.keys (Dict.set k v d)
  = if decide (k ∈ Dict.keys d) then Dict.keys d else Dict.keys d ++ [k].
Proof.
  unfold Dict.keys. induction d as [|[k' v'] d IH]; csimpl.
  - destruct (decide (k ∈ [])) as [Hin|]; [by apply elem_of_nil in Hin | done].
  - destruct (decide (k = k')) as [->|Hne]; csimpl.
    + destruct (decide (k' ∈ k' :: d.*1)) as [|Hnin]; [done|].
      exfalso. apply Hnin, elem_of_cons. by left.
    + rewrite IH.
      destruct (decide (k ∈ d.*1)) as [Hin|Hnin];
        destruct (decide (k ∈ k' :: d.*1)) as [Hin'|Hnin']; try done.
      * exfalso. apply Hnin', elem_of_cons. by right.
      * apply elem_of_cons in Hin' as [?|?]; done.
Qed.



Lemma dict_elem_get_NoDup d k v :
  NoDup (Dict.keys d) → (k, v) ∈ d → Dict.get k d = Some v.
Proof.
  unfold Dict.keys. induction d as [|[k' v'] d IH]; csimpl.
  - intros _ Hin. by apply elem_of_nil in Hin.
  - intros Hnd Hin. apply NoDup_cons in Hnd as [Hk' Hnd].
    apply elem_of_cons in Hin as [[= -> ->]|Hin].
    + by rewrite decide_True.
    + destruct (decide (k = k')) as [->|Hne]; [|by apply IH].
      exfalso. apply Hk', list_elem_of_fmap. by exists (k', v).
Qed.

Lemma dict_get_set_eq d k v :
  Dict.get k (Dict.set k v d) = Some v.
Proof.
  induction d as [|[k' v'] d IH]; simpl.
  - by rewrite decide_True.
  - destruct (decide (k = k')) as [->|Hne]; simpl.
    + by rewrite decide_True.
    + by rewrite decide_False.
Qed.

Lemma dict_get_set_ne d k k' v :
  k ≠ k' → Dict.get k' (Dict.set k v d) = Dict.get k' d.
Proof.
  intros Hne. induction d as [|[k1 v1] d IH]; simpl.
  - by rewrite decide_False.
  - destruct (decide (k = k1)) as [->|Hne1]; simpl.
    + by rewrite !decide_False.
    + by rewrite IH.
Qed.

Lemma dict_set_NoDup d k v : NoDup (Dict.keys d) → NoDup (Dict.keys (Dict.set k v d)).
Proof.
  intros Hd. rewrite dict_keys_set. case_decide; [done|].
  apply NoDup_app. split_and!; [done | | apply NoDup_singleton].
  intros x Hx Hk. apply list_elem_of_singleton in Hk. by subst.
Qed.

End DictFacts.

Section DictKeySets.
Context `{Countable K} {V : Type}.
Implicit Types (d : list (K * V)).



End DictKeySets.

(** ** The contract registry *)
Section RegistryFacts.
Import ContractRegistry.









End RegistryFacts.

(** ** Cycle detection in the contract registry *)
Section CycleFacts.
Import ContractRegistry.
Implicit Types (graph : Dict.t string (gset string)) (visited : gset string).














End CycleFacts.

(** ** The event channel *)
Section EventBusFacts.
Import EventBus.
Context {Data : Type}.
Implicit Types (b : HandlerEventBus Data) (op : Op Data) (et : string).

Lemma subscribers_of_subscribe b et et' cb :
  subscribers_of et' (subscribe et cb b)
  = if decide (et = et') then subscribers_of et' b ++ [cb] else subscribers_of et' b.
Proof.
  unfold subscribers_of. simpl. case_decide as Heq.
  - subst. by rewrite dict_get_set_eq.
  - by rewrite dict_get_set_ne.
Qed.

Lemma subscribers_publish b et payload src c :
  subscribers (publish et payload src c b).1.1 = subscribers b.
Proof. unfold publish. by destruct (truthy c). Qed.

Lemma subscribers_of_wait_for_event b et et' :
  subscribers_of et' (wait_for_event et b).2
  = if decide (et = et') then subscribers_of et' b ++ [Waiter (wait_for_event et b).1]
    else subscribers_of et' b.
Proof. apply (subscribers_of_subscribe b et et'). Qed.

(** Every step keeps the subscribers of every event type, in order, and
    can only add to them. *)
Lemma step_subscribers_prefix b op et :
  subscribers_of et b `prefix_of` subscribers_of et (step b op).
Proof.
  destruct op as [et' cb|et' payload src c|et' timeout|f timeout]; unfold step.
  - rewrite subscribers_of_subscribe. case_decide; [by apply prefix_app_r | done].
  - unfold subscribers_of. by rewrite subscribers_publish.
  - rewrite subscribers_of_wait_for_event. case_decide; [by apply prefix_app_r | done].
  - done.
Qed.

Lemma run_subscribers_prefix ops b et :
  subscribers_of et b `prefix_of` subscribers_of et (run ops b).
Proof.
  revert b. induction ops as [|op ops IH]; intros b; [done|].
  simpl. etrans; [apply step_subscribers_prefix | apply IH].
Qed.

Lemma run_app ops1 ops2 b : run (ops1 ++ ops2) b = run ops2 (run ops1 b).
Proof. unfold run. apply fold_left_app. Qed.

(** C10: no operation of the channel removes a subscriber. Along every
    sequence of [subscribe], [publish] and [wait_for_event] calls and
    timer expirations, the subscriber list of each event type only
    grows; [wait_for_event] adds exactly one subscriber for its event
    type, and every later [publish] of that type invokes that
    subscriber, whatever has happened to the wait in between. *)
Theorem subscribers_never_removed :
  (∀ b (ops1 ops2 : list (Op Data)) et,
      length (subscribers_of et (run ops1 b))
      ≤ length (subscribers_of et (run (ops1 ++ ops2) b)))
  ∧ (∀ b et,
      subscribers_of et (wait_for_event et b).2
      = subscribers_of et b ++ [Waiter (wait_for_event et b).1])
  ∧ (∀ b et (ops : list (Op Data)) payload src c,
      Waiter (wait_for_event et b).1
      ∈ (publish et payload src c (run ops (wait_for_event et b).2)).2).
Proof.
  split_and!.
  - intros b ops1 ops2 et. rewrite run_app.
    apply prefix_length, run_subscribers_prefix.
  - intros b et. rewrite subscribers_of_wait_for_event. by rewrite decide_True.
  - intros b et ops payload src c.
    assert ((publish et payload src c (run ops (wait_for_event et b).2)).2
            = subscribers_of et (run ops (wait_for_event et b).2)) as ->.
    { unfold publish. by destruct (truthy c). }
    destruct (run_subscribers_prefix ops (wait_for_event et b).2 et) as [rest ->].
    rewrite subscribers_of_wait_for_event, decide_True by done.
    set_solver.
Qed.
End EventBusFacts.

(** ** Scores *)
Section ScoreFacts.
Import Results.

Lemma Qltb_lt (a b : Q) : Qltb a b = true ↔ (a < b)%Q.
Proof.
  unfold Qltb. rewrite negb_true_iff. split.
  - intros Hle. apply Qnot_le_lt. intros Hba.
    apply Qle_bool_iff in Hba. congruence.
  - intros Hlt. destruct (Qle_bool b a) eqn:Hle; [|done].
    apply Qle_bool_iff in Hle. exfalso. by apply (Qlt_not_le a b).
Qed.

Lemma max0_nonneg (a : Q) : (0 <= max0 a)%Q.
Proof.
  unfold max0. destruct (Qltb 0 a) eqn:Hlt; [|apply Qle_refl].
  apply Qltb_lt in Hlt. by apply Qlt_le_weak.
Qed.

Lemma max0_le (a b : Q) : (0 <= b)%Q → (a <= b)%Q → (max0 a <= b)%Q.
Proof. intros Hb Hab. unfold max0. by destruct (Qltb 0 a). Qed.
End ScoreFacts.

(** ** Context chunks *)
Section ChunkFacts.
Import BaseHandler.

(** C4, on the code: with the default limit of 150000 tokens and three
    critical chunks of 100000 tokens each, the total exceeds the limit,
    the second chunk is truncated and the loop stops there, so the third
    critical chunk is dropped. The same happens to the feature chunk of
    a prepared context whose architecture and contract chunks are
    large: it is critical and small, and it is dropped. *)
Theorem optimize_chunks_drops_critical_chunk :
  (max_tokens_per_request (default_config "node_backend")
     < total_tokens three_critical)%Z
  ∧ Forall (fun c => priority c = 1%Z) three_critical
  ∧ map chunk_id
      (_optimize_chunks_for_tokens
         (max_tokens_per_request (default_config "node_backend")) three_critical)
    = ["architecture"; "contracts"]
  ∧ map (fun c => (chunk_id c, priority c)) (sort_by_priority prepared_chunks)
    = [("architecture", 1%Z); ("contracts", 1%Z); ("features", 1%Z);
       ("history", 2%Z)]
  ∧ map chunk_id
      (_optimize_chunks_for_tokens
         (max_tokens_per_request (default_config "node_backend")) prepared_chunks)
    = ["architecture"; "contracts"].
Proof.
  split_and!; [done | repeat constructor | vm_compute; reflexivity
              | vm_compute; reflexivity | vm_compute; reflexivity].
Qed.
End ChunkFacts.

(** ** The component quality validator *)
Section ValidatorFacts.
Import Results BaseHandler NodeHandler.
Variable re_search : string -> string -> bool.

Lemma check_score_le failed penalty issue (acc : Q * list string) (bound : Q) :
  (0 <= penalty)%Q → (acc.1 <= bound)%Q →
  ((check failed penalty issue acc).1 <= bound)%Q.
Proof.
  intros Hp Hacc. unfold check. destruct failed; [|done]. simpl. lra.
Qed.

Lemma check_issues_incl failed penalty issue (acc : Q * list string) x :
  x ∈ acc.2 → x ∈ (check failed penalty issue acc).2.
Proof. intros Hx. unfold check. destruct failed; [|done]. simpl. set_solver. Qed.

(** A file that is not skipped and whose braces do not balance gets the
    bracket issue and loses the bracket penalty. *)
Lemma single_file_brace_mismatch file_path content :
  PyStr.endswith ".sql" file_path = false →
  PyStr.endswith ".env.example" file_path = false →
  PyStr.count_char "{" content ≠ PyStr.count_char "}" content →
  let fs := _validate_single_file_quality re_search file_path content in
  ("CRITICAL: Bracket mismatch in " +:+ file_path) ∈ issues fs
  ∧ (score fs <= 8)%Q.
Proof.
  intros Hsql Henv Hcount fs. subst fs. unfold _validate_single_file_quality.
  rewrite Hsql, Henv. cbn [orb score issues].
  apply Nat.eqb_neq in Hcount. rewrite Hcount. cbn [negb].
  match goal with
  | |- context [check true 2 ?i ?acc] => set (before := acc)
  end.
  assert (before.1 <= 10)%Q as Hbefore.
  { subst before. repeat (apply check_score_le; [done|]). done. }
  change (check true 2 ("CRITICAL: Bracket mismatch in " +:+ file_path) before)
    with ((before.1 - 2)%Q,
          before.2 ++ ["CRITICAL: Bracket mismatch in " +:+ file_path]).
  cbn [fst snd]. split.
  - set_solver.
  - apply max0_le; [done | lra].
Qed.

(** A skipped file keeps the full score and gets no issue. *)
Lemma single_file_skipped file_path content :
  PyStr.endswith ".sql" file_path || PyStr.endswith ".env.example" file_path = true →
  _validate_single_file_quality re_search file_path content
  = {| score := 10; issues := []; file_path := file_path |}.
Proof. intros Hskip. unfold _validate_single_file_quality. by rewrite Hskip. Qed.

Lemma validate_single_file file_path content :
  let fs := _validate_single_file_quality re_search file_path content in
  let report := _validate_code_quality re_search [(file_path, content)] in
  file_scores report = [(file_path, fs)]
  ∧ report_issues report = issues fs
  ∧ (overall_score report == score fs)%Q.
Proof.
  intros fs report. subst report. unfold _validate_code_quality. simpl.
  fold fs. split_and!; [done | done |].
  unfold Qdiv_nat. simpl. field.
Qed.

Lemma critical_issues_count code_files :
  critical_issues (metrics (_validate_code_quality re_search code_files))
  = length (filter (fun i => PyStr.startswith "CRITICAL" i = true)
              (report_issues (_validate_code_quality re_search code_files))).
Proof.
  unfold _validate_code_quality.
  by destruct (validate_files re_search code_files) as [[? ?] ?].
Qed.

(** C8, amended: for a file map of one file whose path ends neither in
    [.sql] nor in [.env.example] and whose content has unequal counts of
    opening and closing braces, the validator records the
    CRITICAL-prefixed bracket issue for the file and gives the file, and
    so the file map, a score of at most 10 - 2 = 8. *)
Theorem brace_mismatch_is_critical file_path content :
  PyStr.endswith ".sql" file_path = false →
  PyStr.endswith ".env.example" file_path = false →
  PyStr.count_char "{" content ≠ PyStr.count_char "}" content →
  let report := _validate_code_quality re_search [(file_path, content)] in
  (∃ issue, issue ∈ report_issues report
            ∧ PyStr.startswith "CRITICAL" issue = true
            ∧ issue = "CRITICAL: Bracket mismatch in " +:+ file_path)
  ∧ (∃ fs, Dict.get file_path (file_scores report) = Some fs
           ∧ (score fs <= 8)%Q)
  ∧ (overall_score report <= 8)%Q
  ∧ 1 ≤ critical_issues (metrics report).
Proof.
  intros Hsql Henv Hcount report.
  destruct (validate_single_file file_path content) as (Hfs & Hissues & Hscore).
  destruct (single_file_brace_mismatch file_path content Hsql Henv Hcount)
    as (Hin & Hle).
  fold report in Hfs, Hissues, Hscore.
  split_and!.
  - exists ("CRITICAL: Bracket mismatch in " +:+ file_path).
    rewrite Hissues. done.
  - eexists. rewrite Hfs. simpl. rewrite decide_True by done. done.
  - by rewrite Hscore.
  - subst report. rewrite critical_issues_count.
    assert (("CRITICAL: Bracket mismatch in " +:+ file_path)
            ∈ filter (fun i => PyStr.startswith "CRITICAL" i = true)
                (report_issues (_validate_code_quality re_search
                                  [(file_path, content)]))) as Hfiltered.
    { apply list_elem_of_filter. rewrite Hissues. done. }
    destruct (filter _ (report_issues _)); [|simpl; lia].
    by apply elem_of_nil in Hfiltered.
Qed.

End ValidatorFacts.

Section ValidatorExamples.
Import Results BaseHandler NodeHandler.

(** C8, the claim as stated fails: a one-file map whose file is
    [schema.sql] with the content [{] has unbalanced braces, no issue at
    all and the full score 10. *)
Lemma brace_mismatch_in_sql_file_is_skipped :
  let report := _validate_code_quality no_match [("schema.sql", "{")] in
  PyStr.count_char "{" "{" ≠ PyStr.count_char "}" "{"
  ∧ report_issues report = []
  ∧ (overall_score report == 10)%Q
  ∧ (8 < overall_score report)%Q.
Proof. vm_compute. split_and!; [lia | done | done | done]. Qed.

Lemma brace_mismatch_is_critical_witness :
  let report := _validate_code_quality no_match [("src/app.js", "{")] in
  (∃ issue, issue ∈ report_issues report
            ∧ PyStr.startswith "CRITICAL" issue = true
            ∧ issue = "CRITICAL: Bracket mismatch in src/app.js")
  ∧ (∃ fs, Dict.get "src/app.js" (file_scores report) = Some fs
           ∧ (score fs <= 8)%Q)
  ∧ (overall_score report <= 8)%Q
  ∧ 1 ≤ critical_issues (metrics report).
Proof.
  apply (brace_mismatch_is_critical no_match "src/app.js" "{");
    [reflexivity | reflexivity | vm_compute; lia].
Defined.
End ValidatorExamples.

(** ** Parsing the oracle's response *)
Section ParseFacts.
Import Results BaseHandler NodeHandler.
Variable json_loads : string -> option json.
Variable findall_file_pattern : string -> list (string * string).

Lemma dict_update_NoDup {V} (d e : list (string * V)) :
  NoDup (Dict.keys d) → NoDup (Dict.keys (Dict.update d e)).
Proof.
  revert d. unfold Dict.update.
  induction e as [|[k v] e IH]; intros d Hd; simpl; [done|].
  apply IH. by apply dict_set_NoDup.
Qed.

(** Merging a file map over itself changes nothing. *)
Lemma dict_update_same {V} (d e : list (string * V)) :
  (∀ k v, (k, v) ∈ e → Dict.get k d = Some v) → Dict.update d e = d.
Proof.
  unfold Dict.update. induction e as [|[k v] e IH]; intros He; simpl; [done|].
  rewrite dict_set_same.
  - apply IH. intros k' v' Hin. apply He. apply elem_of_cons. by right.
  - apply He. apply elem_of_cons. by left.
Qed.

Lemma dict_update_self {V} (d : list (string * V)) :
  NoDup (Dict.keys d) → Dict.update d d = d.
Proof. intros Hd. apply dict_update_same. intros k v. by apply dict_elem_get_NoDup. Qed.

Lemma as_file_map_NoDup parsed files :
  as_file_map parsed = Some files → NoDup (Dict.keys files).
Proof.
  destruct parsed as [| | | | |members]; try done. simpl. intros Hmap.
  assert (NoDup (Dict.keys (Dict.of_pairs members))) as Hnd
    by (apply dict_update_NoDup; constructor).
  apply mapM_Some in Hmap. revert Hnd. unfold Dict.keys.
  assert (files.*1 = (Dict.of_pairs members).*1) as ->; [|done].
  induction Hmap as [|[k j] [k' s] l l' Hhead _ IH]; [done|].
  csimpl. simpl in Hhead. destruct (as_string j); simplify_eq/=. by rewrite IH.
Qed.

Lemma keep_block_NoDup code_files m :
  NoDup (Dict.keys code_files) → NoDup (Dict.keys (keep_block code_files m)).
Proof.
  intros Hd. unfold keep_block. destruct (clean_block m) as [p c].
  case_match; [by apply dict_set_NoDup | done].
Qed.

Lemma basic_structure_NoDup : NoDup (Dict.keys basic_structure).
Proof. vm_compute. repeat constructor; set_solver. Qed.

(** The text-block fallback never returns an empty file map. *)
Lemma fallback_nonempty response :
  _extract_code_blocks_fallback findall_file_pattern response ≠ [].
Proof.
  unfold _extract_code_blocks_fallback.
  destruct (fold_left keep_block _ _); [|done]. unfold basic_structure. done.
Qed.

Lemma fallback_NoDup response :
  NoDup (Dict.keys (_extract_code_blocks_fallback findall_file_pattern response)).
Proof.
  unfold _extract_code_blocks_fallback.
  assert (NoDup (Dict.keys (fold_left keep_block (findall_file_pattern response) [])))
    as Hnd.
  { generalize (findall_file_pattern response).
    assert (NoDup (Dict.keys ([] : CodeFiles))) as Hnil by constructor.
    revert Hnil. generalize ([] : CodeFiles).
    intros d Hd l. revert d Hd.
    induction l as [|m l IH]; intros d Hd; simpl; [done|].
    apply IH. by apply keep_block_NoDup. }
  destruct (fold_left keep_block _ _) eqn:Hfold; [apply basic_structure_NoDup | done].
Qed.

(** The parsed file map is a dictionary: no path occurs twice. *)
Lemma parse_NoDup response :
  NoDup (Dict.keys (_parse_node_response json_loads findall_file_pattern response)).
Proof.
  unfold _parse_node_response.
  repeat case_match; try apply fallback_NoDup. by eapply as_file_map_NoDup.
Qed.

(** Only the JSON path can return an empty file map. *)
Lemma parse_empty_only_from_json response :
  _parse_node_response json_loads findall_file_pattern response = [] →
  ∃ text parsed, json_loads text = Some parsed ∧ as_file_map parsed = Some [].
Proof.
  unfold _parse_node_response. intros Hempty.
  repeat case_match; try (by apply fallback_nonempty in Hempty).
  subst. eauto.
Qed.

End ParseFacts.

(** ** Counting the events of a type *)
Section CountFacts.
Import EventBus.
Context {Data : Type}.
Implicit Types (l : list (HandlerEvent Data)) (b : HandlerEventBus Data).

Lemma count_type_app et l1 l2 :
  count_type et (l1 ++ l2) = count_type et l1 + count_type et l2.
Proof. unfold count_type. by rewrite filter_app, length_app. Qed.

Lemma count_type_drop et n l : count_type et (drop n l) ≤ count_type et l.
Proof.
  rewrite <- (take_drop n l) at 2. rewrite count_type_app. lia.
Qed.

Lemma count_type_keep_last et n l : count_type et (keep_last n l) ≤ count_type et l.
Proof. destruct n; [done | apply count_type_drop]. Qed.

(** Recording an event of another type adds no event of type [et]. *)
Lemma count_type_record_other et b (ev : HandlerEvent Data) :
  event_type ev ≠ et →
  count_type et (record_event b ev) ≤ count_type et (event_history b).
Proof.
  intros Hne. unfold record_event.
  assert (count_type et (event_history b ++ [ev]) = count_type et (event_history b))
    as Hsame.
  { rewrite count_type_app. unfold count_type at 2. simpl.
    rewrite filter_cons_False by done. simpl. lia. }
  case_decide; [|lia].
  etrans; [apply count_type_keep_last | lia].
Qed.
End CountFacts.

(** ** The refinement loop of the Node.js handler *)
Section GenerateFacts.
Import Results BaseHandler NodeHandler.
Variable re_search : string -> string -> bool.
Variable json_loads : string -> option json.
Variable findall_file_pattern : string -> list (string * string).
Variable _extract_node_contracts : CodeFiles -> list string -> Contracts.

Local Abbreviation parse := (_parse_node_response json_loads findall_file_pattern).
Local Abbreviation validate := (_validate_code_quality re_search).
Local Abbreviation apply_improvements client :=
  (_apply_improvements re_search json_loads findall_file_pattern
     _extract_node_contracts client).
Local Abbreviation generate client :=
  (NodeHandler.generate_code re_search json_loads findall_file_pattern
     _extract_node_contracts client).

Lemma string_length_append (s1 s2 : string) :
  String.length (s1 +:+ s2) = String.length s1 + String.length s2.
Proof. induction s1 as [|c s1 IH]; simpl; [done | by rewrite IH]. Qed.

Lemma completed_is_not_failure (h : string) :
  h +:+ "_generation_completed" ≠ failure_type.
Proof.
  unfold failure_type. intros Heq.
  destruct h as [|c1 [|c2 [|c3 [|c4 [|c5 h]]]]]; simpl in Heq; try discriminate.
  apply (f_equal String.length) in Heq. simpl in Heq.
  rewrite string_length_append in Heq. simpl in Heq. lia.
Qed.

Lemma request_reply oracle calls text usage :
  oracle calls = Reply text usage →
  request_with_retry (Some oracle) calls = (inr (text, usage), S calls).
Proof. intros Hreply. unfold request_with_retry. simpl. by rewrite Hreply. Qed.

(** An oracle request that raises inside [_apply_improvements] is
    swallowed: the current result comes back unchanged. *)
Lemma apply_improvements_swallows client current target st e calls :
  request_with_retry client (oracle_calls st) = (inl e, calls) →
  apply_improvements client current target st
  = (inr current, with_oracle_calls calls st).
Proof.
  intros Hreq. unfold _apply_improvements, try_except, _claude_request_with_retry.
  unfold mbind, M_bind, bind. by rewrite Hreq.
Qed.

Lemma apply_improvements_reply client current target st text usage calls :
  request_with_retry client (oracle_calls st) = (inr (text, usage), calls) →
  apply_improvements client current target st
  = (inr {| success := true;
            Results.handler_type := node_handler_type;
            features_implemented := features_implemented current;
            code_files := Dict.update (code_files current) (parse text);
            contracts :=
              _extract_node_contracts
                (Dict.update (code_files current) (parse text))
                (features_implemented current);
            quality_score :=
              overall_score (validate (Dict.update (code_files current) (parse text)));
            tokens_used := (tokens_used current + usage_tokens usage)%Z;
            error_message := None;
            refinement_cycles := refinement_cycles current |},
     with_oracle_calls calls st).
Proof.
  intros Hreq. unfold _apply_improvements, try_except, _claude_request_with_retry.
  unfold mbind, M_bind, bind. by rewrite Hreq.
Qed.


(** What [publish] does to the state of a run: one event of the given
    type is recorded, nothing else is touched. *)
Lemma publish_effect et payload src cid st :
  ∃ ev b,
    BaseHandler.publish et payload src cid st = (inr tt, with_events b st)
    ∧ EventBus.event_type ev = et
    ∧ EventBus.data ev = payload
    ∧ EventBus.event_history b = EventBus.record_event (events st) ev
    ∧ EventBus.max_history_size b = EventBus.max_history_size (events st).
Proof.
  unfold BaseHandler.publish, EventBus.publish.
  destruct (EventBus.truthy (Some cid)); simpl;
    eexists _, _; (split; [reflexivity|]); simpl;
    (split; [|split; [|split; [reflexivity|reflexivity]]]); reflexivity.
Qed.

Lemma create_correlation_id_effect st :
  ∃ cid b,
    BaseHandler.create_correlation_id st = (inr cid, with_events b st)
    ∧ EventBus.event_history b = EventBus.event_history (events st)
    ∧ EventBus.max_history_size b = EventBus.max_history_size (events st).
Proof. unfold BaseHandler.create_correlation_id. simpl. eauto. Qed.


Lemma publish_other_no_failure et payload src cid st :
  et ≠ failure_type →
  ∃ st', BaseHandler.publish et payload src cid st = (inr tt, st')
         ∧ failures st' ≤ failures st
         ∧ oracle_calls st' = oracle_calls st.
Proof.
  intros Hne.
  destruct (publish_effect et payload src cid st) as (ev & b & -> & Het & _ & Hh & _).
  eexists. split_and!; [done | | done].
  unfold failures. simpl. rewrite Hh.
  apply count_type_record_other. by rewrite Het.
Qed.

Section Loop.
Variable client : option Oracle.
Variable cfg : Config.


(** With an oracle that always answers with the same text, every
    cycle merges the same file map over itself, so the score never
    moves and the loop uses up its budget. *)
Lemma refine_loop_constant oracle text remaining cycle current target cid st :
  client = Some oracle →
  (∀ n, ∃ usage, oracle n = Reply text usage) →
  Qltb (overall_score (validate (parse text))) target = true →
  success current = true →
  code_files current = parse text →
  quality_score current = overall_score (validate (parse text)) →
  refinement_cycles current = cycle →
  ∃ r st',
    refine_loop cfg (apply_improvements client) remaining cycle current target cid st
    = (inr r, st')
    ∧ success r = true
    ∧ code_files r = parse text
    ∧ quality_score r = overall_score (validate (parse text))
    ∧ refinement_cycles r = cycle + remaining
    ∧ oracle_calls st' = oracle_calls st + remaining
    ∧ failures st' ≤ failures st.
Proof.
  intros -> Horacle Hlow. revert cycle current st.
  induction remaining as [|remaining IH];
    intros cycle current st Hok Hfiles Hscore Hcycles; simpl.
  - exists current, st. split_and!; try done; lia.
  - rewrite Hscore, Hlow. unfold mbind, M_bind, bind.
    destruct (Horacle (oracle_calls st)) as [usage Hreply].
    rewrite (apply_improvements_reply _ _ _ _ _ _ _
               (request_reply _ _ _ _ Hreply)).
    rewrite Hfiles, dict_update_self by apply parse_NoDup.
    match goal with
    | |- context [publish ?et ?p ?src cid ?s] =>
        destruct (publish_other_no_failure et p src cid s ltac:(done))
          as (st2 & -> & Hf2 & Hc2)
    end.
    match goal with
    | |- context [refine_loop _ _ remaining (S cycle) ?c target cid st2] =>
        destruct (IH (S cycle) c st2) as (r & st3 & -> & Hr & Hrf & Hrs & Hrc & Hcalls & Hf3);
          try done
    end.
    exists r, st3. split_and!; try done.
    + lia.
    + rewrite Hcalls, Hc2. simpl. lia.
    + unfold failures in *. simpl in Hf2. lia.
Qed.
End Loop.

(** A run against an oracle that always answers with the same text whose
    file map scores below the target. *)
Lemma constant_oracle_run oracle cfg features target st text :
  (∀ n, ∃ usage, oracle n = Reply text usage) →
  (overall_score (validate (parse text)) < target)%Q →
  ∃ r st',
    generate (Some oracle) cfg features target st = (inr r, st')
    ∧ success r = true
    ∧ refinement_cycles r = max_refinement_cycles cfg
    ∧ code_files r = parse text
    ∧ quality_score r = overall_score (validate (parse text))
    ∧ oracle_calls st' = oracle_calls st + 1 + max_refinement_cycles cfg
    ∧ failures st' ≤ failures st.
Proof.
  intros Horacle Hlow. apply Qltb_lt in Hlow.
  unfold NodeHandler.generate_code, BaseHandler.generate_code.
  unfold mbind, M_bind, bind, try_except.
  destruct (create_correlation_id_effect st) as (cid & b & -> & Hh & Hm).
  unfold _generate_with_chunked_context, _claude_request_with_retry.
  unfold mbind, M_bind, bind, mret, M_ret, ret.
  destruct (Horacle (oracle_calls st)) as [usage Hreply].
  cbn [oracle_calls with_events].
  rewrite (request_reply _ _ _ _ Hreply). cbn [fst snd quality_score].
  rewrite Hlow. unfold _refine_until_quality_met.
  match goal with
  | |- context [refine_loop _ _ _ 0 ?c target cid ?s] =>
      destruct (refine_loop_constant (Some oracle) cfg oracle text
                  (max_refinement_cycles cfg) 0 c target cid s)
        as (r & st3 & -> & Hr & Hrf & Hrs & Hrc & Hcalls & Hf3); try done
  end.
  unfold _finalize_generation.
  match goal with
  | |- context [publish ?et ?p ?src cid ?s] =>
      destruct (publish_other_no_failure et p src cid s
                  (completed_is_not_failure _))
        as (st4 & -> & Hf4 & Hc4)
  end.
  exists r, st4. split_and!; try done.
  - rewrite Hc4. simpl. rewrite Hcalls. simpl. lia.
  - unfold failures in *. simpl in *. rewrite Hh in Hf3. lia.
Qed.




(** C9, on the code: the text [{}] is a JSON object that maps every key
    to a string, so [_parse_node_response] returns it as the file map
    without trying a fallback, and the file map is empty; a run against
    an oracle that always answers [{}] returns a success result that
    carries no file. *)
Theorem parse_empty_object_gives_no_files :
  json_loads "{}" = Some (JObject []) →
  _parse_node_response json_loads findall_file_pattern "{}" = []
  ∧ ∀ oracle cfg features target st,
      (∀ n, ∃ usage, oracle n = Reply "{}" usage) →
      (0 < target)%Q →
      ∃ r st',
        NodeHandler.generate_code re_search json_loads findall_file_pattern
          _extract_node_contracts (Some oracle) cfg features target st
        = (inr r, st')
        ∧ success r = true
        ∧ code_files r = [].
Proof.
  intros Hloads.
  assert (parse "{}" = []) as Hparse.
  { unfold _parse_node_response.
    change (PyStr.strip "{}") with "{}".
    change (PyStr.find "{" "{}") with 0%Z.
    change (PyStr.rfind "}" "{}" + 1)%Z with 2%Z.
    change (PyStr.slice "{}" 0 2) with "{}".
    cbn [Z.eqb negb andb Z.ltb Z.compare]. rewrite Hloads. reflexivity. }
  split; [done|].
  intros oracle cfg features target st Horacle Htarget.
  destruct (constant_oracle_run oracle cfg features target st "{}" Horacle)
    as (r & st' & Hrun & Hok & _ & Hfiles & _).
  { rewrite Hparse. done. }
  exists r, st'. rewrite Hparse in Hfiles. done.
Qed.
End GenerateFacts.

Section GenerateExamples.
Import Results BaseHandler NodeHandler.

Local Abbreviation run oracle :=
  (NodeHandler.generate_code no_match loads_empty_object no_blocks no_contracts
     (Some oracle) node_config ["users"] 8 initial_state).




Lemma parse_empty_object_gives_no_files_witness :
  _parse_node_response loads_empty_object no_blocks "{}" = []
  ∧ ∃ r st',
      run always_empty_object = (inr r, st')
      ∧ success r = true
      ∧ code_files r = [].
Proof.
  destruct (parse_empty_object_gives_no_files
              no_match loads_empty_object no_blocks no_contracts eq_refl)
    as [Hparse Hrun].
  split; [exact Hparse|].
  apply (Hrun always_empty_object node_config ["users"] 8%Q initial_state).
  - intros n. by exists None.
  - reflexivity.
Defined.
End GenerateExamples.

(** ** The cross-stack quality coordinator *)
Section CoordinatorFacts.
Import Results QualityCoordinator.

(** C6: when the backend result declares exactly the endpoint
    [GET /api/users] and the only call target the frontend result
    declares is [/api/other], [_validate_api_consistency] returns
    exactly two issues: one of critical severity that names
    [/api/other], a frontend call without a backend endpoint, and one of
    warning severity that names [GET /api/users], a backend endpoint
    without a frontend caller. *)
Theorem api_consistency_reports_both_mismatches
    (handler_results : HandlerResults) (backend frontend : HandlerResult)
    (endpoint call : Declaration) :
  Dict.get "backend" handler_results = Some backend →
  Dict.get "frontend" handler_results = Some frontend →
  declared "api_endpoints" (contracts backend) = [endpoint] →
  Dict.get "method" endpoint = Some "GET" →
  Dict.get "path" endpoint = Some "/api/users" →
  declared "api_calls" (contracts frontend) = [call] →
  Dict.get "endpoint" call = Some "/api/other" →
  ∃ critical warning,
    _validate_api_consistency handler_results
    = inr {| score := 6; issues := [critical; warning] |}
    ∧ severity critical = "critical"
    ∧ description critical
      = "Frontend calls missing backend endpoints: ['/api/other']"
    ∧ severity warning = "warning"
    ∧ description warning
      = "Backend endpoints not used by frontend: ['GET /api/users']".
Proof.
  intros Hb Hf Heps Hm Hp Hcalls He.
  unfold _validate_api_consistency. rewrite Hb, Hf, Heps, Hcalls.
  unfold backend_endpoint_set, item, get_set. rewrite Hm, Hp. simpl. rewrite He.
  eexists _, _. split; [vm_compute; reflexivity|]. done.
Qed.

Lemma api_consistency_reports_both_mismatches_witness :
  ∃ critical warning,
    _validate_api_consistency users_vs_other
    = inr {| score := 6; issues := [critical; warning] |}
    ∧ severity critical = "critical"
    ∧ description critical
      = "Frontend calls missing backend endpoints: ['/api/other']"
    ∧ severity warning = "warning"
    ∧ description warning
      = "Backend endpoints not used by frontend: ['GET /api/users']".
Proof.
  apply (api_consistency_reports_both_mismatches users_vs_other
           users_backend other_frontend
           [("method", "GET"); ("path", "/api/users")]
           [("endpoint", "/api/other")]); reflexivity.
Defined.

Section Assessment.
Variable re_search_ignorecase : string -> string -> bool.
Implicit Types (handler_results : HandlerResults).

Local Abbreviation assess := (_assess_cross_stack_quality re_search_ignorecase).
Local Abbreviation rules := (validation_rules re_search_ignorecase).

(** The score a category accumulates is the sum of its checkers'
    scores. *)
Lemma run_validators_score handler_results vs (acc : Q * list CrossStackIssue) :
  ((fold_left (run_validator handler_results) vs acc).1
   == acc.1 + foldr (fun v s => checker_score handler_results v + s) 0 vs)%Q.
Proof.
  revert acc. induction vs as [|v vs IH]; intros acc; simpl.
  - ring.
  - rewrite IH. unfold run_validator, checker_score.
    destruct (v.2 handler_results); simpl; ring.
Qed.

Lemma categorize_total rule issues p :
  total_cross_stack_score (fold_left (categorize rule) issues p)
  = total_cross_stack_score p.
Proof.
  revert p. induction issues as [|i issues IH]; intros p; simpl; [done|].
  rewrite IH. unfold categorize. by repeat case_match.
Qed.

Lemma run_rule_total handler_results p rule :
  (total_cross_stack_score (run_rule handler_results p rule)
   == total_cross_stack_score p
      + weight rule * category_mean handler_results rule)%Q.
Proof.
  unfold run_rule, category_mean.
  pose proof (run_validators_score handler_results (validators rule) (0%Q, []))
    as Hscore.
  destruct (fold_left (run_validator handler_results) (validators rule) (0%Q, []))
    as [rule_score rule_issues].
  cbn [total_cross_stack_score]. rewrite categorize_total.
  cbn [total_cross_stack_score fst] in *. unfold Qdiv_nat, Qdiv.
  rewrite Hscore. ring.
Qed.

Lemma run_rules_total handler_results (rs : list Rule) p :
  (total_cross_stack_score (fold_left (run_rule handler_results) rs p)
   == total_cross_stack_score p
      + foldr (fun rule acc =>
                 weight rule * category_mean handler_results rule + acc) 0 rs)%Q.
Proof.
  revert p. induction rs as [|rule rs IH]; intros p; simpl.
  - ring.
  - rewrite IH, run_rule_total. ring.
Qed.

Lemma sum_handler_scores handler_results (acc : Q) :
  (fold_left (fun acc '(_, result) => acc + quality_score result)
     handler_results acc
   == acc + foldr (fun hr s => quality_score hr.2 + s) 0 handler_results)%Q.
Proof.
  revert acc. induction handler_results as [|[h r] l IH]; intros acc; simpl.
  - ring.
  - rewrite IH. ring.
Qed.

(** The two score fields of a report, as the code computes them. *)
Lemma cross_stack_score_assess handler_results :
  cross_stack_score (assess handler_results)
  = (total_cross_stack_score
       (fold_left (run_rule handler_results) rules
          {| total_cross_stack_score := 0; p_critical := []; p_warnings := [];
             p_recommendations := []; cross_stack_issues := [] |}) * 10)%Q.
Proof. reflexivity. Qed.

Lemma overall_score_assess handler_results :
  overall_score (assess handler_results)
  = (match handler_results with
     | [] => 0
     | _ =>
         Qdiv_nat
           (fold_left (fun acc '(_, result) => acc + quality_score result)
              handler_results 0)
           (length handler_results)
     end * (6 # 10)
     + cross_stack_score (assess handler_results) * (4 # 10))%Q.
Proof. reflexivity. Qed.

Lemma total_is_weighted_category_sum handler_results p :
  total_cross_stack_score p = 0%Q →
  (total_cross_stack_score (fold_left (run_rule handler_results) rules p)
   == weighted_category_sum re_search_ignorecase handler_results)%Q.
Proof.
  intros Hzero. rewrite run_rules_total, Hzero. unfold weighted_category_sum.
  generalize (foldr (fun rule acc =>
                       weight rule * category_mean handler_results rule + acc)%Q
                0%Q rules).
  intros total. ring.
Qed.

(** The report's cross-stack score is ten times the weighted sum of
    the category means, and its overall score combines it with the
    mean of the handlers' scores. *)
Lemma assess_scores handler_results :
  (cross_stack_score (assess handler_results)
   == 10 * weighted_category_sum re_search_ignorecase handler_results)%Q
  ∧ (overall_score (assess handler_results)
     == (6 # 10) * mean_handler_score handler_results
        + (4 # 10) * cross_stack_score (assess handler_results))%Q.
Proof.
  split.
  - rewrite cross_stack_score_assess.
    rewrite total_is_weighted_category_sum by reflexivity.
    generalize (weighted_category_sum re_search_ignorecase handler_results).
    intros total. ring.
  - rewrite overall_score_assess.
    generalize (cross_stack_score (assess handler_results)). intros cross.
    unfold mean_handler_score. destruct handler_results as [|hr l].
    + ring.
    + unfold Qdiv_nat, Qdiv. rewrite sum_handler_scores.
      generalize (foldr (fun (hr : string * HandlerResult) (s : Q) =>
                           quality_score hr.2 + s)%Q 0%Q (hr :: l)).
      generalize (/ inject_Z (Z.of_nat (length (hr :: l))))%Q.
      intros inverse sum. ring.
Qed.

(** No checker contributes a negative score. *)
Lemma api_consistency_nonneg handler_results r :
  _validate_api_consistency handler_results = inr r → (0 <= score r)%Q.
Proof.
  unfold _validate_api_consistency. intros Hr.
  repeat case_match; simplify_eq; simpl; try apply max0_nonneg; done.
Qed.

Lemma data_model_consistency_nonneg handler_results r :
  _validate_data_model_consistency handler_results = inr r → (0 <= score r)%Q.
Proof.
  unfold _validate_data_model_consistency. intros Hr.
  repeat case_match; simplify_eq; simpl; try apply max0_nonneg; done.
Qed.

Lemma authentication_consistency_nonneg handler_results r :
  _validate_authentication_consistency handler_results = inr r → (0 <= score r)%Q.
Proof.
  unfold _validate_authentication_consistency. intros Hr.
  repeat case_match; simplify_eq; simpl; try apply max0_nonneg; done.
Qed.

Lemma input_sanitization_nonneg handler_results r :
  _validate_input_sanitization re_search_ignorecase handler_results = inr r →
  (0 <= score r)%Q.
Proof.
  unfold _validate_input_sanitization. intros Hr.
  simplify_eq; simpl. apply max0_nonneg.
Qed.

Lemma authentication_security_nonneg handler_results r :
  _validate_authentication_security handler_results = inr r → (0 <= score r)%Q.
Proof.
  unfold _validate_authentication_security. intros Hr.
  repeat case_match; simplify_eq; simpl; try apply max0_nonneg; done.
Qed.

Lemma checker_score_nonneg handler_results name (v : Validator) :
  (∀ r, v handler_results = inr r → (0 <= score r)%Q) →
  (0 <= checker_score handler_results (name, v))%Q.
Proof.
  intros Hv. unfold checker_score. simpl.
  destruct (v handler_results) as [e|r] eqn:Hrun; [done | by apply Hv].
Qed.

(** The three categories of placeholder checkers alone bring the
    weighted sum to 3.6. *)
Lemma weighted_category_sum_lower_bound handler_results :
  (36 # 10 <= weighted_category_sum re_search_ignorecase handler_results)%Q.
Proof.
  pose proof (checker_score_nonneg handler_results "_validate_api_consistency"
                _ (api_consistency_nonneg handler_results)) as H1.
  pose proof (checker_score_nonneg handler_results "_validate_data_model_consistency"
                _ (data_model_consistency_nonneg handler_results)) as H2.
  pose proof (checker_score_nonneg handler_results
                "_validate_authentication_consistency"
                _ (authentication_consistency_nonneg handler_results)) as H3.
  pose proof (checker_score_nonneg handler_results "_validate_input_sanitization"
                _ (input_sanitization_nonneg handler_results)) as H4.
  pose proof (checker_score_nonneg handler_results
                "_validate_authentication_security"
                _ (authentication_security_nonneg handler_results)) as H5.
  unfold weighted_category_sum, validation_rules, category_mean, Qdiv_nat.
  cbn [foldr weight validators length Z.of_nat Pos.of_succ_nat Pos.succ inject_Z].
  revert H1 H2 H3 H4 H5.
  generalize (checker_score handler_results
                ("_validate_api_consistency", _validate_api_consistency)).
  generalize (checker_score handler_results
                ("_validate_data_model_consistency", _validate_data_model_consistency)).
  generalize (checker_score handler_results
                ("_validate_authentication_consistency",
                 _validate_authentication_consistency)).
  generalize (checker_score handler_results
                ("_validate_input_sanitization",
                 _validate_input_sanitization re_search_ignorecase)).
  generalize (checker_score handler_results
                ("_validate_authentication_security",
                 _validate_authentication_security)).
  intros s5 s4 s3 s2 s1 H1 H2 H3 H4 H5.
  unfold checker_score, placeholder. cbn [snd score].
  change (inject_Z (Z.of_nat 3)) with 3%Q.
  change (inject_Z (Z.of_nat 4)) with 4%Q.
  assert (∀ x : Q, x / 3 == x * (1 # 3))%Q as Hthird by (intros x; field).
  assert (∀ x : Q, x / 4 == x * (1 # 4))%Q as Hquarter by (intros x; field).
  rewrite !Hthird, !Hquarter. lra.
Qed.
End Assessment.

(** C1, on the code: for every mapping of handler results the
    cross-stack score of the report is ten times the weighted sum of the
    five category means, and it is never below 36, so it is never in the
    range from 0 to 10; the overall score is 0.6 times the mean handler
    score plus 0.4 times that cross-stack score. On the empty mapping the
    cross-stack score is 88.5 and the overall score is 35.4. *)
Theorem cross_stack_score_is_off_the_ten_scale :
  ∀ (re_search_ignorecase : string -> string -> bool)
    (handler_results : HandlerResults),
    let report := _assess_cross_stack_quality re_search_ignorecase handler_results in
    (cross_stack_score report
     == 10 * weighted_category_sum re_search_ignorecase handler_results)%Q
    ∧ (overall_score report
       == (6 # 10) * mean_handler_score handler_results
          + (4 # 10) * cross_stack_score report)%Q
    ∧ (36 <= cross_stack_score report)%Q
    ∧ (10 < cross_stack_score report)%Q
    ∧ (cross_stack_score (_assess_cross_stack_quality re_search_ignorecase [])
       == 177 # 2)%Q
    ∧ (overall_score (_assess_cross_stack_quality re_search_ignorecase [])
       == 177 # 5)%Q.
Proof.
  intros re handler_results report.
  destruct (assess_scores re handler_results) as [Hcross Hoverall].
  pose proof (weighted_category_sum_lower_bound re handler_results) as Hlow.
  fold report in Hcross, Hoverall.
  split_and!; [done | done | | | reflexivity | reflexivity].
  - rewrite Hcross. lra.
  - rewrite Hcross. lra.
Qed.
End CoordinatorFacts.

(** ** More on the contract registry *)
Section RegistryLookups.
Import ContractRegistry.

(** X1: a registered contract is found again under its feature name,
  stamped with the time of the registration, whatever was stored under
  that name before; the contracts of the other features are left as
  they were. *)
Theorem get_feature_contract_after_register now contract r f :
get_feature_contract f (register_feature_contract now contract r)
= if decide (f = feature_name contract)
  then Some (with_created_at now contract)
  else get_feature_contract f r.
Proof.
unfold get_feature_contract. simpl. case_decide as Heq.
- subst. apply dict_get_set_eq.
- apply dict_get_set_ne. congruence.
Qed.

Lemma last_filter_cons {A} (P : A → Prop) `{∀ x, Decision (P x)} (x : A) (l : list A) :
last (filter P (x :: l))
= match last (filter P l) with
  | Some y => Some y
  | None => if decide (P x) then Some x else None
  end.
Proof.
rewrite filter_cons. destruct (decide (P x)); [|by destruct (last (filter P l))].
destruct (filter P l) as [|y l'] eqn:Hf; [done|].
rewrite last_cons. by destruct (last (y :: l')).
Qed.

Lemma index_endpoints_lookup eps reg k :
Dict.get k (index_endpoints eps reg)
= match last_with_key k eps with
  | Some ep => Some ep
  | None => Dict.get k reg
  end.
Proof.
revert reg. induction eps as [|ep eps IH]; intros reg; [done|].
unfold index_endpoints in *. simpl. rewrite IH.
unfold last_with_key. rewrite last_filter_cons.
destruct (last (filter _ eps)); [done|].
destruct (decide (endpoint_key ep = k)) as [<-|Hne].
- apply dict_get_set_eq.
- by apply dict_get_set_ne.
Qed.

(** X2: the endpoint index is last-write-wins and never forgets. After a
  registration, the endpoint indexed under a key is the last endpoint
  of the new contract with that key, and the endpoint indexed before
  when the new contract has none; so a key that was indexed stays
  indexed, also when its feature is registered again without it. *)
Theorem endpoint_index_last_write_wins now contract r k :
Dict.get k (endpoint_registry (register_feature_contract now contract r))
= match last_with_key k (endpoints contract) with
  | Some ep => Some ep
  | None => Dict.get k (endpoint_registry r)
  end
∧ (is_Some (Dict.get k (endpoint_registry r)) →
   is_Some (Dict.get k (endpoint_registry (register_feature_contract now contract r)))).
Proof.
assert (Dict.get k (endpoint_registry (register_feature_contract now contract r))
        = match last_with_key k (endpoints contract) with
          | Some ep => Some ep
          | None => Dict.get k (endpoint_registry r)
          end) as Hget by apply index_endpoints_lookup.
split; [done|]. rewrite Hget. by destruct (last_with_key k (endpoints contract)).
Qed.

Lemma endpoint_index_last_write_wins_witness :
is_Some (Dict.get "GET /api/users"
           (endpoint_registry (register_all two_same_key init)))
∧ is_Some (Dict.get "GET /api/users"
             (endpoint_registry
                (register_feature_contract "t2" (mk_contract "users" [] None)
                   (register_all two_same_key init)))).
Proof.
assert (is_Some (Dict.get "GET /api/users"
                   (endpoint_registry (register_all two_same_key init)))) as Hbefore
  by (vm_compute; eauto).
split; [exact Hbefore|].
exact (proj2 (endpoint_index_last_write_wins "t2" (mk_contract "users" [] None)
                (register_all two_same_key init) "GET /api/users") Hbefore).
Defined.


End RegistryLookups.

Section CycleReports.
Import ContractRegistry.
Implicit Types (graph : Dict.t string (gset string)) (visited : gset string).





(** X5: a registration without dependencies leaves the dependency graph
  alone, so it cannot clear a reported cycle: the dependency conflicts
  after it are those before it, also when it replaces the contract of a
  feature that lies on the cycle. *)
Theorem registration_without_dependencies_keeps_conflicts now contract r :
has_dependencies contract = false →
dependency_graph (register_feature_contract now contract r) = dependency_graph r
∧ dependency_conflicts <$> validate_cross_stack_consistency
                             (register_feature_contract now contract r)
  = dependency_conflicts <$> validate_cross_stack_consistency r.
Proof.
intros Hnone.
assert (dependency_graph (register_feature_contract now contract r)
        = dependency_graph r) as Hgraph.
{ unfold has_dependencies in Hnone. simpl.
  by destruct (dependencies contract) as [[|d ds]|]. }
split; [done|]. unfold validate_cross_stack_consistency. rewrite Hgraph.
by destruct (check_dependency_cycles _ _).
Qed.

Lemma registration_without_dependencies_keeps_conflicts_witness :
dependency_conflicts <$> validate_cross_stack_consistency
                           (register_feature_contract "t2" (mk_contract "B" [] None)
                              (register_all cycle_AB init))
= Some [circular_issue "B"; circular_issue "A"].
Proof.
rewrite (proj2 (registration_without_dependencies_keeps_conflicts
                  "t2" (mk_contract "B" [] None) (register_all cycle_AB init)
                  eq_refl)).
vm_compute. reflexivity.
Defined.
End CycleReports.

(** ** More on the event channel *)
Section EventHistoryFacts.
Import EventBus.
Context {Data : Type}.
Implicit Types (b : HandlerEventBus Data) (op : Op Data) (et : string).

Lemma publish_event et payload src c b :
let '(b', event, _) := publish et payload src c b in
event_type event = et ∧ data event = payload ∧ source_handler event = src
∧ event_history b' = record_event b event
∧ max_history_size b' = max_history_size b
∧ active_correlations b'
  = Dict.set (correlation_id event)
      (default [] (Dict.get (correlation_id event) (active_correlations b))
       ++ [event_id event])
      (active_correlations b).
Proof. unfold publish. by destruct (truthy c). Qed.

Lemma record_event_length b (ev : HandlerEvent Data) :
0 < max_history_size b →
length (event_history b) ≤ max_history_size b →
length (record_event b ev) ≤ max_history_size b.
Proof.
intros Hpos Hlen. unfold record_event. rewrite length_app. simpl.
case_decide as Hfull; [|rewrite length_app; simpl; lia].
unfold keep_last. destruct (max_history_size b) as [|n] eqn:Hmax; [lia|].
rewrite length_drop, !length_app. simpl. lia.
Qed.

(** X6: with a positive [max_history_size], [publish] keeps a history
  that was within the bound within the bound; the history after it is
  the end of the old history followed by the new event, which is
  therefore the last entry, and the oldest entries are the ones that
  leave. *)
Theorem publish_keeps_history_bounded et payload src c b :
0 < max_history_size b →
length (event_history b) ≤ max_history_size b →
let '(b', event, _) := publish et payload src c b in
length (event_history b') ≤ max_history_size b'
∧ last (event_history b') = Some event
∧ event_history b' `suffix_of` event_history b ++ [event]
∧ (length (event_history b) < max_history_size b →
   event_history b' = event_history b ++ [event]).
Proof.
intros Hpos Hlen. pose proof (publish_event et payload src c b) as Hpub.
destruct (publish et payload src c b) as [[b' event] invoked].
destruct Hpub as (_ & _ & _ & -> & -> & _).
unfold record_event. rewrite length_app. simpl.
case_decide as Hfull.
- unfold keep_last. destruct (max_history_size b) as [|n] eqn:Hmax; [lia|].
  split_and!.
  + rewrite length_drop, !length_app. simpl. lia.
  + rewrite length_app. simpl. rewrite drop_app_le by lia. by rewrite last_snoc.
  + apply suffix_drop.
  + intros ?. exfalso. lia.
- split_and!; [rewrite length_app; simpl; lia | by rewrite last_snoc | done | done].
Qed.

(** With a limit of [0] the slice [history[-0:]] is the whole list:
  nothing is ever evicted. *)
Lemma publish_without_limit et payload src c b :
max_history_size b = 0 →
let '(b', event, _) := publish et payload src c b in
event_history b' = event_history b ++ [event].
Proof.
intros Hzero. pose proof (publish_event et payload src c b) as Hpub.
destruct (publish et payload src c b) as [[b' event] invoked].
destruct Hpub as (_ & _ & _ & -> & _ & _).
unfold record_event. rewrite Hzero. by case_decide.
Qed.

Lemma step_max_history_size b op :
max_history_size (step b op) = max_history_size b.
Proof.
destruct op as [et cb|et payload src c|et timeout|f timeout]; try done.
unfold step. pose proof (publish_event et payload src c b) as Hpub.
destruct (publish et payload src c b) as [[b' event] invoked].
simpl. by destruct Hpub as (_ & _ & _ & _ & Hmax & _).
Qed.

Lemma step_history_bounded b op :
0 < max_history_size b →
length (event_history b) ≤ max_history_size b →
length (event_history (step b op)) ≤ max_history_size b.
Proof.
intros Hpos Hlen.
destruct op as [et cb|et payload src c|et timeout|f timeout]; try done.
unfold step.
pose proof (publish_event et payload src c b) as Hpub.
destruct (publish et payload src c b) as [[b' event] invoked].
destruct Hpub as (_ & _ & _ & Hh & _ & _). simpl.
rewrite Hh. by apply record_event_length.
Qed.

Lemma step_correlations_indexed b op :
correlations_indexed b → correlations_indexed (step b op).
Proof.
intros Hidx.
destruct op as [et cb|et payload src c|et timeout|f timeout]; try done.
unfold step. pose proof (publish_event et payload src c b) as Hpub.
destruct (publish et payload src c b) as [[b' event] invoked].
destruct Hpub as (_ & _ & _ & Hh & _ & Hc). simpl.
intros e He. rewrite Hh in He. rewrite Hc.
assert (e ∈ event_history b ++ [event]) as He'.
{ unfold record_event in He. case_decide; [|done].
  unfold keep_last in He. destruct (max_history_size b); [done|].
  eapply elem_of_suffix; [done | apply suffix_drop]. }
apply elem_of_app in He' as [Hold|Hnew].
- destruct (Hidx e Hold) as (ids & Hget & Hin).
  destruct (decide (correlation_id event = correlation_id e)) as [Heq|Hne].
  + rewrite Heq, dict_get_set_eq. eexists. split; [done|].
    rewrite Hget. simpl. set_solver.
  + rewrite dict_get_set_ne by done. eauto.
- apply list_elem_of_singleton in Hnew as ->.
  rewrite dict_get_set_eq. eexists. split; [done|]. set_solver.
Qed.

(** X7: on a channel that starts empty, after any sequence of
  operations the history holds at most 1000 events, and every event
  still in the history is listed, by its id, under its correlation id
  in [active_correlations]. *)
Theorem history_bounded_and_indexed (ops : list (Op Data)) :
let b := run ops init in
length (event_history b) ≤ 1000
∧ correlations_indexed b.
Proof.
assert (∀ b0 : HandlerEventBus Data,
           max_history_size b0 = 1000 →
           length (event_history b0) ≤ 1000 →
           correlations_indexed b0 →
           length (event_history (run ops b0)) ≤ 1000
           ∧ correlations_indexed (run ops b0)) as Hrun.
{ induction ops as [|op ops IH]; intros b0 Hmax Hlen Hidx; [done|].
  simpl. apply IH.
  - by rewrite step_max_history_size.
  - rewrite <- Hmax. apply step_history_bounded; lia.
  - by apply step_correlations_indexed. }
apply Hrun; [done | simpl; lia |].
intros e He. by apply elem_of_nil in He.
Qed.
End EventHistoryFacts.

(** ** Waiting for an event *)
Section WaitFacts.
Import EventBus.
Context {Data : Type}.
Implicit Types (b : HandlerEventBus Data) (op : Op Data) (et : string)
(fs : list (FutureState Data)).

Lemma run_callback_done event cb fs f s :
fs !! f = Some s → future_done s = true →
run_callback event cb fs !! f = Some s.
Proof.
intros Hf Hdone. destruct cb as [id|f']; [done|]. simpl.
destruct (fs !! f') as [[| |]|] eqn:Hf'; try done.
destruct (decide (f = f')) as [->|Hne].
- rewrite Hf in Hf'. by simplify_eq.
- by rewrite list_lookup_insert_ne.
Qed.

Lemma run_callbacks_done event cbs fs f s :
fs !! f = Some s → future_done s = true →
fold_left (fun fs cb => run_callback event cb fs) cbs fs !! f = Some s.
Proof.
revert fs. induction cbs as [|cb cbs IH]; intros fs Hf Hdone; [done|].
simpl. apply IH; [|done]. by apply run_callback_done.
Qed.

Lemma run_callbacks_resolve event cbs fs f :
fs !! f = Some Pending → Waiter f ∈ cbs →
fold_left (fun fs cb => run_callback event cb fs) cbs fs !! f
= Some (Resolved event).
Proof.
revert fs. induction cbs as [|cb cbs IH]; intros fs Hf Hin.
- by apply elem_of_nil in Hin.
- simpl. destruct (decide (cb = Waiter f)) as [->|Hne].
  + apply run_callbacks_done; [|done]. simpl. rewrite Hf.
    apply list_lookup_insert_eq. by eapply lookup_lt_Some.
  + apply elem_of_cons in Hin as [Heq|Hin]; [congruence|].
    apply IH; [|done]. destruct cb as [id|f']; [done|]. simpl.
    destruct (fs !! f') as [[| |]|] eqn:Hf'; try done.
    rewrite list_lookup_insert_ne; [done | congruence].
Qed.

Lemma step_future_done b op f s :
futures b !! f = Some s → future_done s = true →
futures (step b op) !! f = Some s.
Proof.
intros Hf Hdone.
destruct op as [et cb|et payload src c|et timeout|f' timeout]; simpl.
- done.
- unfold publish. destruct (truthy c); simpl; by apply run_callbacks_done.
- apply lookup_app_l_Some. done.
- destruct (futures b !! f') as [[| |]|] eqn:Hf'; try done.
  destruct (decide (f = f')) as [->|Hne].
  + rewrite Hf in Hf'. by simplify_eq.
  + by rewrite list_lookup_insert_ne.
Qed.

(** X8: a wait is settled once. When the future of a wait holds an
  event or a timeout, no later operation of the channel changes it:
  not a further publication of the event type, not the timer. *)
Theorem settled_future_never_changes (ops : list (Op Data)) b f s :
futures b !! f = Some s →
future_done s = true →
futures (run ops b) !! f = Some s.
Proof.
revert b. induction ops as [|op ops IH]; intros b Hf Hdone; [done|].
simpl. apply IH; [|done]. by apply step_future_done.
Qed.

(** X9: [wait_for_event] hands out a pending future whose callback is
  subscribed to the event type. While the future is pending, a
  publication of that type resolves it with the published event, and
  the expiry of the timer fails it with the timeout. *)
Theorem pending_wait_is_settled_by_publish_or_timeout :
(∀ b et,
    futures (wait_for_event et b).2 !! (wait_for_event et b).1 = Some Pending
    ∧ Waiter (wait_for_event et b).1 ∈ subscribers_of et (wait_for_event et b).2)
∧ (∀ b et f payload src c,
    futures b !! f = Some Pending →
    Waiter f ∈ subscribers_of et b →
    futures (publish et payload src c b).1.1 !! f
    = Some (Resolved (publish et payload src c b).1.2))
∧ (∀ b f timeout,
    futures b !! f = Some Pending →
    futures (timeout_elapsed f timeout b) !! f = Some (TimedOut timeout)).
Proof.
split_and!.
- intros b et. split.
  + simpl. apply list_lookup_middle. done.
  + rewrite subscribers_of_wait_for_event, decide_True by done. set_solver.
- intros b et f payload src c Hf Hin. unfold publish.
  destruct (truthy c); simpl; by apply run_callbacks_resolve.
- intros b f timeout Hf. simpl. rewrite Hf.
  apply list_lookup_insert_eq. by eapply lookup_lt_Some.
Qed.
End WaitFacts.

(** ** Queries on the event channel *)
Section QueryFacts.
Import EventBus.
Context {Data : Type}.
Implicit Types (b : HandlerEventBus Data) (op : Op Data) (et : string).

(** X10: [get_event_history] returns, in the order of the history, the
  events that pass every filter whose argument is true as Python sees
  it; an argument that is [None], an empty list of event types, an
  empty correlation id or an empty source name filters nothing. *)
Theorem get_event_history_filters event_types correlation source b :
get_event_history event_types correlation source b `sublist_of` event_history b
∧ (∀ e, e ∈ get_event_history event_types correlation source b
        ↔ e ∈ event_history b
          ∧ match event_types with
            | Some (t :: ts) => event_type e ∈ t :: ts
            | _ => True
            end
          ∧ match correlation with
            | Some (Given EmptyString) | None => True
            | Some c => correlation_id e = c
            end
          ∧ match source with
            | Some (String a s) => source_handler e = String a s
            | _ => True
            end)
∧ get_event_history (Some []) (Some (Given EmptyString)) (Some EmptyString) b
  = event_history b
∧ get_event_history None None None b = event_history b.
Proof.
split_and!; [| |done|done].
- unfold get_event_history.
  destruct event_types as [[|? ?]|], (truthy correlation), source as [[|? ?]|];
    repeat (etrans; [apply sublist_filter|]); done.
- intros e. unfold get_event_history.
  assert (truthy correlation
          = match correlation with
            | Some (Given EmptyString) | None => None
            | Some c => Some c
            end) as -> by (by destruct correlation as [[[|??]|?]|]).
  destruct event_types as [[|? ?]|], correlation as [[[|? ?]|?]|],
    source as [[|? ?]|];
    rewrite ?list_elem_of_filter; tauto.
Qed.
End QueryFacts.

(** ** Statistics of the event channel *)
Section StatisticsFacts.
Import EventBus.
Context {Data : Type}.
Implicit Types (b : HandlerEventBus Data) (op : Op Data) (et : string).

Lemma count_loop_lookup (key : HandlerEvent Data → string) l (acc : Dict.t string nat) k :
Dict.get k
  (fold_left
     (fun counts e =>
        Dict.set (key e) (S (default 0 (Dict.get (key e) counts))) counts) l acc)
= match Dict.get k acc, length (filter (fun e => key e = k) l) with
  | Some m, n => Some (m + n)
  | None, 0 => None
  | None, n => Some n
  end.
Proof.
revert acc. induction l as [|e l IH]; intros acc; simpl.
- destruct (Dict.get k acc); [f_equal; lia | done].
- rewrite IH. rewrite filter_cons.
  destruct (decide (key e = k)) as [<-|Hne].
  + rewrite dict_get_set_eq. simpl.
    destruct (Dict.get (key e) acc); simpl; f_equal; lia.
  + by rewrite dict_get_set_ne.
Qed.

Lemma subscriber_sum_set (d : Dict.t string (list Callback)) et cb :
sum_list (map (fun subs : list Callback => length subs)
            (Dict.values (Dict.set et (default [] (Dict.get et d) ++ [cb]) d)))
= S (sum_list (map (fun subs : list Callback => length subs) (Dict.values d))).
Proof.
unfold Dict.values. induction d as [|[k v] d IH]; csimpl; [done|].
destruct (decide (et = k)) as [->|Hne]; csimpl.
- rewrite length_app. simpl. lia.
- rewrite IH. lia.
Qed.

Lemma step_subscriber_count b op :
subscriber_count (get_handler_statistics (step b op))
= subscriber_count (get_handler_statistics b)
  + (if is_subscription op then 1 else 0).
Proof.
destruct op as [et cb|et payload src c|et timeout|f timeout]; simpl.
- unfold subscribers_of. rewrite subscriber_sum_set. lia.
- rewrite subscribers_publish. lia.
- unfold subscribers_of. rewrite subscriber_sum_set. lia.
- lia.
Qed.

(** X11: the statistics of a channel that started empty. The
  subscriber count is the number of [subscribe] and [wait_for_event]
  calls ever made, waits that are long settled included; the count kept
  for an event type, or for a source, is the number of its events in
  the history, and a type or source without events has no entry. *)
Theorem statistics_of_a_run (ops : list (Op Data)) :
let b := run ops init in
let stats := get_handler_statistics b in
subscriber_count stats = subscriptions ops
∧ total_events stats = length (event_history b)
∧ (∀ t, Dict.get t (event_type_counts stats)
        = match count_type t (event_history b) with
          | 0 => None
          | n => Some n
          end)
∧ (∀ h, Dict.get h (handler_event_counts stats)
        = match length (filter (fun e => source_handler e = h) (event_history b)) with
          | 0 => None
          | n => Some n
          end).
Proof.
intros b stats. split_and!.
- subst stats b.
  assert (∀ b0 : HandlerEventBus Data,
             subscriber_count (get_handler_statistics (run ops b0))
             = subscriber_count (get_handler_statistics b0) + subscriptions ops)
    as Hrun.
  { induction ops as [|op ops IH]; intros b0.
    - change (run [] b0) with b0. unfold subscriptions. simpl. lia.
    - change (run (op :: ops) b0) with (run ops (step b0 op)).
      rewrite IH, step_subscriber_count. unfold subscriptions.
      rewrite filter_cons. destruct (is_subscription op).
      + rewrite decide_True by done. simpl. lia.
      + rewrite decide_False by done. lia. }
  rewrite Hrun. done.
- done.
- intros t. subst stats. unfold get_handler_statistics, event_type_counts, count_by.
  rewrite count_loop_lookup. simpl. unfold count_type. by destruct (length _).
- intros h. subst stats. unfold get_handler_statistics, handler_event_counts, count_by.
  rewrite count_loop_lookup. simpl. by destruct (length _).
Qed.
End StatisticsFacts.

Section EventHistoryExamples.
Import EventBus.

Lemma publish_keeps_history_bounded_witness :
let '(b', event, _) :=
  publish "generation_started" tt "system" None (init (Data:=unit)) in
length (event_history b') ≤ max_history_size b'
∧ last (event_history b') = Some event
∧ event_history b' `suffix_of` event_history (init (Data:=unit)) ++ [event]
∧ (length (event_history (init (Data:=unit))) < max_history_size (init (Data:=unit)) →
   event_history b' = event_history (init (Data:=unit)) ++ [event]).
Proof.
apply (publish_keeps_history_bounded "generation_started" tt "system" None
         (init (Data:=unit))); simpl; lia.
Defined.

Lemma settled_future_never_changes_witness :
futures (run [OpPublish "done" tt "system" None]
           (timeout_elapsed 0 5 (wait_for_event "done" (init (Data:=unit))).2))
  !! 0
= Some (TimedOut 5).
Proof.
apply (settled_future_never_changes [OpPublish "done" tt "system" None]
         (timeout_elapsed 0 5 (wait_for_event "done" (init (Data:=unit))).2)
         0 (TimedOut 5)); reflexivity.
Defined.
End EventHistoryExamples.

(** ** More on the context chunks *)
Section ChunkOrderFacts.
Import BaseHandler.
Implicit Types (c : ContextChunk) (l chunks : list ContextChunk).

Lemma insert_by_priority_perm c l : insert_by_priority c l ≡ₚ c :: l.
Proof.
induction l as [|d l IH]; simpl; [done|].
case_match; [done|]. rewrite IH. apply Permutation_swap.
Qed.

Lemma sort_by_priority_perm l : sort_by_priority l ≡ₚ l.
Proof.
induction l as [|c l IH]; simpl; [done|].
rewrite insert_by_priority_perm. by rewrite IH.
Qed.

Lemma insert_by_priority_sorted c l :
StronglySorted (fun a b => (priority a <= priority b)%Z) l →
StronglySorted (fun a b => (priority a <= priority b)%Z) (insert_by_priority c l).
Proof.
induction 1 as [|d l Hl IH Hd]; simpl.
- repeat constructor.
- destruct (priority c <=? priority d)%Z eqn:Hle.
  + apply Z.leb_le in Hle. constructor; [by constructor|].
    constructor; [done|]. eapply Forall_impl; [done|]. simpl. intros; lia.
  + apply Z.leb_gt in Hle. constructor; [done|].
    rewrite insert_by_priority_perm. constructor; [lia | done].
Qed.

Lemma sort_by_priority_sorted l :
StronglySorted (fun a b => (priority a <= priority b)%Z) (sort_by_priority l).
Proof.
induction l as [|c l IH]; simpl; [constructor|].
by apply insert_by_priority_sorted.
Qed.

Lemma insert_by_priority_filter p c l :
filter (fun a => priority a = p) (insert_by_priority c l)
= filter (fun a => priority a = p) (c :: l).
Proof.
induction l as [|d l IH]; simpl; [done|].
destruct (priority c <=? priority d)%Z eqn:Hle; [done|].
apply Z.leb_gt in Hle. rewrite filter_cons, IH, !filter_cons.
destruct (decide (priority d = p)), (decide (priority c = p)); try done. lia.
Qed.

Lemma sort_by_priority_stable p l :
filter (fun a => priority a = p) (sort_by_priority l)
= filter (fun a => priority a = p) l.
Proof.
induction l as [|c l IH]; simpl; [done|].
rewrite insert_by_priority_filter, !filter_cons, IH. done.
Qed.

Lemma total_tokens_perm l l' : l ≡ₚ l' → total_tokens l = total_tokens l'.
Proof.
unfold total_tokens. induction 1; simpl; lia.
Qed.

(** X12: when the chunks fit in the token limit,
  [_optimize_chunks_for_tokens] returns all of them, reordered by a
  stable sort on the priority: the result is a permutation of the
  input, priorities never decrease along it, and chunks of equal
  priority keep their relative order. *)
Theorem optimize_chunks_within_budget max_tokens chunks :
(total_tokens chunks <= max_tokens)%Z →
let result := _optimize_chunks_for_tokens max_tokens chunks in
result ≡ₚ chunks
∧ StronglySorted (fun a b => (priority a <= priority b)%Z) result
∧ ∀ p, filter (fun a => priority a = p) result
       = filter (fun a => priority a = p) chunks.
Proof.
intros Hfit result. subst result. unfold _optimize_chunks_for_tokens.
rewrite (total_tokens_perm _ _ (sort_by_priority_perm chunks)).
apply Z.leb_le in Hfit. rewrite Hfit.
split_and!; [apply sort_by_priority_perm | apply sort_by_priority_sorted
            | intros p; apply sort_by_priority_stable].
Qed.

Lemma optimize_chunks_within_budget_witness :
let chunks := [mk_chunk "history" 2 10; mk_chunk "architecture" 1 20;
               mk_chunk "features" 1 30] in
let result := _optimize_chunks_for_tokens 150000 chunks in
(total_tokens chunks <= 150000)%Z
∧ result ≡ₚ chunks
∧ StronglySorted (fun a b => (priority a <= priority b)%Z) result
∧ ∀ p, filter (fun a => priority a = p) result
       = filter (fun a => priority a = p) chunks.
Proof.
intros chunks result.
assert (total_tokens chunks <= 150000)%Z as Hfit by (vm_compute; discriminate).
split; [exact Hfit|].
exact (optimize_chunks_within_budget 150000 chunks Hfit).
Defined.
End ChunkOrderFacts.

Section ChunkBudgetFacts.
Import BaseHandler.
Implicit Types (c : ContextChunk) (l chunks : list ContextChunk).

Lemma substring_length_le (s : string) (a m : nat) :
String.length (String.substring a m s) ≤ m.
Proof.
revert a m. induction s as [|ch s IH]; intros a m.
- destruct a, m; simpl; lia.
- destruct a as [|a]; simpl.
  + destruct m as [|m]; simpl; [lia|]. specialize (IH 0 m). lia.
  + apply IH.
Qed.

Lemma slice_to_length_le (s : string) (n : Z) :
(0 <= n)%Z → (PyStr.len (PyStr.slice_to s n) <= n)%Z.
Proof.
intros Hn. unfold PyStr.slice_to, PyStr.slice, PyStr.len.
pose proof (substring_length_le s
              (Z.to_nat (PyStr.norm_index (Z.of_nat (String.length s)) 0))
              (Z.to_nat (PyStr.norm_index (Z.of_nat (String.length s)) n
                         - PyStr.norm_index (Z.of_nat (String.length s)) 0))) as Hle.
unfold PyStr.norm_index in *. simpl in *.
destruct (n <? 0)%Z eqn:Hneg; [apply Z.ltb_lt in Hneg; lia|]. lia.
Qed.

Lemma len_append (s1 s2 : string) :
PyStr.len (s1 +:+ s2) = (PyStr.len s1 + PyStr.len s2)%Z.
Proof. unfold PyStr.len. rewrite string_length_append. lia. Qed.

(** A truncated chunk is estimated at no more than the room it was cut
  to plus the eight tokens of the marker. *)
Lemma truncate_chunk_tokens room c :
(0 <= room)%Z →
(0 <= tokens_estimate (truncate_chunk room c) <= room + 8)%Z.
Proof.
intros Hroom. unfold truncate_chunk. simpl.
rewrite len_append.
pose proof (slice_to_length_le (content c) (room * 4) ltac:(lia)) as Hle.
change (PyStr.len truncation_marker) with 32%Z.
assert (0 <= PyStr.len (PyStr.slice_to (content c) (room * 4)))%Z
  by (unfold PyStr.len; lia).
split.
- apply Z.div_pos; lia.
- apply Z.div_le_upper_bound; lia.
Qed.

Lemma optimize_loop_tokens max_tokens chunks current :
(current <= max_tokens)%Z →
Forall (fun c => 0 <= tokens_estimate c)%Z chunks →
(total_tokens (optimize_loop max_tokens chunks current)
 <= max_tokens - current + 8)%Z.
Proof.
revert current. induction chunks as [|c chunks IH]; intros current Hcur Hpos; simpl.
- lia.
- apply Forall_cons in Hpos as [Hc Hpos].
  destruct (current + tokens_estimate c <=? max_tokens)%Z eqn:Hfit.
  + apply Z.leb_le in Hfit.
    specialize (IH (current + tokens_estimate c)%Z Hfit Hpos).
    unfold total_tokens in *. cbn [foldr]. lia.
  + destruct (priority c =? 1)%Z.
    * pose proof (truncate_chunk_tokens (max_tokens - current) c ltac:(lia)).
      unfold total_tokens. cbn [foldr]. lia.
    * by apply IH.
Qed.

(** X13: with token estimates that are not negative and a limit that is
  not negative, the estimates of the chunks that
  [_optimize_chunks_for_tokens] returns add up to at most the limit
  plus 8: the chunks kept whole stay within the limit, and the one
  truncated chunk is cut to the room that is left and then gets the
  marker, which is worth up to eight tokens. *)
Theorem optimize_chunks_token_bound max_tokens chunks :
(0 <= max_tokens)%Z →
Forall (fun c => 0 <= tokens_estimate c)%Z chunks →
(total_tokens (_optimize_chunks_for_tokens max_tokens chunks) <= max_tokens + 8)%Z.
Proof.
intros Hmax Hpos. unfold _optimize_chunks_for_tokens.
destruct (total_tokens (sort_by_priority chunks) <=? max_tokens)%Z eqn:Hfit.
- apply Z.leb_le in Hfit. lia.
- pose proof (optimize_loop_tokens max_tokens (sort_by_priority chunks) 0 Hmax) as Hb.
  rewrite Z.sub_0_r in Hb. apply Hb.
  by rewrite (sort_by_priority_perm chunks).
Qed.

Lemma optimize_chunks_token_bound_witness :
(0 <= 150000)%Z
∧ Forall (fun c => 0 <= tokens_estimate c)%Z three_critical
∧ (total_tokens (_optimize_chunks_for_tokens 150000 three_critical)
   <= 150000 + 8)%Z.
Proof.
assert (Forall (fun c => 0 <= tokens_estimate c)%Z three_critical) as Hpos
  by (repeat constructor; simpl; lia).
split; [lia|]. split; [exact Hpos|].
exact (optimize_chunks_token_bound 150000 three_critical ltac:(lia) Hpos).
Defined.

Lemma truncate_chunk_fields room c :
chunk_id (truncate_chunk room c) = chunk_id c
∧ priority (truncate_chunk room c) = priority c.
Proof. done. Qed.

Lemma optimize_loop_structure max_tokens chunks current :
let result := optimize_loop max_tokens chunks current in
map chunk_id result `sublist_of` map chunk_id chunks
∧ ∀ c, c ∈ result →
    c ∈ chunks
    ∨ (priority c = 1%Z ∧ last result = Some c
       ∧ ∃ c0 room, c0 ∈ chunks ∧ priority c0 = 1%Z
                    ∧ c = truncate_chunk room c0).
Proof.
revert current. induction chunks as [|c0 chunks IH]; intros current result;
  subst result; simpl.
- split; [done|]. intros c Hc. by apply elem_of_nil in Hc.
- destruct (current + tokens_estimate c0 <=? max_tokens)%Z.
  + destruct (IH (current + tokens_estimate c0)%Z) as [Hsub Hin]. split.
    * simpl. by apply sublist_skip.
    * intros c Hc. apply elem_of_cons in Hc as [->|Hc]; [left; set_solver|].
      destruct (Hin c Hc) as [Hold|(Hp & Hlast & c1 & room & Hc1 & Hp1 & ->)].
      -- left. set_solver.
      -- right. split; [done|]. split.
         ++ destruct (optimize_loop max_tokens chunks _) eqn:Hl;
              [by apply elem_of_nil in Hc | by rewrite last_cons, Hlast].
         ++ exists c1, room. split_and!; [set_solver | done | done].
  + destruct (priority c0 =? 1)%Z eqn:Hp1.
    * apply Z.eqb_eq in Hp1. split.
      -- simpl. apply sublist_skip, sublist_nil_l.
      -- intros c Hc. apply list_elem_of_singleton in Hc as ->. right.
         split_and!; [done | done |].
         exists c0, (max_tokens - current)%Z. split_and!; [set_solver | done | done].
    * destruct (IH current) as [Hsub Hin]. split.
      -- simpl. by apply sublist_cons.
      -- intros c Hc. destruct (Hin c Hc) as [Hold|(Hp & Hlast & c1 & room & Hc1 & Hpc & ->)].
         ++ left. set_solver.
         ++ right. split_and!; [done | done |].
            exists c1, room. split_and!; [set_solver | done | done].
Qed.

(** X14: what [_optimize_chunks_for_tokens] can return. The chunk ids of
  the result are a subsequence of the ids of the sorted input; every
  returned chunk is an input chunk unchanged, except possibly the last
  one, which may be the truncation of an input chunk of priority 1. A
  chunk of any other priority is therefore never truncated: it is
  returned whole or dropped. *)
Theorem optimize_chunks_structure max_tokens chunks :
let result := _optimize_chunks_for_tokens max_tokens chunks in
map chunk_id result `sublist_of` map chunk_id (sort_by_priority chunks)
∧ (∀ c, c ∈ result →
     c ∈ chunks
     ∨ (priority c = 1%Z ∧ last result = Some c
        ∧ ∃ c0 room, c0 ∈ chunks ∧ priority c0 = 1%Z
                     ∧ c = truncate_chunk room c0))
∧ (∀ c, c ∈ result → priority c ≠ 1%Z → c ∈ chunks).
Proof.
intros result.
assert (map chunk_id result `sublist_of` map chunk_id (sort_by_priority chunks)
        ∧ (∀ c, c ∈ result →
             c ∈ chunks
             ∨ (priority c = 1%Z ∧ last result = Some c
                ∧ ∃ c0 room, c0 ∈ chunks ∧ priority c0 = 1%Z
                             ∧ c = truncate_chunk room c0))) as [Hsub Hin].
{ subst result. unfold _optimize_chunks_for_tokens.
  destruct (total_tokens (sort_by_priority chunks) <=? max_tokens)%Z.
  - split; [done|]. intros c Hc. left.
    by rewrite <- (sort_by_priority_perm chunks).
  - destruct (optimize_loop_structure max_tokens (sort_by_priority chunks) 0)
      as [Hsub Hin].
    split; [done|]. intros c Hc.
    destruct (Hin c Hc) as [Hold|(Hp & Hlast & c0 & room & Hc0 & Hp0 & ->)].
    + left. by rewrite <- (sort_by_priority_perm chunks).
    + right. split_and!; [done | done |]. exists c0, room.
      split_and!; [by rewrite <- (sort_by_priority_perm chunks) | done | done]. }
split_and!; [done | done |].
intros c Hc Hp. destruct (Hin c Hc) as [Hold|(Hp1 & _)]; [done | congruence].
Qed.
End ChunkBudgetFacts.

(** ** Requests to the oracle *)
Section RetryFacts.
Import Results BaseHandler NodeHandler.

Lemma retry_loop_calls client max_retries remaining attempt calls :
calls ≤ (retry_loop client max_retries remaining attempt calls).2
≤ calls + remaining.
Proof.
revert attempt calls. induction remaining as [|remaining IH];
  intros attempt calls; simpl; [lia|].
destruct client as [oracle|]; simpl.
- destruct (oracle calls) as [text usage|e]; simpl; [lia|].
  specialize (IH (S attempt) (S calls)).
  destruct (_ || _); [lia|]. destruct (_ =? _)%nat; simpl; lia.
- specialize (IH (S attempt) calls).
  destruct (_ =? _)%nat; simpl; lia.
Qed.

(** X15: [_claude_request_with_retry] returns the first response among
  the oracle's next three replies. If the [k]-th call from now (k < 3)
  is the first that does not raise, its response is returned after
  exactly [k + 1] calls, whatever the earlier errors were: an error
  that mentions neither overload nor rate limiting is retried as well
  when it is not the third. *)
Theorem retry_returns_first_reply oracle calls k text usage :
k < 3 →
(∀ j, j < k → ∃ e, oracle (calls + j) = Raises e) →
oracle (calls + k) = Reply text usage →
request_with_retry (Some oracle) calls = (inr (text, usage), calls + k + 1).
Proof.
intros Hk Hraises Hreply. unfold request_with_retry.
destruct k as [|[|[|k]]]; [| | |lia].
- rewrite Nat.add_0_r in Hreply. simpl. rewrite Hreply.
  do 2 f_equal. lia.
- destruct (Hraises 0 ltac:(lia)) as [e0 He0]. rewrite Nat.add_0_r in He0.
  replace (calls + 1) with (S calls) in Hreply by lia.
  simpl. rewrite He0. destruct (_ || _); simpl; rewrite Hreply;
    do 2 f_equal; lia.
- destruct (Hraises 0 ltac:(lia)) as [e0 He0]. rewrite Nat.add_0_r in He0.
  destruct (Hraises 1 ltac:(lia)) as [e1 He1].
  replace (calls + 1) with (S calls) in He1 by lia.
  replace (calls + 2) with (S (S calls)) in Hreply by lia.
  simpl. rewrite He0.
  destruct (_ || _); simpl; rewrite He1; destruct (_ || _); simpl;
    rewrite Hreply; do 2 f_equal; lia.
Qed.

(** X16: when the oracle's next three calls all raise,
  [_claude_request_with_retry] raises after exactly three calls. The
  exception is the third error itself, unless that one mentions
  overload or rate limiting: then it is the exception saying that the
  retries are used up. The first two errors never reach the caller. *)
Theorem retry_gives_up_after_three_errors oracle calls e0 e1 e2 :
oracle calls = Raises e0 →
oracle (calls + 1) = Raises e1 →
oracle (calls + 2) = Raises e2 →
request_with_retry (Some oracle) calls
= (inl (if PyStr.contains "overloaded" e2 || PyStr.contains "rate_limit" e2
        then "Max retries exceeded for Claude API" else e2),
   calls + 3).
Proof.
intros He0 He1 He2. unfold request_with_retry.
replace (calls + 1) with (S calls) in He1 by lia.
replace (calls + 2) with (S (S calls)) in He2 by lia.
replace (calls + 3) with (S (S (S calls))) by lia.
simpl. rewrite He0.
destruct (PyStr.contains "overloaded" e0 || PyStr.contains "rate_limit" e0);
  simpl; rewrite He1;
  destruct (PyStr.contains "overloaded" e1 || PyStr.contains "rate_limit" e1);
  simpl; rewrite He2;
  by destruct (PyStr.contains "overloaded" e2 || PyStr.contains "rate_limit" e2).
Qed.

Lemma retry_returns_first_reply_witness :
request_with_retry (Some fails_twice) 0 = (inr ("{}", None), 0 + 2 + 1).
Proof.
apply (retry_returns_first_reply fails_twice 0 2 "{}" None).
- lia.
- intros [|[|j]] Hj; [by eexists | by eexists | lia].
- reflexivity.
Defined.

Lemma retry_gives_up_after_three_errors_witness :
request_with_retry (Some always_raises) 0 = (inl "boom", 0 + 3).
Proof.
exact (retry_gives_up_after_three_errors always_raises 0 "boom" "boom" "boom"
         eq_refl eq_refl eq_refl).
Defined.
End RetryFacts.

(** ** The scores of the validator *)
Section QualityFacts.
Import Results BaseHandler NodeHandler.
Variable re_search : string -> string -> bool.

(** What a check keeps true of the running score and the issues
  collected so far: the score has not risen above 10, and it is still
  10 exactly when no issue has been recorded. *)
Lemma check_consistent failed penalty issue (acc : Q * list string) :
(0 < penalty)%Q →
(acc.1 <= 10)%Q ∧ (acc.2 = [] → acc.1 == 10)%Q ∧ (acc.2 ≠ [] → acc.1 < 10)%Q →
let acc' := check failed penalty issue acc in
(acc'.1 <= 10)%Q ∧ (acc'.2 = [] → acc'.1 == 10)%Q ∧ (acc'.2 ≠ [] → acc'.1 < 10)%Q.
Proof.
intros Hp (Hle & Hnil & Hcons) acc'. subst acc'. unfold check.
destruct failed; [|done]. cbn [fst snd]. split_and!.
- lra.
- intros Happ. by destruct (acc.2).
- intros _. lra.
Qed.

Lemma check_length failed penalty issue (acc : Q * list string) (n : nat) :
length acc.2 ≤ n → length (check failed penalty issue acc).2 ≤ S n.
Proof.
intros Hn. unfold check. destruct failed; cbn [snd]; [|lia].
rewrite length_app. simpl. lia.
Qed.

(** The score of a file and its issues agree. *)
Lemma single_file_consistent file_path content :
let fs := _validate_single_file_quality re_search file_path content in
(0 <= score fs <= 10)%Q ∧ (issues fs = [] ↔ (score fs == 10)%Q).
Proof.
intros fs. subst fs. unfold _validate_single_file_quality.
destruct (PyStr.endswith ".sql" file_path || PyStr.endswith ".env.example" file_path).
{ cbn [score issues]. split_and!; done. }
cbn [score issues].
match goal with
| |- context [max0 (?a).1] => set (acc := a)
end.
assert ((acc.1 <= 10)%Q ∧ (acc.2 = [] → acc.1 == 10)%Q ∧ (acc.2 ≠ [] → acc.1 < 10)%Q)
  as (Hle & Hnil & Hcons).
{ subst acc. repeat (apply check_consistent; [done|]).
  cbn [fst snd]. split_and!; [done | done | done]. }
clearbody acc. split_and!; [apply max0_nonneg | by apply max0_le |].
split.
- intros Hi. specialize (Hnil Hi). unfold max0.
  destruct (Qltb 0 acc.1) eqn:Hpos; [done|]. exfalso.
  assert (0 < acc.1)%Q as Hlt by lra. apply Qltb_lt in Hlt. congruence.
- intros Hscore. destruct (decide (acc.2 = [])) as [|Hne]; [done|]. exfalso.
  specialize (Hcons Hne). unfold max0 in Hscore.
  destruct (Qltb 0 acc.1); lra.
Qed.

(** X17: the score [_validate_single_file_quality] gives a file lies
  between 0 and 10, the file gets the full 10 exactly when no issue is
  reported for it, and at most nine issues are reported. *)
Theorem single_file_score_range file_path content :
let fs := _validate_single_file_quality re_search file_path content in
(0 <= score fs <= 10)%Q
∧ (issues fs = [] ↔ (score fs == 10)%Q)
∧ length (issues fs) ≤ 9
∧ NodeHandler.file_path fs = file_path.
Proof.
intros fs.
destruct (single_file_consistent file_path content) as [Hrange Hiff].
fold fs in Hrange, Hiff. split; [done|]. split; [done|].
subst fs. unfold _validate_single_file_quality.
destruct (PyStr.endswith ".sql" file_path || PyStr.endswith ".env.example" file_path).
{ cbn [issues NodeHandler.file_path]. split; [simpl; lia | done]. }
cbn [issues NodeHandler.file_path]. split; [|done].
repeat apply check_length. simpl. lia.
Qed.

Local Abbreviation file_quality := (_validate_single_file_quality re_search).

Lemma inject_nat_succ (n : nat) :
(inject_Z (Z.of_nat (S n)) == inject_Z (Z.of_nat n) + 1)%Q.
Proof. by rewrite Nat2Z.inj_succ, <- Z.add_1_r, inject_Z_plus. Qed.

Lemma validate_files_loop (l : CodeFiles) total scores found :
NoDup (Dict.keys scores ++ Dict.keys l) →
let '(total', scores', found') :=
  fold_left
    (fun '(total_score, file_scores, issues) '(file_path, content) =>
       let file_score := file_quality file_path content in
       ((total_score + score file_score)%Q,
        Dict.set file_path file_score file_scores,
        issues ++ NodeHandler.issues file_score))
    l (total, scores, found) in
(total' == total + foldr (fun kv acc => score (file_quality kv.1 kv.2) + acc) 0 l)%Q
∧ scores' = scores ++ map (fun kv => (kv.1, file_quality kv.1 kv.2)) l
∧ found' = found ++ concat (map (fun kv => issues (file_quality kv.1 kv.2)) l).
Proof.
revert total scores found.
induction l as [|[p c] l IH]; intros total scores found Hnd.
- simpl. split_and!; [lra | by rewrite app_nil_r | by rewrite app_nil_r].
- cbn [fold_left].
  assert (p ∉ Dict.keys scores) as Hfresh.
  { apply NoDup_app in Hnd as (_ & Hdisj & _). intros Hin.
    apply (Hdisj p Hin). unfold Dict.keys. simpl. set_solver. }
  rewrite (dict_set_fresh scores p (file_quality p c) Hfresh).
  specialize (IH (total + score (file_quality p c))%Q
                (scores ++ [(p, file_quality p c)])
                (found ++ issues (file_quality p c))).
  destruct (fold_left _ l _) as [[total' scores'] found'].
  destruct IH as (Ht & Hs & Hf).
  { unfold Dict.keys in *. rewrite fmap_app, <- app_assoc. exact Hnd. }
  split_and!.
  + rewrite Ht. simpl. lra.
  + rewrite Hs, <- app_assoc. done.
  + rewrite Hf, <- app_assoc. done.
Qed.

Lemma score_sum_range (l : CodeFiles) :
let sum := foldr (fun kv acc => score (file_quality kv.1 kv.2) + acc)%Q 0%Q l in
(0 <= sum <= 10 * inject_Z (Z.of_nat (length l)))%Q
∧ ((sum == 10 * inject_Z (Z.of_nat (length l)))%Q
   ↔ concat (map (fun kv => issues (file_quality kv.1 kv.2)) l) = []).
Proof.
induction l as [|[p c] l IH].
- simpl. change (inject_Z (Z.of_nat 0)) with 0%Q.
  split; [lra|]. split; [done | intros _; lra].
- cbn [foldr length map concat fst snd]. cbn zeta in IH.
  destruct IH as ((Hlo & Hhi) & Hiff).
  destruct (single_file_consistent p c) as ((Hp0 & Hp10) & Hpiff).
  cbn zeta in Hp0, Hp10, Hpiff.
  rewrite inject_nat_succ. split; [lra|]. split.
  + intros Hsum. apply app_nil. split.
    * apply Hpiff. lra.
    * apply Hiff. lra.
  + intros Hnil. apply app_nil in Hnil as [Hp Hl].
    apply Hpiff in Hp. apply Hiff in Hl. lra.
Qed.

Lemma Qdiv_nat_range (total bound : Q) (n : nat) :
0 < n →
(0 <= total <= bound * inject_Z (Z.of_nat n))%Q →
(0 <= Qdiv_nat total n <= bound)%Q
∧ ((Qdiv_nat total n == bound)%Q ↔ (total == bound * inject_Z (Z.of_nat n))%Q).
Proof.
intros Hn [Hlo Hhi]. unfold Qdiv_nat.
assert (0 < inject_Z (Z.of_nat n))%Q as Hpos.
{ change 0%Q with (inject_Z 0). rewrite <- Zlt_Qlt. lia. }
generalize dependent (inject_Z (Z.of_nat n)). intros d Hhi Hpos.
split; [split|split].
- apply Qle_shift_div_l; [done | lra].
- by apply Qle_shift_div_r.
- intros Heq. rewrite <- Heq. field. lra.
- intros Heq. rewrite Heq. field. lra.
Qed.

(** X18: the report of [_validate_code_quality] on a file map. The
  overall score lies between 0 and 10; every file has its own entry,
  in the order of the file map, holding what
  [_validate_single_file_quality] says about it; the issues are those
  of the files, in that order; and a file map that is not empty scores
  the full 10 exactly when no issue is reported. An empty file map
  scores 0. *)
Theorem code_quality_report (code_files : CodeFiles) :
NoDup (Dict.keys code_files) →
let report := _validate_code_quality re_search code_files in
(0 <= overall_score report <= 10)%Q
∧ file_scores report
  = map (fun kv => (kv.1, _validate_single_file_quality re_search kv.1 kv.2))
      code_files
∧ report_issues report
  = concat (map (fun kv => issues (_validate_single_file_quality re_search kv.1 kv.2))
              code_files)
∧ (code_files ≠ [] → ((overall_score report == 10)%Q ↔ report_issues report = []))
∧ (code_files = [] → overall_score report = 0%Q).
Proof.
intros Hnd report. subst report. unfold _validate_code_quality, validate_files.
pose proof (validate_files_loop code_files 0 [] [] Hnd) as Hloop.
destruct (fold_left _ code_files _) as [[total scores] found].
destruct Hloop as (Ht & -> & ->). cbn [overall_score file_scores report_issues].
rewrite !app_nil_l.
split; [|split; [done|split; [done|split]]].
- destruct code_files as [|kv l] eqn:Hfiles; [lra|]. rewrite <- Hfiles in *.
  destruct (score_sum_range code_files) as [Hrange _]. cbn zeta in Hrange.
  apply Qdiv_nat_range; [subst; simpl; lia|]. rewrite Ht. lra.
- intros Hne. destruct code_files as [|kv l] eqn:Hfiles; [done|].
  rewrite <- Hfiles in *.
  destruct (score_sum_range code_files) as [Hrange Hiff]. cbn zeta in Hrange, Hiff.
  rewrite <- Hiff.
  etrans; [apply Qdiv_nat_range; [subst; simpl; lia | rewrite Ht; lra]|].
  rewrite Ht. split; intros Heq; lra.
- by intros ->.
Qed.
End QualityFacts.

Section QualityExamples.
Import Results BaseHandler NodeHandler.

Lemma code_quality_report_witness :
NoDup (Dict.keys basic_structure)
∧ (0 <= overall_score (_validate_code_quality no_match basic_structure) <= 10)%Q.
Proof.
assert (NoDup (Dict.keys basic_structure)) as Hnd
  by (vm_compute; repeat constructor; set_solver).
split; [exact Hnd|].
exact (proj1 (code_quality_report no_match basic_structure Hnd)).
Defined.
End QualityExamples.

(** ** The text-block fallback and the merge of improved files *)
Section FallbackFacts.
Import Results BaseHandler NodeHandler.
Variable json_loads : string -> option json.
Variable findall_file_pattern : string -> list (string * string).

Lemma keep_block_elem (code_files : CodeFiles) (m : string * string) path text :
(path, text) ∈ keep_block code_files m →
(path, text) ∈ code_files ∨ (clean_block m = (path, text)
                             ∧ path ≠ EmptyString ∧ (50 < PyStr.len text)%Z).
Proof.
unfold keep_block. destruct (clean_block m) as [p c] eqn:Hclean.
destruct (negb (String.eqb p EmptyString)) eqn:Hp; [|by left].
destruct (negb (String.eqb c EmptyString)) eqn:Hc; [|by left].
destruct (50 <? PyStr.len c)%Z eqn:Hlen; [|by left].
cbn [andb]. intros Hin.
apply negb_true_iff, String.eqb_neq in Hp. apply Z.ltb_lt in Hlen.
induction code_files as [|[k v] d IH]; simpl in Hin.
- apply list_elem_of_singleton in Hin. injection Hin as -> ->. by right.
- case_decide as Hk.
  + apply elem_of_cons in Hin as [Hin|Hin].
    * injection Hin as -> ->. by right.
    * left. set_solver.
  + apply elem_of_cons in Hin as [Hin|Hin].
    * left. set_solver.
    * destruct (IH Hin) as [?|?]; [left; set_solver | by right].
Qed.

(** X19: the files [_extract_code_blocks_fallback] returns. The result is
  never empty. It is the three-file skeleton, or every file in it comes
  from a block the scan found: the cleaned path is not empty and the
  cleaned content is longer than 50 characters. No path occurs twice. *)
Theorem fallback_files response :
let files := _extract_code_blocks_fallback findall_file_pattern response in
files ≠ []
∧ NoDup (Dict.keys files)
∧ (files = basic_structure
   ∨ ∀ path text, (path, text) ∈ files →
       path ≠ EmptyString ∧ (50 < PyStr.len text)%Z
       ∧ ∃ m, m ∈ findall_file_pattern response ∧ clean_block m = (path, text)).
Proof.
intros files. subst files. split_and!.
- apply fallback_nonempty.
- apply fallback_NoDup.
- unfold _extract_code_blocks_fallback.
  assert (∀ (l : list (string * string)) (d : CodeFiles) path text,
            (path, text) ∈ fold_left keep_block l d →
            (path, text) ∈ d
            ∨ (path ≠ EmptyString ∧ (50 < PyStr.len text)%Z
               ∧ ∃ m, m ∈ l ∧ clean_block m = (path, text))) as Hfold.
  { induction l as [|m l IH]; intros d path text Hin; simpl in Hin; [by left|].
    destruct (IH _ _ _ Hin) as [Hd|(Hp & Hlen & m' & Hm' & Hclean)].
    - destruct (keep_block_elem d m path text Hd) as [?|(Hclean & Hp & Hlen)];
        [by left|].
      right. split_and!; [done | done |]. exists m. split; [set_solver | done].
    - right. split_and!; [done | done |]. exists m'. split; [set_solver | done]. }
  destruct (fold_left keep_block (findall_file_pattern response) []) as [|kv d] eqn:Hfiles;
    [by left|].
  right. intros path text Hin. rewrite <- Hfiles in Hin.
  destruct (Hfold _ _ _ _ Hin) as [Hnil|?]; [by apply elem_of_nil in Hnil | done].
Qed.

Lemma dict_get_update {V} (d e : list (string * V)) k :
NoDup (Dict.keys e) →
Dict.get k (Dict.update d e)
= match Dict.get k e with Some v => Some v | None => Dict.get k d end.
Proof.
unfold Dict.update. revert d. induction e as [|[k' v'] e IH]; intros d Hnd; [done|].
cbn [fold_left fst snd]. unfold Dict.keys in Hnd. simpl in Hnd.
apply NoDup_cons in Hnd as [Hfresh Hnd].
rewrite IH by done. simpl. case_decide as Hk.
- subst k'. assert (Dict.get k e = None) as -> by by apply dict_get_None.
  apply dict_get_set_eq.
- destruct (Dict.get k e); [done|]. by apply dict_get_set_ne.
Qed.
End FallbackFacts.

(** ** Improvement cycles and whole runs of the Node.js handler *)
Section RunFacts.
Import Results BaseHandler NodeHandler.
Variable re_search : string -> string -> bool.
Variable json_loads : string -> option json.
Variable findall_file_pattern : string -> list (string * string).
Variable _extract_node_contracts : CodeFiles -> list string -> Contracts.

Local Abbreviation parse := (_parse_node_response json_loads findall_file_pattern).
Local Abbreviation validate := (_validate_code_quality re_search).
Local Abbreviation apply_improvements client :=
(_apply_improvements re_search json_loads findall_file_pattern
   _extract_node_contracts client).
Local Abbreviation generate client :=
(NodeHandler.generate_code re_search json_loads findall_file_pattern
   _extract_node_contracts client).

Lemma request_with_retry_calls client calls :
calls ≤ (request_with_retry client calls).2 ≤ calls + 3.
Proof. apply retry_loop_calls. Qed.

(** One improvement step: it never raises, touches only the call
  counter, and either gives the current result back or merges the
  files of one response into it. *)
Lemma apply_improvements_effect client current target st :
∃ r calls,
  apply_improvements client current target st = (inr r, with_oracle_calls calls st)
  ∧ oracle_calls st ≤ calls ≤ oracle_calls st + 3
  ∧ (r = current
     ∨ ∃ text usage,
         r = {| success := true;
                Results.handler_type := node_handler_type;
                features_implemented := features_implemented current;
                code_files := Dict.update (code_files current) (parse text);
                contracts :=
                  _extract_node_contracts
                    (Dict.update (code_files current) (parse text))
                    (features_implemented current);
                quality_score :=
                  overall_score (validate (Dict.update (code_files current) (parse text)));
                tokens_used := (tokens_used current + usage_tokens usage)%Z;
                error_message := None;
                refinement_cycles := refinement_cycles current |}).
Proof.
pose proof (request_with_retry_calls client (oracle_calls st)) as Hcalls.
destruct (request_with_retry client (oracle_calls st)) as [[e|[text usage]] calls]
  eqn:Hreq.
- rewrite (apply_improvements_swallows _ _ _ _ _ _ _ _ _ _ Hreq).
  exists current, calls. simpl in Hcalls. split_and!; [done | lia | lia | by left].
- rewrite (apply_improvements_reply _ _ _ _ _ _ _ _ _ _ _ Hreq).
  eexists _, calls. simpl in Hcalls. split_and!; [done | lia | lia |]. eauto.
Qed.

Lemma merged_files_keep_paths (files : CodeFiles) text path :
is_Some (Dict.get path files) →
is_Some (Dict.get path (Dict.update files (parse text))).
Proof.
intros Hsome. rewrite dict_get_update by apply parse_NoDup.
by destruct (Dict.get path (parse text)).
Qed.

(** X20: one improvement step of the Node.js handler,
  [_apply_improvements]. It never raises, makes at most three calls to
  the oracle, and touches neither the events nor the generation
  history. The result is the current result unchanged, or the current
  result with the files of one response merged in: a path the response
  has maps to the new content, every other path keeps its content, so
  no file is ever removed; the score is that of the merged file map
  and the tokens used add up. The features and the cycle count stay as
  they were. *)
Theorem improvement_step_merges_files client current target st :
∃ r st',
  apply_improvements client current target st = (inr r, st')
  ∧ events st' = events st
  ∧ generation_history st' = generation_history st
  ∧ oracle_calls st ≤ oracle_calls st' ≤ oracle_calls st + 3
  ∧ features_implemented r = features_implemented current
  ∧ refinement_cycles r = refinement_cycles current
  ∧ (∀ path, is_Some (Dict.get path (code_files current)) →
             is_Some (Dict.get path (code_files r)))
  ∧ (r = current
     ∨ ∃ text usage,
         (∀ path, Dict.get path (code_files r)
                  = match Dict.get path (parse text) with
                    | Some new => Some new
                    | None => Dict.get path (code_files current)
                    end)
         ∧ quality_score r = overall_score (validate (code_files r))
         ∧ tokens_used r = (tokens_used current + usage_tokens usage)%Z
         ∧ success r = true).
Proof.
destruct (apply_improvements_effect client current target st)
  as (r & calls & Hrun & Hcalls & Hr).
exists r, (with_oracle_calls calls st).
split; [done|]. split; [done|]. split; [done|]. split; [exact Hcalls|].
destruct Hr as [->|(text & usage & ->)].
- split_and!; [done | done | done | by left].
- cbn [features_implemented refinement_cycles code_files quality_score
       tokens_used success].
  split_and!; [done | done | intros path; apply merged_files_keep_paths |].
  right. exists text, usage. split_and!; [|done|done|done].
  intros path. apply dict_get_update, parse_NoDup.
Qed.

Lemma improvement_step_effect client current target st :
∃ r calls,
  apply_improvements client current target st = (inr r, with_oracle_calls calls st)
  ∧ oracle_calls st ≤ calls ≤ oracle_calls st + 3
  ∧ features_implemented r = features_implemented current
  ∧ (success current = true → success r = true)
  ∧ (∀ path, is_Some (Dict.get path (code_files current)) →
             is_Some (Dict.get path (code_files r))).
Proof.
destruct (apply_improvements_effect client current target st)
  as (r & calls & Hrun & Hcalls & Hr).
exists r, calls. split; [done|]. split; [exact Hcalls|].
destruct Hr as [->|(text & usage & ->)]; [done|].
cbn [features_implemented code_files success].
split_and!; [done | done | intros path; apply merged_files_keep_paths].
Qed.

Section Loop.
Variable client : option Oracle.
Variable cfg : Config.

(** The loop of [_refine_until_quality_met]: [cycle] cycles are done and
[remaining] are left. *)
Lemma refine_loop_outcome remaining cycle current target cid st :
∃ r st',
refine_loop cfg (apply_improvements client) remaining cycle current target cid st
= (inr r, st')
∧ generation_history st' = generation_history st
∧ oracle_calls st ≤ oracle_calls st' ≤ oracle_calls st + 3 * remaining
∧ features_implemented r = features_implemented current
∧ (success current = true → success r = true)
∧ (∀ path, is_Some (Dict.get path (code_files current)) →
           is_Some (Dict.get path (code_files r)))
∧ ((r = current ∧ st' = st
    ∧ (Qltb (quality_score current) target = false ∨ remaining = 0))
   ∨ (cycle < refinement_cycles r ≤ cycle + remaining
      ∧ (Qltb (quality_score r) target = true →
         refinement_cycles r = cycle + remaining))).
Proof.
revert cycle current st.
induction remaining as [|remaining IH]; intros cycle current st; simpl.
{ exists current, st. split_and!; try done; try lia. left. auto. }
destruct (Qltb (quality_score current) target) eqn:Hlow.
2:{ exists current, st. split_and!; try done; try lia. left. auto. }
unfold mbind, M_bind, bind.
destruct (improvement_step_effect client current target st)
as (improved & calls & -> & Hc1 & Hf1 & Hs1 & Hp1).
set (st1 := with_oracle_calls calls st).
destruct (publish_effect "refinement_cycle_completed"
          (RefinementCycleCompleted (handler_type cfg) (S cycle)
             (quality_score improved) target)
          (handler_type cfg) cid st1)
as (ev & b & Hpub & _).
cbn [quality_score with_refinement_cycles].
rewrite Hpub.
destruct (IH (S cycle) (with_refinement_cycles (S cycle) improved)
          (with_events b st1))
as (r & st2 & -> & Hh2 & Hc2 & Hf2 & Hs2 & Hp2 & Hout).
exists r, st2. cbn in Hh2, Hc2, Hf2, Hs2, Hp2.
split_and!.
- done.
- congruence.
- lia.
- lia.
- congruence.
- auto.
- intros path Hpath. apply Hp2, Hp1, Hpath.
- right. destruct Hout as [(-> & _ & Hstop)|(Hrange & Hfull)].
+ cbn [refinement_cycles with_refinement_cycles quality_score].
  split; [lia|]. intros Hstill.
  destruct Hstop as [Hstop | ->]; [|lia].
  cbn [quality_score with_refinement_cycles] in Hstop. congruence.
+ split; [lia|]. intros Hstill. rewrite (Hfull Hstill). lia.
Qed.
End Loop.

(** X21: [_refine_until_quality_met] of the Node.js handler always
  returns. It gives the initial result back untouched, which happens
  only when that result meets the target or no cycle is allowed; or it
  has run between one and [max_refinement_cycles] improvement cycles
  and the result says how many. It stops short of the limit only with
  a result that meets the target. Every path of the initial result is
  still in the file map at the end, and each cycle costs at most three
  calls to the oracle. *)
Theorem refinement_stops_at_target_or_limit client cfg initial target cid st :
∃ r st',
  _refine_until_quality_met cfg (apply_improvements client) initial target cid st
  = (inr r, st')
  ∧ oracle_calls st ≤ oracle_calls st'
    ≤ oracle_calls st + 3 * max_refinement_cycles cfg
  ∧ features_implemented r = features_implemented initial
  ∧ (∀ path, is_Some (Dict.get path (code_files initial)) →
             is_Some (Dict.get path (code_files r)))
  ∧ ((r = initial ∧ st' = st
      ∧ ((target <= quality_score initial)%Q ∨ max_refinement_cycles cfg = 0))
     ∨ (1 ≤ refinement_cycles r ≤ max_refinement_cycles cfg
        ∧ ((quality_score r < target)%Q →
           refinement_cycles r = max_refinement_cycles cfg))).
Proof.
unfold _refine_until_quality_met.
destruct (refine_loop_outcome client cfg (max_refinement_cycles cfg) 0 initial
            target cid st)
  as (r & st' & -> & _ & Hcalls & Hf & _ & Hpaths & Hout).
exists r, st'. split_and!; [done | lia | lia | done | done |].
destruct Hout as [(-> & -> & Hstop)|(Hrange & Hfull)].
- left. split_and!; [done | done |].
  destruct Hstop as [Hstop | Hstop]; [left | by right].
  destruct (Qlt_le_dec (quality_score initial) target) as [Hlt|Hle]; [|done].
  apply Qltb_lt in Hlt. congruence.
- right. split; [lia|]. intros Hlt. apply Qltb_lt in Hlt.
  rewrite (Hfull Hlt). lia.
Qed.

(** X22: what a run of [generate_code] of the Node.js handler comes to.
  It never raises. Either it succeeds: the result carries the requested
  features, it counts at most [max_refinement_cycles] cycles, it is
  below the target only if all the cycles were used, and exactly one
  entry, describing this result, is appended to the generation history.
  Or it fails: the result is the failure result with the message of the
  exception, the generation history is as before, and no cycle was
  run. A run makes at most three calls to the oracle for the initial
  generation and three for each cycle. *)
Theorem generate_code_outcome client cfg features target st :
∃ r st',
  generate client cfg features target st = (inr r, st')
  ∧ oracle_calls st ≤ oracle_calls st'
    ≤ oracle_calls st + 3 * S (max_refinement_cycles cfg)
  ∧ ((success r = true
      ∧ features_implemented r = features
      ∧ refinement_cycles r ≤ max_refinement_cycles cfg
      ∧ ((quality_score r < target)%Q →
         refinement_cycles r = max_refinement_cycles cfg)
      ∧ generation_history st'
        = generation_history st
          ++ [{| h_features := features_implemented r;
                 h_quality_score := quality_score r;
                 h_patterns_used := [];
                 h_contracts := contracts r |}])
     ∨ (∃ e, r = failure_result cfg e
             ∧ generation_history st' = generation_history st
             ∧ oracle_calls st' ≤ oracle_calls st + 3)).
Proof.
unfold NodeHandler.generate_code, BaseHandler.generate_code.
unfold mbind, M_bind, bind, try_except.
destruct (create_correlation_id_effect st) as (cid & b & -> & _ & _).
unfold _generate_with_chunked_context.
destruct client as [oracle|].
2:{ unfold raise.
    match goal with
    | |- context [publish ?et ?p ?src cid ?s] =>
        destruct (publish_effect et p src cid s) as (ev & b' & -> & _)
    end.
    eexists _, _. split; [reflexivity|]. cbn. split; [lia|].
    right. eexists. split_and!; [reflexivity | done | lia]. }
unfold _claude_request_with_retry, mbind, M_bind, bind, mret, M_ret, ret.
cbn [oracle_calls with_events].
pose proof (request_with_retry_calls (Some oracle) (oracle_calls st)) as Hreq.
destruct (request_with_retry (Some oracle) (oracle_calls st))
  as [[e|response] calls]; cbn [snd] in Hreq.
{ match goal with
  | |- context [publish ?et ?p ?src cid ?s] =>
      destruct (publish_effect et p src cid s) as (ev & b' & -> & _)
  end.
  eexists _, _. split; [reflexivity|]. cbn. split; [lia|].
  right. eexists. split_and!; [reflexivity | done | lia]. }
cbn [fst snd quality_score].
match goal with
| |- context [if Qltb ?q target then _ else _] =>
    destruct (Qltb q target) eqn:Hlow
end.
- unfold _refine_until_quality_met.
  match goal with
  | |- context [refine_loop _ _ _ 0 ?c target cid ?s] =>
      destruct (refine_loop_outcome (Some oracle) cfg
                  (max_refinement_cycles cfg) 0 c target cid s)
        as (r & st3 & -> & Hh & Hcalls & Hf & Hs & _ & Hout)
  end.
  unfold _finalize_generation.
  match goal with
  | |- context [publish ?et ?p ?src cid ?s] =>
      destruct (publish_effect et p src cid s) as (ev & b' & -> & _)
  end.
  eexists r, _. split; [reflexivity|].
  cbn in Hh, Hcalls, Hf, Hs. cbn. split; [lia|]. left.
  split_and!; [by apply Hs | done | | | by rewrite Hh].
  + destruct Hout as [(-> & _)|(Hrange & _)]; [simpl|]; lia.
  + intros Hlt. apply Qltb_lt in Hlt.
    destruct Hout as [(-> & _ & Hstop)|(_ & Hfull)].
    * destruct Hstop as [Hstop | ->]; [|done].
      cbn [quality_score] in Hstop, Hlt. congruence.
    * rewrite (Hfull Hlt). lia.
- unfold _finalize_generation.
  match goal with
  | |- context [publish ?et ?p ?src cid ?s] =>
      destruct (publish_effect et p src cid s) as (ev & b' & -> & _)
  end.
  eexists _, _. split; [reflexivity|]. cbn. split; [lia|]. left.
  split_and!; [done | done | lia | | done].
  intros Hlt. apply Qltb_lt in Hlt. congruence.
Qed.
End RunFacts.

(** ** The refinement cycles of the coordinator *)
Section CoordinatorRefinement.
Import Results QualityCoordinator.
Variable re_search_ignorecase : string -> string -> bool.
Variable format_score : Q -> string.
Implicit Types (handler_results : HandlerResults) (bus : Bus).

Local Abbreviation assess := (_assess_cross_stack_quality re_search_ignorecase).

(** The channel after the cycles [first], [first + 1], ... have published
  their events about a report that stays the same. *)
Local Abbreviation publish_cycles report target first count bus :=
(fold_left
   (fun b cycle =>
      publish_cycle cycle (with_refinement_cycles cycle report) target
        (length (_prioritize_issues report)) b)
   (seq first count) bus).

Lemma refine_cycles_fixed handler_results target remaining cycle report bus :
Qle_bool target (overall_score (assess handler_results)) = false →
critical_issues report = critical_issues (assess handler_results) →
refine_cycles re_search_ignorecase remaining cycle handler_results report target bus
= (match remaining with
   | O => report
   | S _ => with_refinement_cycles (cycle + remaining) (assess handler_results)
   end,
   publish_cycles (assess handler_results) target (S cycle) remaining bus).
Proof.
intros Hlow. revert cycle report bus.
induction remaining as [|remaining IH]; intros cycle report bus Hcritical; [done|].
cbn [refine_cycles seq fold_left].
unfold _apply_coordinated_improvements.
cbn [overall_score with_refinement_cycles]. rewrite Hlow.
rewrite IH by done.
unfold _prioritize_issues. rewrite Hcritical. f_equal.
destruct remaining as [|remaining]; f_equal; lia.
Qed.

(** X23: the refinement cycles of [validate_and_refine] change nothing.
  When the first assessment meets the target, that report is returned
  and nothing is published. Otherwise all five cycles run, each
  re-assessing the very same handler results and publishing one
  progress event with the same score; what is returned is the first
  assessment again, with the cycle count 5 and the recommendation of a
  human review appended. *)
Theorem validate_and_refine_changes_nothing handler_results target bus :
let report := _assess_cross_stack_quality re_search_ignorecase handler_results in
validate_and_refine re_search_ignorecase format_score handler_results target bus
= if Qle_bool target (overall_score report)
  then (report, bus)
  else (with_recommendation (human_review format_score report)
          (with_refinement_cycles 5 report),
        fold_left
          (fun b cycle =>
             publish_cycle cycle (with_refinement_cycles cycle report) target
               (length (take 3 (critical_issues report))) b)
          [1; 2; 3; 4; 5] bus).
Proof.
intros report. subst report. unfold validate_and_refine.
destruct (Qle_bool target (overall_score (assess handler_results))) eqn:Hlow; [done|].
rewrite (refine_cycles_fixed handler_results target) by done.
unfold max_refinement_cycles. cbn [Nat.add overall_score with_refinement_cycles].
unfold Qltb. rewrite Hlow. reflexivity.
Qed.

Lemma mean_handler_score_nonneg handler_results :
Forall (fun hr => 0 <= quality_score hr.2)%Q handler_results →
(0 <= mean_handler_score handler_results)%Q.
Proof.
intros Hpos. unfold mean_handler_score.
destruct handler_results as [|hr l] eqn:Hl; [done|]. rewrite <- Hl in *.
assert (0 <= foldr (fun hr acc => quality_score hr.2 + acc) 0 handler_results)%Q
  as Hsum.
{ clear Hl. induction Hpos as [|x l' Hx Hl' IH]; simpl; [done | lra]. }
unfold Qdiv_nat. apply Qle_shift_div_l; [|lra].
change 0%Q with (inject_Z 0). rewrite <- Zlt_Qlt. subst. simpl. lia.
Qed.

(** X24: with handler scores that are not negative, a target of 14.4 or
  less is met by the first assessment, whatever the handlers produced:
  the three categories of fixed-score validators alone bring the
  overall score to 14.4. So [validate_and_refine] with such a target,
  and with its default target of 8 in particular, returns the first
  assessment, runs no refinement cycle and publishes no event. *)
Theorem validate_and_refine_never_refines handler_results target bus :
(target <= 72 # 5)%Q →
Forall (fun hr => 0 <= quality_score hr.2)%Q handler_results →
validate_and_refine re_search_ignorecase format_score handler_results target bus
= (_assess_cross_stack_quality re_search_ignorecase handler_results, bus)
∧ (72 # 5 <= overall_score
               (_assess_cross_stack_quality re_search_ignorecase handler_results))%Q.
Proof.
intros Htarget Hpos.
assert (72 # 5 <= overall_score (assess handler_results))%Q as Hoverall.
{ destruct (assess_scores re_search_ignorecase handler_results) as [Hcross ->].
  rewrite Hcross.
  pose proof (weighted_category_sum_lower_bound re_search_ignorecase handler_results).
  pose proof (mean_handler_score_nonneg handler_results Hpos). lra. }
split; [|done]. unfold validate_and_refine.
assert (Qle_bool target (overall_score (assess handler_results)) = true) as ->; [|done].
apply Qle_bool_iff. lra.
Qed.
End CoordinatorRefinement.

Section CoordinatorRefinementExamples.
Import Results QualityCoordinator.

Lemma validate_and_refine_never_refines_witness :
validate_and_refine NodeHandler.no_match (fun _ => "score") users_vs_other 8
  EventBus.init
= (_assess_cross_stack_quality NodeHandler.no_match users_vs_other, EventBus.init).
Proof.
refine (proj1 (validate_and_refine_never_refines NodeHandler.no_match
                 (fun _ => "score") users_vs_other 8 EventBus.init _ _)).
- vm_compute. discriminate.
- repeat constructor; vm_compute; discriminate.
Defined.
End CoordinatorRefinementExamples.

(** ** The validators of the coordinator *)
Section ValidatorRanges.
Import Results QualityCoordinator.
Implicit Types (handler_results : HandlerResults).

Local Ltac score_cases :=
repeat case_match; simplify_eq; cbn [score issues fst snd];
(split; [split; [first [apply max0_nonneg | lra]
                | first [apply max0_le; lra | lra]] |]);
(split; [intros Hnil; first [reflexivity | by destruct Hnil | discriminate Hnil]
        | intros Hten; first [reflexivity | vm_compute in Hten; discriminate Hten]]).

Lemma api_consistency_range handler_results r :
_validate_api_consistency handler_results = inr r →
(0 <= score r <= 10)%Q ∧ (issues r = [] ↔ (score r == 10)%Q).
Proof. unfold _validate_api_consistency. intros Hr. score_cases. Qed.

Lemma data_model_consistency_range handler_results r :
_validate_data_model_consistency handler_results = inr r →
(0 <= score r <= 10)%Q ∧ (issues r = [] ↔ (score r == 10)%Q).
Proof. unfold _validate_data_model_consistency. intros Hr. score_cases. Qed.

Lemma authentication_consistency_range handler_results r :
_validate_authentication_consistency handler_results = inr r →
(0 <= score r <= 10)%Q ∧ (issues r = [] ↔ (score r == 10)%Q).
Proof. unfold _validate_authentication_consistency. intros Hr. score_cases. Qed.

Lemma authentication_security_range handler_results r :
_validate_authentication_security handler_results = inr r →
(0 <= score r <= 10)%Q ∧ (issues r = [] ↔ (score r == 10)%Q).
Proof. unfold _validate_authentication_security. intros Hr. score_cases. Qed.

Lemma backend_endpoint_set_error apis e :
backend_endpoint_set apis = inl e →
e = PyStr.repr "method" ∨ e = PyStr.repr "path".
Proof.
induction apis as [|api apis IH]; simpl; [done|].
unfold item. repeat case_match; intros He; simplify_eq; auto.
Qed.

Section RuleTable.
Variable re_search_ignorecase : string -> string -> bool.

Lemma input_sanitization_range handler_results r :
_validate_input_sanitization re_search_ignorecase handler_results = inr r →
(0 <= score r <= 10)%Q.
Proof.
unfold _validate_input_sanitization. intros Hr. simplify_eq. cbn [score].
split; [apply max0_nonneg|]. apply max0_le; [done|].
assert (∀ (l : HandlerResults) (acc : Q * list CrossStackIssue),
        (acc.1 <= 10)%Q →
        ((fold_left
            (fun (acc : Q * list CrossStackIssue) '(handler_name, result) =>
               let has_sanitization :=
                 existsb (fun content =>
                            existsb (fun pattern => re_search_ignorecase pattern content)
                              security_patterns)
                   (Dict.values (code_files result)) in
               if negb has_sanitization
                  && bool_decide (handler_name ∈ ["backend"; "frontend"])
               then ((acc.1 - 3)%Q,
                     acc.2 ++
                     [{| issue_type := "security_gap";
                         severity := "critical";
                         description :=
                           "No input sanitization patterns found in " +:+ handler_name;
                         affected_handlers := [handler_name];
                         suggested_fix := "Add input validation and sanitization" |}])
               else acc)
            l acc).1 <= 10)%Q) as Hfold.
{ induction l as [|[h res] l IH]; intros acc Hacc; [done|].
cbn [fold_left]. apply IH. case_match; [cbn [fst]; lra | done]. }
apply Hfold. done.
Qed.

(** X25: every validator of the rule table, run on any handler results,
returns a score between 0 and 10, with one exception:
[_validate_api_consistency] raises a [KeyError] for [method] or
[path] when a backend endpoint declaration lacks that key. No other
validator of the table can raise. *)
Theorem validators_score_between_0_and_10 handler_results :
Forall
(fun rule =>
   Forall
     (fun v : string * Validator =>
        match v.2 handler_results with
        | inr r => (0 <= score r <= 10)%Q
        | inl e =>
            v.1 = "_validate_api_consistency"
            ∧ (e = PyStr.repr "method" ∨ e = PyStr.repr "path")
        end)
     (validators rule))
(validation_rules re_search_ignorecase).
Proof.
assert (∀ name, match placeholder handler_results with
              | inr r => (0 <= score r <= 10)%Q
              | inl e => name = "_validate_api_consistency"
                         ∧ (e = PyStr.repr "method" ∨ e = PyStr.repr "path")
              end) as Hplaceholder.
{ intros name. unfold placeholder. cbn [score]. lra. }
unfold validation_rules.
repeat (apply Forall_cons; split); try apply Forall_nil; try exact I;
cbn [validators fst snd]; try apply Hplaceholder.
- destruct (_validate_api_consistency handler_results) as [e|r] eqn:Hrun.
+ split; [done|]. unfold _validate_api_consistency in Hrun.
  repeat case_match; simplify_eq. by eapply backend_endpoint_set_error.
+ by apply api_consistency_range in Hrun as [? _].
- destruct (_validate_data_model_consistency handler_results) as [e|r] eqn:Hrun.
+ unfold _validate_data_model_consistency in Hrun. repeat case_match; simplify_eq.
+ by apply data_model_consistency_range in Hrun as [? _].
- destruct (_validate_authentication_consistency handler_results) as [e|r] eqn:Hrun.
+ unfold _validate_authentication_consistency in Hrun.
  repeat case_match; simplify_eq.
+ by apply authentication_consistency_range in Hrun as [? _].
- destruct (_validate_input_sanitization re_search_ignorecase handler_results)
  as [e|r] eqn:Hrun.
+ unfold _validate_input_sanitization in Hrun. simplify_eq.
+ by apply input_sanitization_range in Hrun.
- destruct (_validate_authentication_security handler_results) as [e|r] eqn:Hrun.
+ unfold _validate_authentication_security in Hrun. repeat case_match; simplify_eq.
+ by apply authentication_security_range in Hrun as [? _].
Qed.
End RuleTable.

Local Ltac floor_cases :=
repeat case_match; simplify_eq; cbn [score issues fst snd]; by vm_compute.

Lemma api_consistency_floor handler_results r :
_validate_api_consistency handler_results = inr r → (6 <= score r)%Q.
Proof. unfold _validate_api_consistency. intros Hr. floor_cases. Qed.

Lemma data_model_consistency_floor handler_results r :
_validate_data_model_consistency handler_results = inr r → (7 <= score r)%Q.
Proof. unfold _validate_data_model_consistency. intros Hr. floor_cases. Qed.

Lemma authentication_consistency_floor handler_results r :
_validate_authentication_consistency handler_results = inr r → (8 <= score r)%Q.
Proof. unfold _validate_authentication_consistency. intros Hr. floor_cases. Qed.

(** X26: [validate_contracts_only]. When it returns, the contract score
  lies between 7 and 10 and is 10 exactly when no issue is reported.
  It raises only what [_validate_api_consistency] raises: a [KeyError]
  for [method] or [path], which needs both a backend and a frontend
  result. *)
Theorem contracts_only_outcome handler_results :
match validate_contracts_only handler_results with
| inr v =>
    (7 <= contract_score v <= 10)%Q
    ∧ (contract_issues v = [] ↔ (contract_score v == 10)%Q)
    ∧ validation_type v = "contracts_only"
| inl e =>
    (e = PyStr.repr "method" ∨ e = PyStr.repr "path")
    ∧ is_Some (Dict.get "backend" handler_results)
    ∧ is_Some (Dict.get "frontend" handler_results)
end.
Proof.
unfold validate_contracts_only.
destruct (_validate_api_consistency handler_results) as [e|api] eqn:Hapi.
{ unfold _validate_api_consistency in Hapi.
  repeat case_match; simplify_eq.
  split; [by eapply backend_endpoint_set_error | by eauto]. }
destruct (_validate_data_model_consistency handler_results) as [e|model] eqn:Hmodel.
{ unfold _validate_data_model_consistency in Hmodel. repeat case_match; simplify_eq. }
destruct (_validate_authentication_consistency handler_results) as [e|auth] eqn:Hauth.
{ unfold _validate_authentication_consistency in Hauth.
  repeat case_match; simplify_eq. }
cbn [contract_score contract_issues validation_type].
destruct (api_consistency_range _ _ Hapi) as [[_ Ha] Hai].
destruct (data_model_consistency_range _ _ Hmodel) as [[_ Hm] Hmi].
destruct (authentication_consistency_range _ _ Hauth) as [[_ Hu] Hui].
pose proof (api_consistency_floor _ _ Hapi) as Ha6.
pose proof (data_model_consistency_floor _ _ Hmodel) as Hm7.
pose proof (authentication_consistency_floor _ _ Hauth) as Hu8.
assert (∀ x : Q, x / 3 == x * (1 # 3))%Q as Hthird by (intros x; field).
rewrite Hthird. split_and!; [lra | lra | | done].
split.
- intros Hnil. apply app_nil in Hnil as [Hn1 Hnil].
  apply app_nil in Hnil as [Hn2 Hn3].
  apply Hai in Hn1. apply Hmi in Hn2. apply Hui in Hn3. lra.
- intros Hten.
  assert (score api == 10)%Q as H1 by lra.
  assert (score model == 10)%Q as H2 by lra.
  assert (score auth == 10)%Q as H3 by lra.
  apply Hai in H1. apply Hmi in H2. apply Hui in H3. by rewrite H1, H2, H3.
Qed.

Lemma difference_empty_subseteq (X Y : gset string) : X ∖ Y = ∅ ↔ X ⊆ Y.
Proof.
split.
- intros Hempty x Hx. destruct (decide (x ∈ Y)) as [|Hout]; [done|].
  assert (x ∈ X ∖ Y) as Hin by set_solver. rewrite Hempty in Hin. set_solver.
- set_solver.
Qed.

(** X27: what [_validate_api_consistency] compares. With a backend and a
  frontend result whose endpoint declarations are well formed, it
  reports no issue exactly when the set of [METHOD path] strings of
  the backend equals the set of [endpoint] strings of the frontend; a
  critical issue exactly when some frontend string is not among the
  backend's, and a warning exactly when some backend string is not
  among the frontend's. *)
Theorem api_consistency_clean_iff_same_strings
  handler_results (backend frontend : HandlerResult) (endpoints : gset string) :
Dict.get "backend" handler_results = Some backend →
Dict.get "frontend" handler_results = Some frontend →
backend_endpoint_set (declared "api_endpoints" (contracts backend)) = inr endpoints →
let calls := get_set "endpoint" (declared "api_calls" (contracts frontend)) in
∃ r, _validate_api_consistency handler_results = inr r
     ∧ (issues r = [] ↔ endpoints = calls)
     ∧ ((∃ i, i ∈ issues r ∧ severity i = "critical") ↔ ¬ calls ⊆ endpoints)
     ∧ ((∃ i, i ∈ issues r ∧ severity i = "warning") ↔ ¬ endpoints ⊆ calls).
Proof.
intros Hb Hf Hset calls. unfold _validate_api_consistency.
rewrite Hb, Hf, Hset. fold calls. clearbody calls. clear Hb Hf Hset.
eexists. split; [reflexivity|]. cbn [issues].
destruct (decide (calls ∖ endpoints = ∅)) as [Hmissing|Hmissing];
  destruct (decide (endpoints ∖ calls = ∅)) as [Hunused|Hunused];
  rewrite difference_empty_subseteq in Hmissing, Hunused;
  cbn [fst snd app].
- split_and!.
  + split; [intros _; set_solver | done].
  + split; [intros (i & Hi & _); by apply elem_of_nil in Hi | set_solver].
  + split; [intros (i & Hi & _); by apply elem_of_nil in Hi | set_solver].
- split_and!.
  + split; [done | intros ->; set_solver].
  + split; [|set_solver].
    intros (i & Hi & Hsev). apply list_elem_of_singleton in Hi as ->. done.
  + split; [intros _; set_solver|]. intros _. eexists. split; [by left | done].
- split_and!.
  + split; [done | intros ->; set_solver].
  + split; [intros _; set_solver|]. intros _. eexists. split; [by left | done].
  + split; [|set_solver].
    intros (i & Hi & Hsev). apply list_elem_of_singleton in Hi as ->. done.
- split_and!.
  + split; [done | intros ->; set_solver].
  + split; [intros _; set_solver|]. intros _. eexists. split; [by left | done].
  + split; [intros _; set_solver|]. intros _.
    eexists. split; [right; by left | done].
Qed.
End ValidatorRanges.

Section ValidatorExamples2.
Import Results QualityCoordinator.

Lemma api_consistency_clean_iff_same_strings_witness :
∃ r, _validate_api_consistency users_vs_other = inr r
     ∧ (issues r = []
        ↔ ({["GET /api/users"]} : gset string)
          = get_set "endpoint" (declared "api_calls" (contracts other_frontend))).
Proof.
destruct (api_consistency_clean_iff_same_strings users_vs_other
            users_backend other_frontend {["GET /api/users"]}
            eq_refl eq_refl) as (r & Hr & Hiff & _).
- vm_compute. by f_equal.
- exists r. split; [exact Hr | exact Hiff].
Defined.
End ValidatorExamples2.

(** ** The report of an assessment *)
Section ReportFacts.
Import Results QualityCoordinator.
Variable re_search_ignorecase : string -> string -> bool.
Implicit Types (handler_results : HandlerResults) (p : Progress).

Local Abbreviation lines p :=
(length (p_critical p) + length (p_warnings p) + length (p_recommendations p)).

Lemma categorize_lines rule (found : list CrossStackIssue) p :
let p' := fold_left (categorize rule) found p in
lines p' = lines p + length found
∧ cross_stack_issues p' = cross_stack_issues p.
Proof.
revert p. induction found as [|i found IH]; intros p; cbn [fold_left length].
- split; [lia | done].
- destruct (IH (categorize rule p i)) as [Hl Hc]. cbn zeta. rewrite Hl, Hc.
  unfold categorize. repeat case_match;
    cbn [p_critical p_warnings p_recommendations cross_stack_issues];
    rewrite ?length_app; simpl; split; (lia || done).
Qed.

Lemma run_rule_lines handler_results p rule :
length (cross_stack_issues p) = lines p →
length (cross_stack_issues (run_rule handler_results p rule))
= lines (run_rule handler_results p rule).
Proof.
intros Hp. unfold run_rule.
destruct (fold_left _ (validators rule) _) as [rule_score rule_issues].
match goal with
| |- context [fold_left (categorize ?r) rule_issues ?q] =>
    destruct (categorize_lines r rule_issues q) as [Hl Hc]
end.
cbn zeta in Hl, Hc.
cbn [cross_stack_issues p_critical p_warnings p_recommendations] in *.
rewrite length_app, Hc, Hl. lia.
Qed.

(** X28: the counters of a report of [_assess_cross_stack_quality] agree
  with its lists. Every issue a validator reports lands in exactly one
  of the three lists, by its severity, so the number of issues found is
  the sum of the numbers of critical issues, warnings and
  recommendations, and these are the lengths of the lists of the
  report. Five rules are checked, and a fresh report counts no
  refinement cycle. *)
Theorem report_counters_agree handler_results :
let report := _assess_cross_stack_quality re_search_ignorecase handler_results in
total_issues_found (metrics report)
= critical_issues_count (metrics report) + warnings_count (metrics report)
  + recommendations_count (metrics report)
∧ critical_issues_count (metrics report) = length (critical_issues report)
∧ warnings_count (metrics report) = length (warnings report)
∧ recommendations_count (metrics report) = length (recommendations report)
∧ handlers_validated (metrics report) = length handler_results
∧ cross_stack_rules_checked (metrics report) = 5
∧ refinement_cycles report = 0.
Proof.
intros report. subst report. unfold _assess_cross_stack_quality.
cbn [metrics total_issues_found critical_issues_count warnings_count
     recommendations_count critical_issues warnings recommendations
     handlers_validated cross_stack_rules_checked refinement_cycles].
split_and!; try done.
generalize (validation_rules re_search_ignorecase). intros rules.
match goal with
| |- context [fold_left _ rules ?q] =>
    assert (length (cross_stack_issues q) = lines q) as Hinit by done;
    revert Hinit; generalize q
end.
induction rules as [|rule rules IH]; intros p Hp; cbn [fold_left]; [done|].
apply IH. by apply run_rule_lines.
Qed.
End ReportFacts.

(** ** The range of the scores of a report *)
Section ScoreBounds.
Import Results QualityCoordinator.
Variable re_search_ignorecase : string -> string -> bool.
Implicit Types (handler_results : HandlerResults).

Lemma checker_score_le handler_results name (v : Validator) :
(∀ r, v handler_results = inr r → (0 <= score r <= 10)%Q) →
(checker_score handler_results (name, v) <= 10)%Q.
Proof.
intros Hv. unfold checker_score. simpl.
destruct (v handler_results) as [e|r] eqn:Hrun; [done | by apply Hv].
Qed.

Lemma weighted_category_sum_upper_bound handler_results :
(weighted_category_sum re_search_ignorecase handler_results <= 10)%Q.
Proof.
pose proof (checker_score_le handler_results "_validate_api_consistency" _
              (fun r H => proj1 (api_consistency_range handler_results r H))) as H1.
pose proof (checker_score_le handler_results "_validate_data_model_consistency" _
              (fun r H => proj1 (data_model_consistency_range handler_results r H)))
  as H2.
pose proof (checker_score_le handler_results "_validate_authentication_consistency" _
              (fun r H => proj1 (authentication_consistency_range handler_results r H)))
  as H3.
pose proof (checker_score_le handler_results "_validate_input_sanitization" _
              (input_sanitization_range re_search_ignorecase handler_results)) as H4.
pose proof (checker_score_le handler_results "_validate_authentication_security" _
              (fun r H => proj1 (authentication_security_range handler_results r H)))
  as H5.
unfold weighted_category_sum, validation_rules, category_mean, Qdiv_nat.
cbn [foldr weight validators length Z.of_nat Pos.of_succ_nat Pos.succ inject_Z].
revert H1 H2 H3 H4 H5.
generalize (checker_score handler_results
              ("_validate_api_consistency", _validate_api_consistency)).
generalize (checker_score handler_results
              ("_validate_data_model_consistency", _validate_data_model_consistency)).
generalize (checker_score handler_results
              ("_validate_authentication_consistency",
               _validate_authentication_consistency)).
generalize (checker_score handler_results
              ("_validate_input_sanitization",
               _validate_input_sanitization re_search_ignorecase)).
generalize (checker_score handler_results
              ("_validate_authentication_security",
               _validate_authentication_security)).
intros s5 s4 s3 s2 s1 H1 H2 H3 H4 H5.
unfold checker_score, placeholder. cbn [snd score].
change (inject_Z (Z.of_nat 3)) with 3%Q.
change (inject_Z (Z.of_nat 4)) with 4%Q.
assert (∀ x : Q, x / 3 == x * (1 # 3))%Q as Hthird by (intros x; field).
assert (∀ x : Q, x / 4 == x * (1 # 4))%Q as Hquarter by (intros x; field).
rewrite !Hthird, !Hquarter. lra.
Qed.

Lemma mean_handler_score_range handler_results :
Forall (fun hr => 0 <= quality_score hr.2 <= 10)%Q handler_results →
(0 <= mean_handler_score handler_results <= 10)%Q.
Proof.
intros Hrange. unfold mean_handler_score.
destruct handler_results as [|hr l] eqn:Hl; [lra|]. rewrite <- Hl in *.
apply Qdiv_nat_range; [subst; simpl; lia|].
clear Hl. induction Hrange as [|x l' Hx Hl' IH].
- simpl. change (inject_Z (Z.of_nat 0)) with 0%Q. lra.
- cbn [foldr length]. rewrite inject_nat_succ. lra.
Qed.

(** X29: the range of the two scores of a report of
  [_assess_cross_stack_quality]. The cross-stack score lies between 36
  and 100; with handler scores between 0 and 10 the overall score lies
  between 14.4 and 46. *)
Theorem assessment_scores_range handler_results :
let report := _assess_cross_stack_quality re_search_ignorecase handler_results in
(36 <= cross_stack_score report <= 100)%Q
∧ (Forall (fun hr => 0 <= quality_score hr.2 <= 10)%Q handler_results →
   (72 # 5 <= overall_score report <= 46)%Q).
Proof.
intros report.
destruct (assess_scores re_search_ignorecase handler_results) as [Hcross Hoverall].
fold report in Hcross, Hoverall.
pose proof (weighted_category_sum_lower_bound re_search_ignorecase handler_results).
pose proof (weighted_category_sum_upper_bound handler_results).
split.
- rewrite Hcross. lra.
- intros Hrange. pose proof (mean_handler_score_range handler_results Hrange).
  rewrite Hoverall, Hcross. lra.
Qed.
End ScoreBounds.

(** ** When the parser returns no file *)
Section ParseEmpty.
Import Results BaseHandler NodeHandler.
Variable json_loads : string -> option json.
Variable findall_file_pattern : string -> list (string * string).




End ParseEmpty.
